(** * imageio: loading and storing FITS rasters

    A shallow embedding of [src/imageio.cc].  The file calls into the
    CFITSIO library, prints diagnostics on [std::cerr] and ends the process
    with [std::exit]; the embedding keeps all three visible:

    - the library is an interface ([Cfitsio]) over an abstract library
      state, so the statements about the code hold for whatever the library
      answers; what a file keeps between a store and a load is the
      library's business, and is stated on a reference library that keeps
      files in memory ([MemFits]);
    - every library call, every text sent to [std::cerr] and every buffer
      allocation is appended to a chronological trace;
    - a computation either returns a value or terminates the process. *)

From Stdlib Require Import ZArith List String Ascii Bool Lia DecimalString.
Import ListNotations.
Local Open Scope string_scope.
Local Open Scope list_scope.
Local Open Scope Z_scope.

(** ** Machine integers

    [int] is 32 bits wide, [long] and [int64_t] are 64 bits wide (LP64).
    Values are carried as [Z]; arithmetic the source performs in a fixed
    width is wrapped to that width in two's complement. *)

Definition wrap (bits z : Z) : Z :=
  (z + 2 ^ (bits - 1)) mod 2 ^ bits - 2 ^ (bits - 1).

Definition in_int (z : Z) : Prop := - 2 ^ 31 <= z < 2 ^ 31.
Definition in_long (z : Z) : Prop := - 2 ^ 63 <= z < 2 ^ 63.

(** [std::numeric_limits<int>::max()] and [min()] *)
Definition INT_MAX : Z := 2147483647.
Definition INT_MIN : Z := - 2147483648.

(** [static_cast<int>(v)] of a [long] *)
Definition to_int (v : Z) : Z := wrap 32 v.
(** [-v] on [int] *)
Definition neg_int (v : Z) : Z := wrap 32 (- v).
(** [a * b] on [int64_t] *)
Definition mul_int64 (a b : Z) : Z := wrap 64 (a * b).

(** [EXIT_FAILURE] of <cstdlib> *)
Definition EXIT_FAILURE : Z := 1.

(** ** Text sent to a stream *)

Definition endl : string := String (ascii_of_nat 10) EmptyString.

(** [stream << v] for an integer [v]: its decimal digits, with a leading
    minus sign when negative. *)
Definition show (v : Z) : string := NilZero.string_of_int (Z.to_int v).

Definition cat (parts : list string) : string :=
  fold_right String.append EmptyString parts.

(** ** The constants of fitsio.h that the source names *)

Module Fitsio.
Definition TFLOAT : Z := 42.
Definition TDOUBLE : Z := 82.
Definition FLOAT_IMG : Z := -32.
Definition DOUBLE_IMG : Z := -64.
Definition IMAGE_HDU : Z := 0.
Definition ASCII_TBL : Z := 1.
Definition BINARY_TBL : Z := 2.
Definition READONLY : Z := 0.
End Fitsio.
Import Fitsio.

(** ** Pixel precision: the template parameter [T] *)

Inductive Real : Type := float | double.

Definition get_type_descr (T : Real) : string :=
  match T with
  | float => "32-bit floats"
  | double => "64-bit floats"
  end.

Definition get_fits_type (T : Real) : Z :=
  match T with
  | float => TFLOAT
  | double => TDOUBLE
  end.

Definition get_fits_bitpix (T : Real) : Z :=
  match T with
  | float => FLOAT_IMG
  | double => DOUBLE_IMG
  end.

(** A pixel is carried as its IEEE 754 bit pattern.
    [std::numeric_limits<T>::quiet_NaN()]: exponent all ones, top fraction
    bit set. *)
Definition quiet_NaN (T : Real) : Z :=
  match T with
  | float => 0x7FC00000
  | double => 0x7FF8000000000000
  end.

(** A cell of an allocated buffer: [None] until something is stored. *)
Definition cell : Type := option Z.

(** The library stores [data] at the start of the caller's buffer; the
    buffer keeps its length. *)
Fixpoint store (data : list Z) (buf : list cell) : list cell :=
  match buf, data with
  | [], _ => []
  | _ :: _, [] => buf
  | _ :: buf', d :: data' => Some d :: store data' buf'
  end.

(** ** The trace of a run *)

(** [fitsfile*]: an address, [0] for [NULL]. *)
Definition fitsfile : Type := Z.
Definition NULL : fitsfile := 0.

Inductive call : Type :=
| open_file (filename : string) (mode : Z)
| get_hdu_type (f : fitsfile)
| get_img_type (f : fitsfile)
| get_img_dim (f : fitsfile)
| get_img_size (f : fitsfile) (nlen : Z)
| read_img (f : fitsfile) (datatype firstelem nelem nulval : Z)
| close_file (f : fitsfile)
| create_file (filename : string)
| create_img (f : fitsfile) (bitpix naxis : Z) (naxes : list Z)
| write_imgnull (f : fitsfile) (datatype firstelem nelem : Z)
    (array : option (list cell)) (nulval : Z).

Inductive event : Type :=
| Call (c : call) (status : Z)
    (** a library call and the status it returned *)
| ReportError (status : Z) (text : string)
    (** [fits_report_error(stderr, status)] and what it printed *)
| Cerr (text : string)
    (** text sent to [std::cerr] *)
| New (n : Z)
    (** a buffer of [n] elements was allocated *).

(** What the error stream shows after a run. *)
Fixpoint stderr_of (tr : list event) : string :=
  match tr with
  | [] => EmptyString
  | Cerr text :: tr' => String.append text (stderr_of tr')
  | ReportError _ text :: tr' => String.append text (stderr_of tr')
  | _ :: tr' => stderr_of tr'
  end.

(** The library calls of a run, in order. *)
Fixpoint calls_of (tr : list event) : list call :=
  match tr with
  | [] => []
  | Call c _ :: tr' => c :: calls_of tr'
  | _ :: tr' => calls_of tr'
  end.

(** The statuses the library returned during a run, in order. *)
Fixpoint statuses_of (tr : list event) : list Z :=
  match tr with
  | [] => []
  | Call _ s :: tr' => s :: statuses_of tr'
  | _ :: tr' => statuses_of tr'
  end.

(** ** The CFITSIO interface

    Each routine takes the library's state and the value of [*status] and
    gives the new state, what it wrote through its output pointers and the
    status, which it both stores in [*status] and returns.  The fields carry
    the routines' names; the [fits_*] names the source uses are their
    long-name macros. *)

Class Cfitsio (FS : Type) : Type := {
  (** [fits_open_file(&f, filename, mode, &s)] *)
  ffopen : FS -> string -> Z -> Z -> FS * (fitsfile * Z);
  (** [fits_get_hdu_type(f, &hdutype, &s)] *)
  ffghdt : FS -> fitsfile -> Z -> FS * (Z * Z);
  (** [fits_get_img_type(f, &bitpix, &s)] *)
  ffgidt : FS -> fitsfile -> Z -> FS * (Z * Z);
  (** [fits_get_img_dim(f, &naxis, &s)] *)
  ffgidm : FS -> fitsfile -> Z -> FS * (Z * Z);
  (** [fits_get_img_size(f, nlen, naxes, &s)], [naxes] a two-element array *)
  ffgisz : FS -> fitsfile -> Z -> Z * Z -> Z -> FS * ((Z * Z) * Z);
  (** [fits_read_img(f, datatype, firstelem, nelem, &nulval, array, &anynul, &s)]:
      the pixels to store in [array], and [anynul] *)
  ffgpv : FS -> fitsfile -> Z -> Z -> Z -> Z -> Z -> FS * ((list Z * Z) * Z);
  (** [fits_close_file(f, &s)] *)
  ffclos : FS -> fitsfile -> Z -> FS * Z;
  (** [fits_create_file(&f, filename, &s)] *)
  ffinit : FS -> string -> Z -> FS * (fitsfile * Z);
  (** [fits_create_img(f, bitpix, naxis, naxes, &s)] *)
  ffcrim : FS -> fitsfile -> Z -> Z -> list Z -> Z -> FS * Z;
  (** [fits_write_imgnull(f, datatype, firstelem, nelem, array, &nulval, &s)] *)
  ffppn : FS -> fitsfile -> Z -> Z -> Z -> option (list cell) -> Z -> Z -> FS * Z;
  (** [fits_report_error(stderr, s)]: the text it prints *)
  ffrprt : FS -> Z -> FS * string
}.

(** ** Containers, settings and the driver handle

    [imageio.h] and the header of the driver declare these; [imageio.cc]
    only uses them. *)

(** Modelled from the spec: [Settings], declared outside [imageio.cc], is an
    opaque configuration value carrying at minimum a source file path; no
    other field is interpreted here. *)
Record Settings : Type := { source : string }.

(** Modelled from the spec: the dimension descriptor of a container is valid
    when every extent is at least 1 and the product of the extents is below
    the signed 32-bit index limit. *)
Definition valid_extents (extents : list Z) : bool :=
  forallb (fun e => 1 <=? e) extents && (fold_right Z.mul 1 extents <? INT_MAX).

Module Image2D.

(** Modelled from the spec: [Image2D<T>] of [imageio.h], the 2-D
    PixelBuffer: extents [x], [y] and the buffer [p], unallocated ([None],
    the null pointer) after construction. *)
Record t (T : Real) : Type := mk { x : Z; y : Z; p : option (list cell) }.
Arguments mk {T} _ _ _.
Arguments x {T} _.
Arguments y {T} _.
Arguments p {T} _.

(** Modelled from the spec: the constructor [Image2D<T>(x, y)] stores the
    extents and does not allocate. *)
Definition make (T : Real) (x_ y_ : Z) : t T := mk x_ y_ None.

(** Modelled from the spec: [size()] is the element count [x*y]. *)
Definition size {T} (img : t T) : Z := x img * y img.

(** [img] with its buffer replaced. *)
Definition with_p {T} (img : t T) (p_ : option (list cell)) : t T :=
  mk (x img) (y img) p_.

End Image2D.

Module Image1D.

(** Modelled from the spec: [Image1D<T>] of [imageio.h], the 1-D
    PixelBuffer: extent [x] and the buffer [p]. *)
Record t (T : Real) : Type := mk { x : Z; p : option (list cell) }.
Arguments mk {T} _ _.
Arguments x {T} _.
Arguments p {T} _.

(** Modelled from the spec: the constructor [Image1D<T>(x)] stores the extent
    and does not allocate. *)
Definition make (T : Real) (x_ : Z) : t T := mk x_ None.

(** Modelled from the spec: [size()] is the element count [x]. *)
Definition size {T} (img : t T) : Z := x img.

(** [img] with its buffer replaced. *)
Definition with_p {T} (img : t T) (p_ : option (list cell)) : t T :=
  mk (x img) p_.

End Image1D.

(** Modelled from the spec: the polymorphic driver handle.  [VDriver] is the
    shared interface; [Driver<T,Image1D<T> >] and [Driver<T,Image2D<T> >]
    own the settings and exactly one container.  A value of this type stands
    for the object a [new] expression yields, which is never null. *)
Inductive VDriver : Type :=
| Driver_Image1D (T : Real) (settings : Settings) (img : Image1D.t T)
| Driver_Image2D (T : Real) (settings : Settings) (img : Image2D.t T).

(** The precision and rank a driver was built for. *)
Definition driver_precision (d : VDriver) : Real :=
  match d with
  | Driver_Image1D T _ _ | Driver_Image2D T _ _ => T
  end.

Definition driver_rank (d : VDriver) : Z :=
  match d with
  | Driver_Image1D _ _ _ => 1
  | Driver_Image2D _ _ _ => 2
  end.

(** The settings a driver owns, and the element count and the buffer of its
    container. *)
Definition driver_settings (d : VDriver) : Settings :=
  match d with
  | Driver_Image1D _ s _ | Driver_Image2D _ s _ => s
  end.

Definition driver_size (d : VDriver) : Z :=
  match d with
  | Driver_Image1D _ _ img => Image1D.size img
  | Driver_Image2D _ _ img => Image2D.size img
  end.

Definition driver_buffer (d : VDriver) : option (list cell) :=
  match d with
  | Driver_Image1D _ _ img => Image1D.p img
  | Driver_Image2D _ _ img => Image2D.p img
  end.

(** The extents of a driver's container. *)
Definition driver_extents (d : VDriver) : list Z :=
  match d with
  | Driver_Image1D _ _ img => [Image1D.x img]
  | Driver_Image2D _ _ img => [Image2D.x img; Image2D.y img]
  end.

(** Modelled from the spec: [alloc()] fails fatally, aborting the process
    after a diagnostic.  The spec does not give the words of that
    diagnostic; they are a parameter of the header. *)
Class Imageio_h : Type := { alloc_refused : string }.

(** ** A reference library: files kept in memory

    Modelled from the spec and from the CFITSIO documentation: a small
    instance of the interface, on which the program runs on concrete files
    and on which a store can be followed by a load.  A file is one
    header-data unit; an open handle works on a copy that [ffclos] writes
    back.  A file is created fresh, never overwritten.  Pixels are stored as
    their bit patterns; following the sentinel convention of the spec, a read
    substitutes the caller's null value wherever the stored pixel is
    undefined, which for a floating-point image means a NaN, and reports in
    [anynul] whether it did. *)

Module MemFits.

Record hdu : Type := mkHdu {
  hdu_type : Z;
  hdu_bitpix : Z;
  hdu_naxes : list Z;
  hdu_pixels : list Z
}.

Record state : Type := mkState {
  disk : list (string * hdu);
  handles : list (fitsfile * (string * hdu));
  next : fitsfile
}.

Definition FILE_NOT_OPENED : Z := 104.
Definition FILE_NOT_CREATED : Z := 105.
Definition END_OF_FILE : Z := 107.
Definition BAD_FILEPTR : Z := 114.

Definition file_named (name : string) (d : list (string * hdu)) : option hdu :=
  option_map snd (find (fun e => String.eqb (fst e) name) d).

Definition handle (f : fitsfile) (hs : list (fitsfile * (string * hdu)))
  : option (string * hdu) :=
  option_map snd (find (fun e => fst e =? f) hs).

(** An IEEE 754 NaN of the width the storage tag names: exponent all ones,
    fraction not zero. *)
Definition is_nan (bitpix v : Z) : bool :=
  if bitpix =? FLOAT_IMG then
    (Z.land v 0x7F800000 =? 0x7F800000) && negb (Z.land v 0x007FFFFF =? 0)
  else if bitpix =? DOUBLE_IMG then
    (Z.land v 0x7FF0000000000000 =? 0x7FF0000000000000)
    && negb (Z.land v 0x000FFFFFFFFFFFFF =? 0)
  else false.

Definition mem_open (fs : state) (filename : string) (mode s : Z)
  : state * (fitsfile * Z) :=
  if negb (s =? 0) then (fs, (NULL, s)) else
  match file_named filename (disk fs) with
  | Some h =>
      (mkState (disk fs) ((next fs, (filename, h)) :: handles fs) (next fs + 1),
       (next fs, 0))
  | None => (fs, (NULL, FILE_NOT_OPENED))
  end.

Definition on_handle {A} (fs : state) (f : fitsfile) (s : Z) (dflt : A)
    (k : hdu -> A) : state * (A * Z) :=
  if negb (s =? 0) then (fs, (dflt, s)) else
  match handle f (handles fs) with
  | Some (_, h) => (fs, (k h, 0))
  | None => (fs, (dflt, BAD_FILEPTR))
  end.

Definition mem_ghdt (fs : state) (f : fitsfile) (s : Z) : state * (Z * Z) :=
  on_handle fs f s 0 hdu_type.

Definition mem_gidt (fs : state) (f : fitsfile) (s : Z) : state * (Z * Z) :=
  on_handle fs f s 0 hdu_bitpix.

Definition mem_gidm (fs : state) (f : fitsfile) (s : Z) : state * (Z * Z) :=
  on_handle fs f s 0 (fun h => Z.of_nat (List.length (hdu_naxes h))).

Definition mem_gisz (fs : state) (f : fitsfile) (nlen : Z) (naxes : Z * Z)
    (s : Z) : state * ((Z * Z) * Z) :=
  on_handle fs f s naxes
    (fun h =>
       (if 1 <=? nlen then nth 0 (hdu_naxes h) 1 else fst naxes,
        if 2 <=? nlen then nth 1 (hdu_naxes h) 1 else snd naxes)).

Definition mem_gpv (fs : state) (f : fitsfile)
    (datatype firstelem nelem nulval s : Z) : state * ((list Z * Z) * Z) :=
  if negb (s =? 0) then (fs, (([], 0), s)) else
  match handle f (handles fs) with
  | Some (_, h) =>
      let stored :=
        firstn (Z.to_nat nelem) (skipn (Z.to_nat (firstelem - 1)) (hdu_pixels h)) in
      if Z.of_nat (List.length stored) <? nelem then (fs, (([], 0), END_OF_FILE))
      else
        let undefined := is_nan (hdu_bitpix h) in
        (fs, ((map (fun v => if undefined v then nulval else v) stored,
               if existsb undefined stored then 1 else 0), 0))
  | None => (fs, (([], 0), BAD_FILEPTR))
  end.

Definition forget (f : fitsfile) (hs : list (fitsfile * (string * hdu))) :=
  filter (fun e => negb (fst e =? f)) hs.

Definition mem_clos (fs : state) (f : fitsfile) (s : Z) : state * Z :=
  match handle f (handles fs) with
  | Some (name, h) =>
      (mkState
         ((name, h) :: filter (fun e => negb (String.eqb (fst e) name)) (disk fs))
         (forget f (handles fs)) (next fs),
       s)
  | None => (fs, if s =? 0 then BAD_FILEPTR else s)
  end.

Definition mem_init (fs : state) (filename : string) (s : Z)
  : state * (fitsfile * Z) :=
  if negb (s =? 0) then (fs, (NULL, s)) else
  match file_named filename (disk fs) with
  | Some _ => (fs, (NULL, FILE_NOT_CREATED))
  | None =>
      (mkState (disk fs)
         ((next fs, (filename, mkHdu IMAGE_HDU 8 [] [])) :: handles fs)
         (next fs + 1),
       (next fs, 0))
  end.

Definition update (fs : state) (f : fitsfile) (s : Z) (k : hdu -> hdu)
  : state * Z :=
  if negb (s =? 0) then (fs, s) else
  match handle f (handles fs) with
  | Some (name, h) =>
      (mkState (disk fs) ((f, (name, k h)) :: handles fs) (next fs), 0)
  | None => (fs, BAD_FILEPTR)
  end.

Definition mem_crim (fs : state) (f : fitsfile) (bitpix naxis : Z)
    (naxes : list Z) (s : Z) : state * Z :=
  update fs f s
    (fun h => mkHdu IMAGE_HDU bitpix (firstn (Z.to_nat naxis) naxes) []).

Definition mem_ppn (fs : state) (f : fitsfile) (datatype firstelem nelem : Z)
    (array : option (list cell)) (nulval s : Z) : state * Z :=
  match array with
  | Some buf =>
      update fs f s
        (fun h =>
           mkHdu (hdu_type h) (hdu_bitpix h) (hdu_naxes h)
             (firstn (Z.to_nat (firstelem - 1)) (hdu_pixels h)
                ++ map (fun c => match c with Some v => v | None => 0 end)
                     (firstn (Z.to_nat nelem) buf)))
  | None => (fs, if s =? 0 then BAD_FILEPTR else s)
  end.

Definition mem_rprt (fs : state) (s : Z) : state * string :=
  (fs, cat ["FITSIO status = "; show s; endl]).

#[global] Instance lib : Cfitsio state := {
  ffopen := mem_open;
  ffghdt := mem_ghdt;
  ffgidt := mem_gidt;
  ffgidm := mem_gidm;
  ffgisz := mem_gisz;
  ffgpv := mem_gpv;
  ffclos := mem_clos;
  ffinit := mem_init;
  ffcrim := mem_crim;
  ffppn := mem_ppn;
  ffrprt := mem_rprt
}.

(** A library state holding the given files and no open handle. *)
Definition with_files (d : list (string * hdu)) : state := mkState d [] 1.

End MemFits.

(** ** Fully populated containers and the equality of pixels up to NaN *)

(** Modelled from the spec: a fully populated container holds one value per
    element.  It was allocated, so its extents are valid, and its buffer has
    as many cells as its size, each one defined: the buffer holds exactly
    [pixels]. *)
Definition populated_2d {T} (img : Image2D.t T) (pixels : list Z) : Prop :=
  valid_extents [Image2D.x img; Image2D.y img] = true /\
  List.length pixels = Z.to_nat (Image2D.size img) /\
  Image2D.p img = Some (map Some pixels).

Definition populated_1d {T} (img : Image1D.t T) (pixels : list Z) : Prop :=
  valid_extents [Image1D.x img] = true /\
  List.length pixels = Z.to_nat (Image1D.size img) /\
  Image1D.p img = Some (map Some pixels).

(** A NaN of the precision [T]. *)
Definition is_NaN (T : Real) (v : Z) : bool :=
  MemFits.is_nan (get_fits_bitpix T) v.

(** The pixel [v'] is the stored pixel [v] read back: bit-identical when
    [v] is not a NaN, and the quiet-NaN sentinel of [T], itself a NaN of [T],
    when it is one. *)
Definition same_pixel (T : Real) (v v' : Z) : Prop :=
  (is_NaN T v = false -> v' = v) /\
  (is_NaN T v = true -> v' = quiet_NaN T /\ is_NaN T v' = true).

(** ** Computations

    A computation runs in a world made of the library's state and the trace
    so far.  It returns a value, or the process terminates: by
    [std::exit(code)] or by an abort. *)

Inductive termination : Type := Exit (code : Z) | Abort.

Section Program.

Context {FS : Type} {lib : Cfitsio FS} {hdr : Imageio_h}.

Record World : Type := mkWorld { fits : FS; trace : list event }.

Inductive outcome (A : Type) : Type :=
| Returned (a : A) (w : World)
| Terminated (t : termination) (w : World).
Arguments Returned {A} _ _.
Arguments Terminated {A} _ _.

Definition M (A : Type) : Type := World -> outcome A.

Definition ret {A} (a : A) : M A := fun w => Returned a w.

Definition bind {A B} (m : M A) (k : A -> M B) : M B :=
  fun w =>
    match m w with
    | Returned a w' => k a w'
    | Terminated t w' => Terminated t w'
    end.

Notation "x <- m ;; k" := (bind m (fun x => k))
  (at level 61, m at next level, right associativity).
Notation "' pat <- m ;; k" := (bind m (fun x => match x with pat => k end))
  (at level 61, pat pattern, m at next level, right associativity).
Notation "m ;; k" := (bind m (fun _ => k))
  (at level 61, right associativity).

(** The world an outcome ends in. *)
Definition final {A} (o : outcome A) : World :=
  match o with
  | Returned _ w | Terminated _ w => w
  end.

Definition log (e : event) (w : World) : World :=
  mkWorld (fits w) (trace w ++ [e]).

Definition emit (e : event) : M unit := fun w => Returned tt (log e w).

(** [std::exit(code)]: never returns, so it fits any result type. *)
Definition exit {A} (code : Z) : M A := fun w => Terminated (Exit code) w.

Definition abort {A} : M A := fun w => Terminated Abort w.

(** [std::cerr << ...;] one statement's worth of text *)
Definition cerr (parts : list string) : M unit := emit (Cerr (cat parts)).

(** [if (c) { body }] *)
Definition when (c : bool) (body : M unit) : M unit :=
  if c then body else ret tt.

(** *** Library calls: run the routine on the library's state, log it. *)

Definition fits_open_file (filename : string) (mode s : Z) : M (fitsfile * Z) :=
  fun w =>
    let '(fs, (f, s')) := ffopen (fits w) filename mode s in
    Returned (f, s') (log (Call (open_file filename mode) s') (mkWorld fs (trace w))).

Definition fits_get_hdu_type (f : fitsfile) (s : Z) : M (Z * Z) :=
  fun w =>
    let '(fs, (hdutype, s')) := ffghdt (fits w) f s in
    Returned (hdutype, s') (log (Call (get_hdu_type f) s') (mkWorld fs (trace w))).

Definition fits_get_img_type (f : fitsfile) (s : Z) : M (Z * Z) :=
  fun w =>
    let '(fs, (bitpix, s')) := ffgidt (fits w) f s in
    Returned (bitpix, s') (log (Call (get_img_type f) s') (mkWorld fs (trace w))).

Definition fits_get_img_dim (f : fitsfile) (s : Z) : M (Z * Z) :=
  fun w =>
    let '(fs, (naxis, s')) := ffgidm (fits w) f s in
    Returned (naxis, s') (log (Call (get_img_dim f) s') (mkWorld fs (trace w))).

Definition fits_get_img_size (f : fitsfile) (nlen : Z) (naxes : Z * Z) (s : Z)
  : M ((Z * Z) * Z) :=
  fun w =>
    let '(fs, (naxes', s')) := ffgisz (fits w) f nlen naxes s in
    Returned (naxes', s') (log (Call (get_img_size f nlen) s') (mkWorld fs (trace w))).

(** The pixels the library delivers are stored into the caller's buffer
    [array]; [anynul] comes back beside it. *)
Definition fits_read_img (f : fitsfile) (datatype firstelem nelem nulval : Z)
    (array : option (list cell)) (s : Z) : M ((option (list cell) * Z) * Z) :=
  fun w =>
    let '(fs, ((data, anynul), s')) :=
      ffgpv (fits w) f datatype firstelem nelem nulval s in
    Returned (option_map (store data) array, anynul, s')
      (log (Call (read_img f datatype firstelem nelem nulval) s')
         (mkWorld fs (trace w))).

Definition fits_close_file (f : fitsfile) (s : Z) : M Z :=
  fun w =>
    let '(fs, s') := ffclos (fits w) f s in
    Returned s' (log (Call (close_file f) s') (mkWorld fs (trace w))).

Definition fits_create_file (filename : string) (s : Z) : M (fitsfile * Z) :=
  fun w =>
    let '(fs, (f, s')) := ffinit (fits w) filename s in
    Returned (f, s') (log (Call (create_file filename) s') (mkWorld fs (trace w))).

Definition fits_create_img (f : fitsfile) (bitpix naxis : Z) (naxes : list Z)
    (s : Z) : M Z :=
  fun w =>
    let '(fs, s') := ffcrim (fits w) f bitpix naxis naxes s in
    Returned s' (log (Call (create_img f bitpix naxis naxes) s')
                   (mkWorld fs (trace w))).

Definition fits_write_imgnull (f : fitsfile) (datatype firstelem nelem : Z)
    (array : option (list cell)) (nulval s : Z) : M Z :=
  fun w =>
    let '(fs, s') := ffppn (fits w) f datatype firstelem nelem array nulval s in
    Returned s' (log (Call (write_imgnull f datatype firstelem nelem array nulval) s')
                   (mkWorld fs (trace w))).

Definition fits_report_error (s : Z) : M unit :=
  fun w =>
    let '(fs, text) := ffrprt (fits w) s in
    Returned tt (log (ReportError s text) (mkWorld fs (trace w))).

(** *** Allocation *)

(** Modelled from the spec: the fatal end of [alloc()], a process abort
    after the diagnostic. *)
Definition refuse {A} : M A := emit (Cerr alloc_refused);; abort.

(** Modelled from the spec: [alloc()] of [Image2D<T>] in [imageio.h]
    allocates exactly product(extents) elements; it fails fatally (the
    process aborts after a diagnostic) when called on an allocated container
    or when the extents are invalid. *)
Definition alloc_2d {T} (img : Image2D.t T) : M (Image2D.t T) :=
  match Image2D.p img with
  | Some _ => refuse
  | None =>
      if valid_extents [Image2D.x img; Image2D.y img] then
        emit (New (Image2D.size img));;
        ret (Image2D.with_p img
               (Some (repeat None (Z.to_nat (Image2D.size img)))))
      else refuse
  end.

(** Modelled from the spec: [alloc()] of [Image1D<T>] in [imageio.h], as
    for the 2-D container. *)
Definition alloc_1d {T} (img : Image1D.t T) : M (Image1D.t T) :=
  match Image1D.p img with
  | Some _ => refuse
  | None =>
      if valid_extents [Image1D.x img] then
        emit (New (Image1D.size img));;
        ret (Image1D.with_p img
               (Some (repeat None (Z.to_nat (Image1D.size img)))))
      else refuse
  end.

(** ** imageio.cc

    One definition per function of the file, statement by statement.  A
    library call and the [fcheck] around it read
    [fcheck(fits_x(..., &s))] in the source; here the call returns the status
    into [s] and [fcheck s] follows. *)

(** [static void fcheck(int s)] *)
Definition fcheck (s : Z) : M unit :=
  when (negb (s =? 0))
    (fits_report_error s;;
     exit EXIT_FAILURE).

(** [static void verify_dim_2d(const long* naxes)]; [x * y] is computed in
    [int64_t]. *)
Definition verify_dim_2d (naxes : Z * Z) : M unit :=
  let x := fst naxes in
  let y := snd naxes in
  when ((x <? 1) || (y <? 1))
    (cerr ["image dimensions "; show x; "x"; show y; " too small"; endl];;
     exit EXIT_FAILURE);;
  when (mul_int64 x y >=? INT_MAX)
    (cerr ["image dimensions "; show x; "x"; show y; " too large"; endl];;
     exit EXIT_FAILURE).

(** [static void verify_dim_1d(const long* naxes)] *)
Definition verify_dim_1d (naxes : Z * Z) : M unit :=
  let x := fst naxes in
  when (x <? 1)
    (cerr ["image dimension "; show x; " too small"; endl];;
     exit EXIT_FAILURE);;
  when (x >=? INT_MAX)
    (cerr ["image dimension "; show x; " too large"; endl];;
     exit EXIT_FAILURE).

(** [template <typename T> static Image2D<T> read_image_data_2d(const char*
    filename, fitsfile* f)] *)
Definition read_image_data_2d (T : Real) (filename : string) (f : fitsfile)
  : M (Image2D.t T) :=
  let s := 0 in
  let naxes := (0, 0) in
  '(naxes, s) <- fits_get_img_size f 2 naxes s;;
  fcheck s;;
  verify_dim_2d naxes;;
  let x := to_int (fst naxes) in
  let y := to_int (snd naxes) in
  let img := Image2D.make T x y in
  let nulval := quiet_NaN T in
  let anynul := 0 in
  img <- alloc_2d img;;
  '(array, anynul, s) <-
    fits_read_img f (get_fits_type T) 1 (Image2D.size img) nulval
      (Image2D.p img) s;;
  fcheck s;;
  s <- fits_close_file f s;;
  fcheck s;;
  ret (Image2D.with_p img array).

(** [template <typename T> static Image1D<T> read_image_data_1d(const char*
    filename, fitsfile* f)] *)
Definition read_image_data_1d (T : Real) (filename : string) (f : fitsfile)
  : M (Image1D.t T) :=
  let s := 0 in
  let naxes := (0, 0) in
  '(naxes, s) <- fits_get_img_size f 1 naxes s;;
  fcheck s;;
  verify_dim_1d naxes;;
  let x := to_int (fst naxes) in
  let img := Image1D.make T x in
  let nulval := quiet_NaN T in
  let anynul := 0 in
  img <- alloc_1d img;;
  '(array, anynul, s) <-
    fits_read_img f (get_fits_type T) 1 (Image1D.size img) nulval
      (Image1D.p img) s;;
  fcheck s;;
  s <- fits_close_file f s;;
  fcheck s;;
  ret (Image1D.with_p img array).

(** [static fitsfile* open_image_for_reading(const char* filename)] *)
Definition open_image_for_reading (filename : string) : M fitsfile :=
  let f := NULL in
  let s := 0 in
  '(f, s) <- fits_open_file filename READONLY s;;
  fcheck s;;
  let hdutype := 0 in
  '(hdutype, s) <- fits_get_hdu_type f s;;
  fcheck s;;
  when (negb (hdutype =? IMAGE_HDU))
    (cerr ["expected IMAGE_HDU, got "];;
     (if hdutype =? ASCII_TBL then cerr ["ASCII_TBL"]
      else if hdutype =? BINARY_TBL then cerr ["BINARY_TBL"]
      else cerr [show hdutype]);;
     cerr [endl];;
     exit EXIT_FAILURE);;
  ret f.

(** [template <typename T> static VDriver* from_image_helper(Settings
    settings, fitsfile* f)] *)
Definition from_image_helper (T : Real) (settings : Settings) (f : fitsfile)
  : M VDriver :=
  let s := 0 in
  let naxis := 0 in
  '(naxis, s) <- fits_get_img_dim f s;;
  fcheck s;;
  if naxis =? 1 then
    img <- read_image_data_1d T (source settings) f;;
    ret (Driver_Image1D T settings img)
  else if naxis =? 2 then
    img <- read_image_data_2d T (source settings) f;;
    ret (Driver_Image2D T settings img)
  else
    cerr ["expected 1-dimensional or 2-dimensional data, got ";
          show naxis; "-dimensional data"; endl];;
    exit EXIT_FAILURE.

(** [VDriver* from_image(Settings settings)] *)
Definition from_image (settings : Settings) : M VDriver :=
  f <- open_image_for_reading (source settings);;
  let s := 0 in
  let bitpix := 0 in
  '(bitpix, s) <- fits_get_img_type f s;;
  fcheck s;;
  if bitpix =? get_fits_bitpix float then
    from_image_helper float settings f
  else if bitpix =? get_fits_bitpix double then
    from_image_helper double settings f
  else
    cerr ["unexpected data type: "];;
    (if bitpix <? 0 then cerr [show (neg_int bitpix); "-bit floats"]
     else cerr [show bitpix; "-bit integers"]);;
    cerr [endl];;
    exit EXIT_FAILURE.

(** [template <typename T> void write_image(const char* filename,
    Image2D<T> img)] *)
Definition write_image_2d (T : Real) (filename : string) (img : Image2D.t T)
  : M unit :=
  let f := NULL in
  let s := 0 in
  '(f, s) <- fits_create_file filename s;;
  fcheck s;;
  let naxes := [Image2D.x img; Image2D.y img] in
  s <- fits_create_img f (get_fits_bitpix T) 2 naxes s;;
  fcheck s;;
  let nulval := quiet_NaN T in
  s <- fits_write_imgnull f (get_fits_type T) 1 (Image2D.size img)
         (Image2D.p img) nulval s;;
  fcheck s;;
  s <- fits_close_file f s;;
  fcheck s.

(** [template <typename T> void write_image(const char* filename,
    Image1D<T> img)] *)
Definition write_image_1d (T : Real) (filename : string) (img : Image1D.t T)
  : M unit :=
  let f := NULL in
  let s := 0 in
  '(f, s) <- fits_create_file filename s;;
  fcheck s;;
  let naxes := [Image1D.x img] in
  s <- fits_create_img f (get_fits_bitpix T) 1 naxes s;;
  fcheck s;;
  let nulval := quiet_NaN T in
  s <- fits_write_imgnull f (get_fits_type T) 1 (Image1D.size img)
         (Image1D.p img) nulval s;;
  fcheck s;;
  s <- fits_close_file f s;;
  fcheck s.

(** ** Vocabulary of the statements *)

(** The world after [fits_report_error(stderr, s)]. *)
Definition reported (s : Z) (w : World) : World :=
  let '(fs, text) := ffrprt (fits w) s in
  log (ReportError s text) (mkWorld fs (trace w)).

(** [w] with further events appended. *)
Definition extend (w : World) (added : list event) : World :=
  mkWorld (fits w) (trace w ++ added).

(** The routine a call enters, its arguments left out. *)
Inductive kind : Type :=
| K_open_file | K_get_hdu_type | K_get_img_type | K_get_img_dim
| K_get_img_size | K_read_img | K_close_file
| K_create_file | K_create_img | K_write_imgnull.

Definition kind_of (c : call) : kind :=
  match c with
  | open_file _ _ => K_open_file
  | get_hdu_type _ => K_get_hdu_type
  | get_img_type _ => K_get_img_type
  | get_img_dim _ => K_get_img_dim
  | get_img_size _ _ => K_get_img_size
  | read_img _ _ _ _ _ => K_read_img
  | close_file _ => K_close_file
  | create_file _ => K_create_file
  | create_img _ _ _ _ => K_create_img
  | write_imgnull _ _ _ _ _ _ => K_write_imgnull
  end.

Definition kinds (tr : list event) : list kind := map kind_of (calls_of tr).

Definition prefix_of {A} (l plan : list A) : Prop := exists rest, plan = l ++ rest.

(** Every library call of the trace returned status zero. *)
Definition clean (tr : list event) : Prop :=
  Forall (fun s => s = 0) (statuses_of tr).

(** The ways a run ends the process: a library call returned a non-zero
    status, which was reported before [exit(EXIT_FAILURE)]; a diagnostic was
    printed before [exit(EXIT_FAILURE)]; an allocation was refused. *)
Inductive fatal : termination -> list event -> Prop :=
| fatal_status pre c s text :
    clean pre -> s <> 0 ->
    fatal (Exit EXIT_FAILURE) (pre ++ [Call c s; ReportError s text])
| fatal_diagnostic pre text :
    clean pre ->
    fatal (Exit EXIT_FAILURE) (pre ++ [Cerr text])
| fatal_alloc tr :
    clean tr ->
    fatal Abort tr.

(** [m], from any world, only appends to the trace; when it returns, its
    calls were exactly those of [plan], all with status zero, and the result
    satisfies [Q]; when it terminates, it did so on a fatal path after a
    prefix of [plan]. *)
Definition follows {A} (m : M A) (plan : list kind) (Q : A -> Prop) : Prop :=
  forall w, exists added,
    trace (final (m w)) = trace w ++ added /\
    match m w with
    | Returned a _ => kinds added = plan /\ clean added /\ Q a
    | Terminated t _ => prefix_of (kinds added) plan /\ fatal t added
    end.

(** [m] is one library call of kind [kd]; [status_of] reads the returned
    status off its result, which satisfies [P]. *)
Definition is_call {R} (m : M R) (kd : kind) (status_of : R -> Z)
    (P : R -> Prop) : Prop :=
  forall w, exists fs r c,
    m w = Returned r (mkWorld fs (trace w ++ [Call c (status_of r)])) /\
    kind_of c = kd /\ P r.

(** A container as a load leaves it: allocated, as many cells as its size. *)
Definition loaded_2d {T} (img : Image2D.t T) : Prop :=
  exists buf, Image2D.p img = Some buf /\
    List.length buf = Z.to_nat (Image2D.size img) /\
    valid_extents [Image2D.x img; Image2D.y img] = true.

Definition loaded_1d {T} (img : Image1D.t T) : Prop :=
  exists buf, Image1D.p img = Some buf /\
    List.length buf = Z.to_nat (Image1D.size img) /\
    valid_extents [Image1D.x img] = true.

(** The driver owns the caller's settings and one loaded container. *)
Definition driver_ok (settings : Settings) (d : VDriver) : Prop :=
  match d with
  | Driver_Image1D T s img => s = settings /\ loaded_1d img
  | Driver_Image2D T s img => s = settings /\ loaded_2d img
  end.

(** The calls of a complete load, in order: open, verify the image unit,
    probe the precision, probe the rank, then the load proper. *)
Definition load_plan : list kind :=
  [K_open_file; K_get_hdu_type; K_get_img_type; K_get_img_dim;
   K_get_img_size; K_read_img; K_close_file].

Definition store_plan : list kind :=
  [K_create_file; K_create_img; K_write_imgnull; K_close_file].

(** *** Diagnostics and probes *)

(** The file opens, and its first unit has type [hdutype]: both calls
    return status zero and lead from [w] to [w2]. *)
Definition opens_as (w : World) (filename : string) (f : fitsfile)
    (hdutype : Z) (w2 : World) : Prop :=
  exists fs1 fs2,
    ffopen (fits w) filename READONLY 0 = (fs1, (f, 0)) /\
    ffghdt fs1 f 0 = (fs2, (hdutype, 0)) /\
    w2 = mkWorld fs2
           (trace w ++ [Call (open_file filename READONLY) 0;
                        Call (get_hdu_type f) 0]).

(** The diagnostic of the structural gate. *)
Definition not_an_image (what : string) : list event :=
  [Cerr "expected IMAGE_HDU, got "; Cerr what; Cerr endl].

(** The storage tag of the open file reads as [bitpix], with status zero. *)
Definition probes_precision (w1 : World) (f : fitsfile) (bitpix : Z)
    (w2 : World) : Prop :=
  exists fs2,
    ffgidt (fits w1) f 0 = (fs2, (bitpix, 0)) /\
    w2 = mkWorld fs2 (trace w1 ++ [Call (get_img_type f) 0]).

(** The diagnostic of the precision gate. *)
Definition unexpected_data_type (what : string) : list event :=
  [Cerr "unexpected data type: "; Cerr what; Cerr endl].

(** The axis count of the open file reads as [naxis], with status zero. *)
Definition probes_rank (w : World) (f : fitsfile) (naxis : Z) (w1 : World)
  : Prop :=
  exists fs1,
    ffgidm (fits w) f 0 = (fs1, (naxis, 0)) /\
    w1 = mkWorld fs1 (trace w ++ [Call (get_img_dim f) 0]).

(** The diagnostic of the rank gate. *)
Definition unexpected_rank (naxis : Z) : list event :=
  [Cerr (cat ["expected 1-dimensional or 2-dimensional data, got ";
              show naxis; "-dimensional data"; endl])].

(** The diagnostics of the dimension gates. *)
Definition too_small_2d (x y : Z) : list event :=
  [Cerr (cat ["image dimensions "; show x; "x"; show y; " too small"; endl])].

Definition too_large_2d (x y : Z) : list event :=
  [Cerr (cat ["image dimensions "; show x; "x"; show y; " too large"; endl])].

Definition too_small_1d (x : Z) : list event :=
  [Cerr (cat ["image dimension "; show x; " too small"; endl])].

Definition too_large_1d (x : Z) : list event :=
  [Cerr (cat ["image dimension "; show x; " too large"; endl])].

(** *** Status checking *)

(** Every run of [m] either saw only zero statuses, or terminated with
    [EXIT_FAILURE] right after reporting the first non-zero one; when [m]
    returns, every status was zero. *)
Definition status_checked {A} (m : M A) : Prop :=
  forall w, exists added,
    trace (final (m w)) = trace w ++ added /\
    match m w with
    | Returned _ _ => clean added
    | Terminated t _ =>
        clean added \/
        (t = Exit EXIT_FAILURE /\
         exists pre c s text,
           clean pre /\ s <> 0 /\
           added = pre ++ [Call c s; ReportError s text])
    end.

(** *** Whole loads and stores *)

(** The events of the load proper when every call succeeds: the size query,
    the allocation of [n] elements, the read of [n] elements of type [T]
    from element 1 with the quiet NaN as null value, and the close. *)
Definition load_events (f : fitsfile) (T : Real) (rank n : Z) : list event :=
  [Call (get_img_size f rank) 0;
   New n;
   Call (read_img f (get_fits_type T) 1 n (quiet_NaN T)) 0;
   Call (close_file f) 0].

(** The library serves that read and that close from state [fs1], delivering
    [data] and ending in state [fs3]. *)
Definition serves_load (fs1 : FS) (f : fitsfile) (T : Real) (n : Z)
    (data : list Z) (fs3 : FS) : Prop :=
  exists anynul fs2,
    ffgpv fs1 f (get_fits_type T) 1 n (quiet_NaN T) 0
      = (fs2, ((data, anynul), 0)) /\
    ffclos fs2 f 0 = (fs3, 0).

(** The buffer of [n] fresh cells after [data] was stored into it. *)
Definition filled (n : Z) (data : list Z) : list cell :=
  store data (repeat None (Z.to_nat n)).

(** The events of a store when every call succeeds. *)
Definition store_events (filename : string) (f : fitsfile) (T : Real)
    (naxes : list Z) (n : Z) (array : option (list cell)) : list event :=
  [Call (create_file filename) 0;
   Call (create_img f (get_fits_bitpix T) (Z.of_nat (List.length naxes)) naxes) 0;
   Call (write_imgnull f (get_fits_type T) 1 n array (quiet_NaN T)) 0;
   Call (close_file f) 0].

(** The library accepts the four calls of a store, in order, each with
    status zero, and that leads from [w] to [w']. *)
Definition accepts_store (w : World) (filename : string) (T : Real)
    (naxes : list Z) (n : Z) (array : option (list cell)) (w' : World) : Prop :=
  exists f fs1 fs2 fs3 fs4,
    ffinit (fits w) filename 0 = (fs1, (f, 0)) /\
    ffcrim fs1 f (get_fits_bitpix T) (Z.of_nat (List.length naxes)) naxes 0
      = (fs2, 0) /\
    ffppn fs2 f (get_fits_type T) 1 n array (quiet_NaN T) 0 = (fs3, 0) /\
    ffclos fs3 f 0 = (fs4, 0) /\
    w' = mkWorld fs4 (trace w ++ store_events filename f T naxes n array).

(** The library describes the file [filename] as an image of precision [T]
    with [rank] axes of extents [naxes]: the open and the four metadata
    queries all return status zero, on the handle [f], and lead from [w] to
    the world [w4] and then, for the size query, to the library state
    [fs5]. *)
Definition describes (w : World) (filename : string) (f : fitsfile)
    (T : Real) (rank : Z) (naxes : Z * Z) (w4 : World) (fs5 : FS) : Prop :=
  exists w2 w3,
    opens_as w filename f IMAGE_HDU w2 /\
    probes_precision w2 f (get_fits_bitpix T) w3 /\
    probes_rank w3 f rank w4 /\
    ffgisz (fits w4) f rank (0, 0) 0 = (fs5, (naxes, 0)).

(** The events of the open and of the probes before the load proper. *)
Definition probe_events (filename : string) (f : fitsfile) : list event :=
  [Call (open_file filename READONLY) 0;
   Call (get_hdu_type f) 0;
   Call (get_img_type f) 0;
   Call (get_img_dim f) 0].

(** [m], run from [w], has no failure of its own: if it terminates, then
    with [EXIT_FAILURE], right after the library returned a non-zero status
    and reported it, every earlier call having returned zero; the report is
    all that the error stream shows. *)
Definition fails_only_on_status {A} (m : M A) (w : World) : Prop :=
  match m w with
  | Returned _ _ => True
  | Terminated t w' =>
      t = Exit EXIT_FAILURE /\
      exists pre c s text,
        trace w' = trace w ++ pre ++ [Call c s; ReportError s text] /\
        s <> 0 /\ clean pre /\
        stderr_of (pre ++ [Call c s; ReportError s text]) = text
  end.

(** No library call comes after a [fits_close_file]. *)
Definition nothing_after_close (tr : list event) : Prop :=
  forall pre f s post,
    tr = pre ++ Call (close_file f) s :: post -> calls_of post = [].

(** A routine that creates or changes a file. *)
Definition writes (c : call) : bool :=
  match c with
  | create_file _ | create_img _ _ _ _ | write_imgnull _ _ _ _ _ _ => true
  | _ => false
  end.

(** *** The outcomes of a load *)

(** The answer of the library to the call [c], made in state [fs] with a
    zero [*status]: its new state and the status it returns. *)
Definition perform (fs : FS) (c : call) : FS * Z :=
  match c with
  | open_file filename mode =>
      let '(fs', (_, s)) := ffopen fs filename mode 0 in (fs', s)
  | get_hdu_type f =>
      let '(fs', (_, s)) := ffghdt fs f 0 in (fs', s)
  | get_img_type f =>
      let '(fs', (_, s)) := ffgidt fs f 0 in (fs', s)
  | get_img_dim f =>
      let '(fs', (_, s)) := ffgidm fs f 0 in (fs', s)
  | get_img_size f nlen =>
      let '(fs', (_, s)) := ffgisz fs f nlen (0, 0) 0 in (fs', s)
  | read_img f datatype firstelem nelem nulval =>
      let '(fs', (_, s)) := ffgpv fs f datatype firstelem nelem nulval 0 in
      (fs', s)
  | close_file f => ffclos fs f 0
  | create_file filename =>
      let '(fs', (_, s)) := ffinit fs filename 0 in (fs', s)
  | create_img f bitpix naxis naxes => ffcrim fs f bitpix naxis naxes 0
  | write_imgnull f datatype firstelem nelem array nulval =>
      ffppn fs f datatype firstelem nelem array nulval 0
  end.

(** What the structural gate prints for a unit type. *)
Definition unit_name (hdutype : Z) : string :=
  if hdutype =? ASCII_TBL then "ASCII_TBL"
  else if hdutype =? BINARY_TBL then "BINARY_TBL"
  else show hdutype.

(** What the precision gate prints for a storage tag. *)
Definition tag_name (bitpix : Z) : string :=
  if bitpix <? 0 then cat [show (neg_int bitpix); "-bit floats"]
  else cat [show bitpix; "-bit integers"].

(** The extents [naxes] that the library reported for [rank] axes pass
    validation and allocation: the container gets the extents [extents],
    those of the library converted to [int], and [n] elements. *)
Inductive admitted : Z -> Z * Z -> list Z -> Z -> Prop :=
| admitted_1d x rest :
    1 <= x < INT_MAX ->
    admitted 1 (x, rest) [x] x
| admitted_2d x y :
    1 <= x -> 1 <= y -> mul_int64 x y < INT_MAX ->
    valid_extents [to_int x; to_int y] = true ->
    admitted 2 (x, y) [to_int x; to_int y] (to_int x * to_int y).

(** The extents [naxes] do not pass validation, which prints [diag]. *)
Inductive rejected : Z -> Z * Z -> list event -> Prop :=
| rejected_small_1d x rest :
    x < 1 -> rejected 1 (x, rest) (too_small_1d x)
| rejected_large_1d x rest :
    INT_MAX <= x -> rejected 1 (x, rest) (too_large_1d x)
| rejected_small_2d x y :
    x < 1 \/ y < 1 -> rejected 2 (x, y) (too_small_2d x y)
| rejected_large_2d x y :
    1 <= x -> 1 <= y -> INT_MAX <= mul_int64 x y ->
    rejected 2 (x, y) (too_large_2d x y).

(** The load of the source of [settings], started in [w], has come to the
    world [wk] with every status zero so far, and its next step is the
    library call [c]. *)
Inductive pending (settings : Settings) (w : World) : call -> World -> Prop :=
| pending_open :
    pending settings w (open_file (source settings) READONLY) w
| pending_hdu_type fs1 f :
    ffopen (fits w) (source settings) READONLY 0 = (fs1, (f, 0)) ->
    pending settings w (get_hdu_type f)
      (mkWorld fs1 (trace w ++ [Call (open_file (source settings) READONLY) 0]))
| pending_img_type f w2 :
    opens_as w (source settings) f IMAGE_HDU w2 ->
    pending settings w (get_img_type f) w2
| pending_img_dim f T w2 w3 :
    opens_as w (source settings) f IMAGE_HDU w2 ->
    probes_precision w2 f (get_fits_bitpix T) w3 ->
    pending settings w (get_img_dim f) w3
| pending_img_size f T rank w2 w3 w4 :
    opens_as w (source settings) f IMAGE_HDU w2 ->
    probes_precision w2 f (get_fits_bitpix T) w3 ->
    probes_rank w3 f rank w4 ->
    rank = 1 \/ rank = 2 ->
    pending settings w (get_img_size f rank) w4
| pending_read f T rank naxes w4 fs5 extents n :
    describes w (source settings) f T rank naxes w4 fs5 ->
    admitted rank naxes extents n ->
    pending settings w (read_img f (get_fits_type T) 1 n (quiet_NaN T))
      (mkWorld fs5 (trace w4 ++ [Call (get_img_size f rank) 0; New n]))
| pending_close f T rank naxes w4 fs5 extents n fs6 data anynul :
    describes w (source settings) f T rank naxes w4 fs5 ->
    admitted rank naxes extents n ->
    ffgpv fs5 f (get_fits_type T) 1 n (quiet_NaN T) 0
      = (fs6, ((data, anynul), 0)) ->
    pending settings w (close_file f)
      (mkWorld fs6
         (trace w4 ++
          [Call (get_img_size f rank) 0; New n;
           Call (read_img f (get_fits_type T) 1 n (quiet_NaN T)) 0])).

(** The fatal paths of a load: the load of the source of [settings],
    started in [w], ends the process by [t] in the world [w'].  There are
    six: the library returns a non-zero status to the pending call, which is
    reported; the first unit is not an image; the storage tag is neither of
    the two supported ones; the axis count is neither 1 nor 2; the extents
    do not pass validation; the allocation refuses the extents that passed
    it. *)
Inductive fatal_load (settings : Settings) (w : World)
  : termination -> World -> Prop :=
| io_failure c wk fs' s :
    pending settings w c wk ->
    perform (fits wk) c = (fs', s) ->
    s <> 0 ->
    fatal_load settings w (Exit EXIT_FAILURE)
      (reported s (mkWorld fs' (trace wk ++ [Call c s])))
| structural_mismatch f hdutype w2 :
    opens_as w (source settings) f hdutype w2 ->
    hdutype <> IMAGE_HDU ->
    fatal_load settings w (Exit EXIT_FAILURE)
      (extend w2 (not_an_image (unit_name hdutype)))
| unsupported_precision f w2 bitpix w3 :
    opens_as w (source settings) f IMAGE_HDU w2 ->
    probes_precision w2 f bitpix w3 ->
    bitpix <> FLOAT_IMG ->
    bitpix <> DOUBLE_IMG ->
    fatal_load settings w (Exit EXIT_FAILURE)
      (extend w3 (unexpected_data_type (tag_name bitpix)))
| unsupported_rank f T w2 w3 naxis w4 :
    opens_as w (source settings) f IMAGE_HDU w2 ->
    probes_precision w2 f (get_fits_bitpix T) w3 ->
    probes_rank w3 f naxis w4 ->
    naxis <> 1 ->
    naxis <> 2 ->
    fatal_load settings w (Exit EXIT_FAILURE)
      (extend w4 (unexpected_rank naxis))
| dimension_violation f T rank naxes w4 fs5 diag :
    describes w (source settings) f T rank naxes w4 fs5 ->
    rejected rank naxes diag ->
    fatal_load settings w (Exit EXIT_FAILURE)
      (mkWorld fs5 (trace w4 ++ Call (get_img_size f rank) 0 :: diag))
| allocation_refused f T x y w4 fs5 :
    describes w (source settings) f T 2 (x, y) w4 fs5 ->
    1 <= x -> 1 <= y -> mul_int64 x y < INT_MAX ->
    valid_extents [to_int x; to_int y] = false ->
    fatal_load settings w Abort
      (mkWorld fs5
         (trace w4 ++ [Call (get_img_size f 2) 0; Cerr alloc_refused])).

(** The driver that a load returns in the world [w']: the library described
    the file as an image of the driver's precision and rank, the extents it
    reported were admitted and are the container's, the one read of the whole
    buffer and the close were served, and the driver owns the caller's
    settings and the buffer filled with what was read.  The events of the run
    are the seven calls in their order, each with status zero. *)
Definition loads (settings : Settings) (w : World) (d : VDriver) (w' : World)
  : Prop :=
  exists f naxes w4 fs5 data,
    describes w (source settings) f (driver_precision d) (driver_rank d)
      naxes w4 fs5 /\
    admitted (driver_rank d) naxes (driver_extents d) (driver_size d) /\
    serves_load fs5 f (driver_precision d) (driver_size d) data (fits w') /\
    driver_settings d = settings /\
    driver_buffer d = Some (filled (driver_size d) data) /\
    trace w' =
      trace w ++ probe_events (source settings) f
              ++ load_events f (driver_precision d) (driver_rank d)
                   (driver_size d).

End Program.

Arguments Returned {FS A} _ _.
Arguments Terminated {FS A} _ _.

Notation "x <- m ;; k" := (bind m (fun x => k))
  (at level 61, m at next level, right associativity).
Notation "' pat <- m ;; k" := (bind m (fun x => match x with pat => k end))
  (at level 61, pat pattern, m at next level, right associativity).
Notation "m ;; k" := (bind m (fun _ => k))
  (at level 61, right associativity).

(** ** Runs on concrete files *)

Module Scenario.
Import MemFits.

Definition image_2x3 : hdu :=
  mkHdu IMAGE_HDU FLOAT_IMG [2; 3] [10; 20; 30; 40; 50; quiet_NaN float].
Definition line_4 : hdu := mkHdu IMAGE_HDU DOUBLE_IMG [4] [1; 2; 3; 4].
Definition ascii_table : hdu := mkHdu ASCII_TBL 8 [] [].
Definition binary_table : hdu := mkHdu BINARY_TBL 8 [] [].
Definition odd_unit : hdu := mkHdu 7 8 [] [].
Definition int16_image : hdu := mkHdu IMAGE_HDU 16 [2] [1; 2].
Definition half_image : hdu := mkHdu IMAGE_HDU (-16) [2] [1; 2].
Definition cube : hdu := mkHdu IMAGE_HDU FLOAT_IMG [2; 2; 2] [1; 2; 3; 4; 5; 6; 7; 8].
Definition no_axes : hdu := mkHdu IMAGE_HDU FLOAT_IMG [] [].
(** Extents of 2^62+1 each: values of [long] whose product does not fit
    [int64_t]. *)
Definition huge : hdu :=
  mkHdu IMAGE_HDU FLOAT_IMG [4611686018427387905; 4611686018427387905] [7].

Definition files : list (string * hdu) :=
  [("image.fits", image_2x3); ("line.fits", line_4);
   ("ascii.fits", ascii_table); ("binary.fits", binary_table);
   ("odd.fits", odd_unit); ("int16.fits", int16_image);
   ("half.fits", half_image); ("cube.fits", cube);
   ("none.fits", no_axes); ("huge.fits", huge)].

(** The world before anything ran, and the library state once [filename] is
    open under handle 1. *)
Definition w0 : World := mkWorld (with_files files) [].

Definition opened (filename : string) : state :=
  fst (mem_open (with_files files) filename READONLY 0).

Definition w_open (filename : string) : World :=
  mkWorld (opened filename)
    [Call (open_file filename READONLY) 0; Call (get_hdu_type 1) 0].

Definition w_typed (filename : string) : World :=
  extend (w_open filename) [Call (get_img_type 1) 0].

Definition w_ranked (filename : string) : World :=
  extend (w_typed filename) [Call (get_img_dim 1) 0].

Definition settings_for (filename : string) : Settings :=
  {| source := filename |}.

(** The world before anything ran when the library holds the one file
    [lone.fits]. *)
Definition w_lone (h : hdu) : World := mkWorld (with_files [("lone.fits", h)]) [].

(** The words [alloc()] prints in these runs before it aborts. *)
#[global] Instance header : Imageio_h :=
  {| alloc_refused := "alloc: container allocated or extents invalid" |}.

(** The outcome of a run without the library state: result or termination,
    and the trace. *)
Definition observe {A} (o : outcome (FS := state) A)
  : (A + termination) * list event :=
  match o with
  | Returned a w => (inl a, trace w)
  | Terminated t w => (inr t, trace w)
  end.

End Scenario.

Import Scenario.

(** * Facts *)

Section Facts.

Context {FS : Type} {lib : Cfitsio FS} {hdr : Imageio_h}.

(** Worlds and computations of this section are over [FS]. *)
Local Abbreviation World := (World (FS := FS)).
Local Abbreviation M := (M (FS := FS)).
Local Abbreviation follows := (follows (FS := FS)).
Implicit Types w : World.

(** ** Basic facts *)

Lemma store_length data buf : List.length (store data buf) = List.length buf.
Proof.
  revert data; induction buf as [|c buf IH]; intros [|d data]; simpl; auto.
Qed.

Lemma append_empty_r (s : string) : String.append s EmptyString = s.
Proof. induction s as [|c s IH]; simpl; [reflexivity | now rewrite IH]. Qed.

Lemma bind_returned {A B} (m : M A) (k : A -> M B) w a w1 :
  m w = Returned a w1 -> bind m k w = k a w1.
Proof. unfold bind; intros ->; reflexivity. Qed.

Lemma bind_terminated {A B} (m : M A) (k : A -> M B) w t w1 :
  m w = Terminated t w1 -> bind m k w = Terminated t w1.
Proof. unfold bind; intros ->; reflexivity. Qed.

Lemma fcheck_zero w : fcheck 0 w = Returned tt w.
Proof. reflexivity. Qed.

Lemma fcheck_nonzero s w :
  s <> 0 -> fcheck s w = Terminated (Exit EXIT_FAILURE) (reported s w).
Proof.
  intros Hs. unfold fcheck, when, reported.
  destruct (Z.eqb_spec s 0) as [|_]; [contradiction|]. simpl.
  unfold bind, fits_report_error. destruct (ffrprt (fits w) s); reflexivity.
Qed.

Lemma trace_reported s w :
  exists text, trace (reported s w) = trace w ++ [ReportError s text].
Proof.
  unfold reported. destruct (ffrprt (fits w) s) as [fs text].
  exists text; reflexivity.
Qed.

Lemma wrap_small bits z :
  0 < bits -> - 2 ^ (bits - 1) <= z < 2 ^ (bits - 1) -> wrap bits z = z.
Proof.
  intros Hb Hz. unfold wrap.
  assert (E : 2 ^ bits = 2 * 2 ^ (bits - 1)).
  { replace bits with (Z.succ (bits - 1)) at 1 by lia.
    apply Z.pow_succ_r; lia. }
  rewrite Z.mod_small; lia.
Qed.

Lemma to_int_small z : in_int z -> to_int z = z.
Proof. intros H. apply wrap_small; [lia | exact H]. Qed.

(** *** Traces *)

Lemma calls_of_app a b : calls_of (a ++ b) = calls_of a ++ calls_of b.
Proof.
  induction a as [|[] a IH]; simpl; auto. now rewrite IH.
Qed.

Lemma statuses_of_app a b : statuses_of (a ++ b) = statuses_of a ++ statuses_of b.
Proof.
  induction a as [|[] a IH]; simpl; auto. now rewrite IH.
Qed.

Lemma kinds_app a b : kinds (a ++ b) = kinds a ++ kinds b.
Proof. unfold kinds. now rewrite calls_of_app, map_app. Qed.

Lemma clean_app a b : clean a -> clean b -> clean (a ++ b).
Proof.
  unfold clean. rewrite statuses_of_app. intros; apply Forall_app; auto.
Qed.

Lemma clean_nil : clean [].
Proof. constructor. Qed.

Lemma fatal_app a t b : clean a -> fatal t b -> fatal t (a ++ b).
Proof.
  intros Ha Hb. destruct Hb as [pre c s text Hp Hs | pre text Hp | tr Htr].
  - rewrite app_assoc. constructor; auto using clean_app.
  - rewrite app_assoc. constructor; auto using clean_app.
  - constructor; auto using clean_app.
Qed.

Lemma prefix_of_nil {A} (plan : list A) : prefix_of [] plan.
Proof. now exists plan. Qed.

Lemma prefix_of_weaken {A} (l p1 p2 : list A) :
  prefix_of l p1 -> prefix_of l (p1 ++ p2).
Proof. intros [r ->]. exists (r ++ p2). now rewrite app_assoc. Qed.

Lemma prefix_of_app {A} (p1 l p2 : list A) :
  prefix_of l p2 -> prefix_of (p1 ++ l) (p1 ++ p2).
Proof. intros [r ->]. exists r. now rewrite app_assoc. Qed.

(** ** Rules for [follows] *)

Lemma follows_ret {A} (a : A) (Q : A -> Prop) : Q a -> follows (ret a) [] Q.
Proof.
  intros HQ w. exists []. simpl. rewrite app_nil_r.
  repeat split; auto using clean_nil.
Qed.

Lemma follows_bind {A B} (m : M A) (k : A -> M B) p1 p2 Q1 Q2 :
  follows m p1 Q1 ->
  (forall a, Q1 a -> follows (k a) p2 Q2) ->
  follows (bind m k) (p1 ++ p2) Q2.
Proof.
  intros Hm Hk w. destruct (Hm w) as (added1 & Htr1 & H1).
  unfold bind. destruct (m w) as [a w1 | t w1]; simpl in Htr1.
  - destruct H1 as (Hk1 & Hc1 & HQ1).
    destruct (Hk a HQ1 w1) as (added2 & Htr2 & H2).
    exists (added1 ++ added2). split.
    + rewrite Htr2, Htr1. apply eq_sym, app_assoc.
    + destruct (k a w1) as [b w2 | t w2].
      * destruct H2 as (Hk2 & Hc2 & HQ2).
        rewrite kinds_app, Hk1, Hk2. auto using clean_app.
      * destruct H2 as (Hp2 & Hf2). rewrite kinds_app, Hk1.
        auto using prefix_of_app, fatal_app.
  - exists added1. destruct H1 as (Hp1 & Hf1).
    auto using prefix_of_weaken.
Qed.

(** A library call whose status goes straight to [fcheck]. *)
Lemma follows_call {R B} (m : M R) kd status_of P (k : R -> M B) plan Q :
  is_call m kd status_of P ->
  (forall r w, status_of r <> 0 ->
     k r w = Terminated (Exit EXIT_FAILURE) (reported (status_of r) w)) ->
  (forall r, status_of r = 0 -> P r -> follows (k r) plan Q) ->
  follows (bind m k) (kd :: plan) Q.
Proof.
  intros Hm Hbad Hgood w. destruct (Hm w) as (fs & r & c & Hrun & Hkd & HP).
  rewrite (bind_returned _ _ _ _ _ Hrun).
  destruct (Z.eq_dec (status_of r) 0) as [Hz | Hnz].
  - destruct (Hgood r Hz HP (mkWorld fs (trace w ++ [Call c (status_of r)])))
      as (added & Htr & H).
    exists (Call c (status_of r) :: added). split.
    + rewrite Htr. simpl. now rewrite <- app_assoc.
    + destruct (k r _) as [b w2 | t w2].
      * destruct H as (Hk & Hc & HQ). unfold kinds in *. simpl.
        rewrite Hkd, Hk. repeat split; auto. constructor; auto.
      * destruct H as (Hp & Hf). split.
        -- unfold kinds in *. simpl. rewrite Hkd.
           apply (prefix_of_app [kd]), Hp.
        -- apply (fatal_app [Call c (status_of r)]); auto.
           constructor; [exact Hz | constructor].
  - rewrite (Hbad r _ Hnz).
    destruct (trace_reported (status_of r)
                (mkWorld fs (trace w ++ [Call c (status_of r)])))
      as (text & Htext).
    exists [Call c (status_of r); ReportError (status_of r) text]. split.
    + simpl. rewrite Htext. simpl. now rewrite <- app_assoc.
    + split.
      * unfold kinds. simpl. rewrite Hkd. exists plan. reflexivity.
      * apply (fatal_status []); auto using clean_nil.
Qed.


Lemma follows_fcheck_zero {A} (m : M A) plan Q :
  follows m plan Q -> follows (bind (fcheck 0) (fun _ => m)) plan Q.
Proof. intros H w. exact (H w). Qed.

Lemma follows_nil_bind {A B} (m : M A) (k : A -> M B) plan Q1 Q2 :
  follows m [] Q1 ->
  (forall a, Q1 a -> follows (k a) plan Q2) ->
  follows (bind m k) plan Q2.
Proof. intros Hm Hk. exact (follows_bind m k [] plan Q1 Q2 Hm Hk). Qed.

Lemma follows_diagnostic {A} parts plan (Q : A -> Prop) :
  follows (bind (cerr parts) (fun _ => exit EXIT_FAILURE)) plan Q.
Proof.
  intros w. exists [Cerr (cat parts)]. split; [reflexivity|].
  split; [apply prefix_of_nil | apply (fatal_diagnostic []), clean_nil].
Qed.

(** *** Each wrapper is one library call *)

Lemma is_call_open_file filename mode s :
  is_call (fits_open_file filename mode s) K_open_file snd (fun _ => True).
Proof.
  intros w. unfold fits_open_file.
  destruct (ffopen (fits w) filename mode s) as [fs [f s']].
  exists fs, (f, s'), (open_file filename mode). repeat split; eauto.
Qed.

Lemma is_call_get_hdu_type f s :
  is_call (fits_get_hdu_type f s) K_get_hdu_type snd (fun _ => True).
Proof.
  intros w. unfold fits_get_hdu_type.
  destruct (ffghdt (fits w) f s) as [fs [v s']].
  exists fs, (v, s'), (get_hdu_type f). repeat split; eauto.
Qed.

Lemma is_call_get_img_type f s :
  is_call (fits_get_img_type f s) K_get_img_type snd (fun _ => True).
Proof.
  intros w. unfold fits_get_img_type.
  destruct (ffgidt (fits w) f s) as [fs [v s']].
  exists fs, (v, s'), (get_img_type f). repeat split; eauto.
Qed.

Lemma is_call_get_img_dim f s :
  is_call (fits_get_img_dim f s) K_get_img_dim snd (fun _ => True).
Proof.
  intros w. unfold fits_get_img_dim.
  destruct (ffgidm (fits w) f s) as [fs [v s']].
  exists fs, (v, s'), (get_img_dim f). repeat split; eauto.
Qed.

Lemma is_call_get_img_size f nlen naxes s :
  is_call (fits_get_img_size f nlen naxes s) K_get_img_size snd (fun _ => True).
Proof.
  intros w. unfold fits_get_img_size.
  destruct (ffgisz (fits w) f nlen naxes s) as [fs [v s']].
  exists fs, (v, s'), (get_img_size f nlen). repeat split; eauto.
Qed.

Lemma is_call_read_img f datatype firstelem nelem nulval array s :
  is_call (fits_read_img f datatype firstelem nelem nulval array s)
    K_read_img snd
    (fun r => exists data, fst (fst r) = option_map (store data) array).
Proof.
  intros w. unfold fits_read_img.
  destruct (ffgpv (fits w) f datatype firstelem nelem nulval s)
    as [fs [[data anynul] s']].
  exists fs, (option_map (store data) array, anynul, s'),
    (read_img f datatype firstelem nelem nulval).
  split; [reflexivity | split; [reflexivity | exists data; reflexivity]].
Qed.

Lemma is_call_close_file f s :
  is_call (fits_close_file f s) K_close_file (fun s' => s') (fun _ => True).
Proof.
  intros w. unfold fits_close_file.
  destruct (ffclos (fits w) f s) as [fs s'].
  exists fs, s', (close_file f). repeat split; eauto.
Qed.

Lemma is_call_create_file filename s :
  is_call (fits_create_file filename s) K_create_file snd (fun _ => True).
Proof.
  intros w. unfold fits_create_file.
  destruct (ffinit (fits w) filename s) as [fs [f s']].
  exists fs, (f, s'), (create_file filename). repeat split; eauto.
Qed.

Lemma is_call_create_img f bitpix naxis naxes s :
  is_call (fits_create_img f bitpix naxis naxes s) K_create_img (fun s' => s') (fun _ => True).
Proof.
  intros w. unfold fits_create_img.
  destruct (ffcrim (fits w) f bitpix naxis naxes s) as [fs s'].
  exists fs, s', (create_img f bitpix naxis naxes). repeat split; eauto.
Qed.

Lemma is_call_write_imgnull f datatype firstelem nelem array nulval s :
  is_call (fits_write_imgnull f datatype firstelem nelem array nulval s)
    K_write_imgnull (fun s' => s') (fun _ => True).
Proof.
  intros w. unfold fits_write_imgnull.
  destruct (ffppn (fits w) f datatype firstelem nelem array nulval s) as [fs s'].
  exists fs, s', (write_imgnull f datatype firstelem nelem array nulval).
  repeat split; eauto.
Qed.

Create HintDb calls.
#[local] Hint Resolve is_call_open_file is_call_get_hdu_type is_call_get_img_type
  is_call_get_img_dim is_call_get_img_size is_call_read_img is_call_close_file
  is_call_create_file is_call_create_img is_call_write_imgnull : calls.

(** [checked_call]: the computation starts with a library call whose status
    goes to [fcheck]; what remains is the computation after both. *)
Ltac checked_call :=
  eapply follows_call;
  [ solve [auto with calls]
  | intros r w Hs;
    repeat match goal with p : (_ * _)%type |- _ => destruct p end;
    simpl in Hs |- *; apply bind_terminated, fcheck_nonzero, Hs
  | let HP := fresh "HP" in
    intros r Hs HP;
    repeat match goal with p : (_ * _)%type |- _ => destruct p end;
    simpl in Hs, HP; subst;
    try match type of HP with True => clear HP end;
    apply follows_fcheck_zero ].

(** *** The discipline, function by function *)

Ltac case_eqb c :=
  match goal with
  | |- context [?a =? c] => destruct (a =? c)
  end.

Ltac case_ltb c :=
  match goal with
  | |- context [?a <? c] => destruct (a <? c)
  end.

Ltac diagnosed3 :=
  eexists [Cerr _; Cerr _; Cerr _]; simpl;
  split;
  [ rewrite <- !app_assoc; reflexivity
  | split; [apply prefix_of_nil | apply (fatal_diagnostic [_; _]), clean_nil] ].

Ltac diagnosed :=
  eexists [Cerr _]; simpl;
  repeat split; [apply prefix_of_nil | apply (fatal_diagnostic []), clean_nil].

Ltac silent :=
  exists []; simpl; rewrite app_nil_r; repeat split; apply clean_nil.

Lemma verify_dim_2d_follows naxes :
  follows (verify_dim_2d naxes) [] (fun _ => True).
Proof.
  intros w. unfold verify_dim_2d, bind, when. cbv zeta.
  destruct ((fst naxes <? 1) || (snd naxes <? 1)); [diagnosed|].
  destruct (mul_int64 (fst naxes) (snd naxes) >=? INT_MAX);
    [diagnosed | silent].
Qed.

Lemma verify_dim_1d_follows naxes :
  follows (verify_dim_1d naxes) [] (fun _ => True).
Proof.
  intros w. unfold verify_dim_1d, bind, when. cbv zeta.
  destruct (fst naxes <? 1); [diagnosed|].
  destruct (fst naxes >=? INT_MAX); [diagnosed | silent].
Qed.

Lemma alloc_2d_follows {T} (img : Image2D.t T) :
  follows (alloc_2d img) []
    (fun img' =>
       img' = Image2D.with_p img
                (Some (repeat None (Z.to_nat (Image2D.size img)))) /\
       valid_extents [Image2D.x img; Image2D.y img] = true).
Proof.
  intros w. unfold alloc_2d.
  destruct (Image2D.p img).
  - exists [Cerr alloc_refused].
    split; [reflexivity | split; [apply prefix_of_nil | apply fatal_alloc, clean_nil]].
  - destruct (valid_extents _) eqn:Ev.
    + exists [New (Image2D.size img)]. simpl.
      repeat split; apply clean_nil.
    + exists [Cerr alloc_refused].
      split; [reflexivity | split; [apply prefix_of_nil | apply fatal_alloc, clean_nil]].
Qed.

Lemma alloc_1d_follows {T} (img : Image1D.t T) :
  follows (alloc_1d img) []
    (fun img' =>
       img' = Image1D.with_p img
                (Some (repeat None (Z.to_nat (Image1D.size img)))) /\
       valid_extents [Image1D.x img] = true).
Proof.
  intros w. unfold alloc_1d.
  destruct (Image1D.p img).
  - exists [Cerr alloc_refused].
    split; [reflexivity | split; [apply prefix_of_nil | apply fatal_alloc, clean_nil]].
  - destruct (valid_extents _) eqn:Ev.
    + exists [New (Image1D.size img)]. simpl.
      repeat split; apply clean_nil.
    + exists [Cerr alloc_refused].
      split; [reflexivity | split; [apply prefix_of_nil | apply fatal_alloc, clean_nil]].
Qed.

Lemma read_image_data_2d_follows T filename f :
  follows (read_image_data_2d T filename f)
    [K_get_img_size; K_read_img; K_close_file] loaded_2d.
Proof.
  unfold read_image_data_2d.
  checked_call.
  apply (follows_nil_bind _ _ _ _ _ (verify_dim_2d_follows _)). intros _ _.
  apply (follows_nil_bind _ _ _ _ _ (alloc_2d_follows _)). intros img [-> Hv].
  checked_call. destruct HP as [data ->].
  checked_call.
  apply follows_ret.
  eexists. simpl. split; [reflexivity|]. split; [|exact Hv].
  rewrite store_length, repeat_length. reflexivity.
Qed.

Lemma read_image_data_1d_follows T filename f :
  follows (read_image_data_1d T filename f)
    [K_get_img_size; K_read_img; K_close_file] loaded_1d.
Proof.
  unfold read_image_data_1d.
  checked_call.
  apply (follows_nil_bind _ _ _ _ _ (verify_dim_1d_follows _)). intros _ _.
  apply (follows_nil_bind _ _ _ _ _ (alloc_1d_follows _)). intros img [-> Hv].
  checked_call. destruct HP as [data ->].
  checked_call.
  apply follows_ret.
  eexists. simpl. split; [reflexivity|]. split; [|exact Hv].
  rewrite store_length, repeat_length. reflexivity.
Qed.

Lemma open_image_for_reading_follows filename :
  follows (open_image_for_reading filename)
    [K_open_file; K_get_hdu_type] (fun _ => True).
Proof.
  unfold open_image_for_reading.
  checked_call.
  checked_call.
  intros w. unfold bind, when.
  case_eqb IMAGE_HDU; simpl; [silent|].
  case_eqb ASCII_TBL; [|case_eqb BINARY_TBL]; diagnosed3.
Qed.

Lemma from_image_helper_follows T settings f :
  follows (from_image_helper T settings f)
    [K_get_img_dim; K_get_img_size; K_read_img; K_close_file]
    (driver_ok settings).
Proof.
  unfold from_image_helper.
  checked_call.
  case_eqb 1; [|case_eqb 2].
  - apply (follows_bind _ _ _ [] _ _ (read_image_data_1d_follows _ _ _)).
    intros img Himg. apply follows_ret. simpl. auto.
  - apply (follows_bind _ _ _ [] _ _ (read_image_data_2d_follows _ _ _)).
    intros img Himg. apply follows_ret. simpl. auto.
  - apply follows_diagnostic.
Qed.

Lemma from_image_follows settings :
  follows (from_image settings) load_plan (driver_ok settings).
Proof.
  unfold from_image.
  apply (follows_bind _ _ [K_open_file; K_get_hdu_type] _ _ _
           (open_image_for_reading_follows _)).
  intros f _.
  checked_call.
  case_eqb (get_fits_bitpix float); [apply from_image_helper_follows|].
  case_eqb (get_fits_bitpix double); [apply from_image_helper_follows|].
  intros w. unfold bind.
  case_ltb 0; diagnosed3.
Qed.

Lemma write_image_2d_follows T filename img :
  follows (write_image_2d T filename img) store_plan (fun _ => True).
Proof.
  unfold write_image_2d.
  checked_call. checked_call. checked_call.
  eapply follows_call; [solve [auto with calls] | |].
  - intros r w Hs. apply fcheck_nonzero, Hs.
  - intros r -> _. apply (follows_ret tt). exact I.
Qed.

Lemma write_image_1d_follows T filename img :
  follows (write_image_1d T filename img) store_plan (fun _ => True).
Proof.
  unfold write_image_1d.
  checked_call. checked_call. checked_call.
  eapply follows_call; [solve [auto with calls] | |].
  - intros r w Hs. apply fcheck_nonzero, Hs.
  - intros r -> _. apply (follows_ret tt). exact I.
Qed.

(** ** The dispatch facade *)

Lemma from_image_helper_precision T settings f w d w' :
  from_image_helper T settings f w = Returned d w' -> driver_precision d = T.
Proof.
  unfold from_image_helper, bind.
  destruct (fits_get_img_dim f 0 w) as [[naxis s] w1 | t w1]; [|discriminate].
  destruct (fcheck s w1) as [[] w2 | t w2]; [|discriminate].
  destruct (naxis =? 1); [|destruct (naxis =? 2)].
  - destruct (read_image_data_1d T (source settings) f w2); [|discriminate].
    unfold ret. intros [= <- _]. reflexivity.
  - destruct (read_image_data_2d T (source settings) f w2); [|discriminate].
    unfold ret. intros [= <- _]. reflexivity.
  - discriminate.
Qed.

Lemma open_image_for_reading_run w filename f hdutype w2 :
  opens_as w filename f hdutype w2 ->
  open_image_for_reading filename w =
    if hdutype =? IMAGE_HDU then Returned f w2
    else Terminated (Exit EXIT_FAILURE)
           (extend w2
              (not_an_image
                 (if hdutype =? ASCII_TBL then "ASCII_TBL"
                  else if hdutype =? BINARY_TBL then "BINARY_TBL"
                  else show hdutype))).
Proof.
  intros (fs1 & fs2 & Hopen & Hhdu & ->).
  unfold open_image_for_reading, bind, fits_open_file. rewrite Hopen. simpl.
  unfold fits_get_hdu_type. simpl. rewrite Hhdu. simpl.
  unfold when, extend, not_an_image, cerr, emit, exit, ret, log.
  destruct (hdutype =? IMAGE_HDU); simpl;
    [|destruct (hdutype =? ASCII_TBL); [|destruct (hdutype =? BINARY_TBL)]];
    simpl; rewrite <- ?app_assoc, ?append_empty_r; reflexivity.
Qed.

(** C6: when the first unit of the file is a table, opening terminates the
    process with [EXIT_FAILURE] after a diagnostic naming the table kind,
    and the library is not called again after the unit type was read; when
    it is an image, the open handle is returned. *)
Theorem open_image_for_reading_gate w filename f hdutype w2 :
  opens_as w filename f hdutype w2 ->
  (hdutype = IMAGE_HDU ->
     open_image_for_reading filename w = Returned f w2) /\
  (hdutype = ASCII_TBL ->
     open_image_for_reading filename w =
       Terminated (Exit EXIT_FAILURE) (extend w2 (not_an_image "ASCII_TBL"))) /\
  (hdutype = BINARY_TBL ->
     open_image_for_reading filename w =
       Terminated (Exit EXIT_FAILURE) (extend w2 (not_an_image "BINARY_TBL"))) /\
  calls_of (not_an_image "ASCII_TBL") = [] /\
  calls_of (not_an_image "BINARY_TBL") = [] /\
  stderr_of (not_an_image "ASCII_TBL")
    = cat ["expected IMAGE_HDU, got ASCII_TBL"; endl] /\
  stderr_of (not_an_image "BINARY_TBL")
    = cat ["expected IMAGE_HDU, got BINARY_TBL"; endl].
Proof.
  intros H. rewrite (open_image_for_reading_run _ _ _ _ _ H).
  repeat split; try reflexivity; intros ->; reflexivity.
Qed.

(** C10: when the first unit is neither an image nor one of the two table
    kinds, opening still terminates the process with [EXIT_FAILURE], and the
    diagnostic shows the numeric unit-type code. *)
Theorem open_image_for_reading_unknown_unit w filename f hdutype w2 :
  opens_as w filename f hdutype w2 ->
  hdutype <> IMAGE_HDU -> hdutype <> ASCII_TBL -> hdutype <> BINARY_TBL ->
  open_image_for_reading filename w =
    Terminated (Exit EXIT_FAILURE) (extend w2 (not_an_image (show hdutype))) /\
  stderr_of (not_an_image (show hdutype))
    = cat ["expected IMAGE_HDU, got "; show hdutype; endl].
Proof.
  intros H Himg Hascii Hbin. rewrite (open_image_for_reading_run _ _ _ _ _ H).
  destruct (Z.eqb_spec hdutype IMAGE_HDU); [contradiction|].
  destruct (Z.eqb_spec hdutype ASCII_TBL); [contradiction|].
  destruct (Z.eqb_spec hdutype BINARY_TBL); [contradiction|].
  split; reflexivity.
Qed.

Lemma neg_int_exact bitpix :
  in_int bitpix -> bitpix <> INT_MIN -> neg_int bitpix = - bitpix.
Proof.
  unfold in_int, INT_MIN, neg_int. intros H Hmin.
  apply wrap_small; lia.
Qed.

Lemma from_image_run settings w f w1 bitpix w2 :
  open_image_for_reading (source settings) w = Returned f w1 ->
  probes_precision w1 f bitpix w2 ->
  from_image settings w =
    if bitpix =? FLOAT_IMG then from_image_helper float settings f w2
    else if bitpix =? DOUBLE_IMG then from_image_helper double settings f w2
    else Terminated (Exit EXIT_FAILURE)
           (extend w2
              (unexpected_data_type
                 (if bitpix <? 0 then cat [show (neg_int bitpix); "-bit floats"]
                  else cat [show bitpix; "-bit integers"]))).
Proof.
  intros Hopen (fs2 & Htag & ->).
  unfold from_image. rewrite (bind_returned _ _ _ _ _ Hopen).
  unfold bind, fits_get_img_type. rewrite Htag. simpl.
  destruct (bitpix =? FLOAT_IMG); [reflexivity|].
  destruct (bitpix =? DOUBLE_IMG); [reflexivity|].
  unfold extend, unexpected_data_type, cerr, emit, exit, log.
  destruct (bitpix <? 0); simpl; rewrite <- ?app_assoc; reflexivity.
Qed.

(** C4: once the file is open and its storage tag was read, [from_image]
    continues with the [float] instantiation when the tag is [FLOAT_IMG] and
    with the [double] instantiation when it is [DOUBLE_IMG], and a returned
    driver has that precision; for any other tag the process terminates with
    [EXIT_FAILURE] after the diagnostic "N-bit floats", N the negated tag,
    when the tag is negative, and "N-bit integers" when it is not.  The
    negation is the one of [int]; it is the mathematical one for every tag
    but [INT_MIN]. *)
Theorem from_image_precision_dispatch settings w f w1 bitpix w2 :
  open_image_for_reading (source settings) w = Returned f w1 ->
  probes_precision w1 f bitpix w2 ->
  (bitpix = FLOAT_IMG ->
     from_image settings w = from_image_helper float settings f w2) /\
  (bitpix = DOUBLE_IMG ->
     from_image settings w = from_image_helper double settings f w2) /\
  (bitpix <> FLOAT_IMG -> bitpix <> DOUBLE_IMG -> bitpix < 0 ->
     from_image settings w =
       Terminated (Exit EXIT_FAILURE)
         (extend w2
            (unexpected_data_type (cat [show (neg_int bitpix); "-bit floats"])))) /\
  (0 <= bitpix ->
     from_image settings w =
       Terminated (Exit EXIT_FAILURE)
         (extend w2
            (unexpected_data_type (cat [show bitpix; "-bit integers"])))) /\
  (forall d w', from_image settings w = Returned d w' ->
     (bitpix = FLOAT_IMG /\ driver_precision d = float) \/
     (bitpix = DOUBLE_IMG /\ driver_precision d = double)) /\
  (in_int bitpix -> bitpix <> INT_MIN -> neg_int bitpix = - bitpix).
Proof.
  intros Hopen Htag. rewrite (from_image_run _ _ _ _ _ _ Hopen Htag).
  repeat split.
  - intros ->. reflexivity.
  - intros ->. reflexivity.
  - intros Hf Hd Hneg.
    destruct (Z.eqb_spec bitpix FLOAT_IMG); [contradiction|].
    destruct (Z.eqb_spec bitpix DOUBLE_IMG); [contradiction|].
    destruct (Z.ltb_spec bitpix 0); [reflexivity | lia].
  - intros Hpos.
    destruct (Z.eqb_spec bitpix FLOAT_IMG) as [E|_];
      [unfold FLOAT_IMG in E; lia|].
    destruct (Z.eqb_spec bitpix DOUBLE_IMG) as [E|_];
      [unfold DOUBLE_IMG in E; lia|].
    destruct (Z.ltb_spec bitpix 0); [lia | reflexivity].
  - intros d w'.
    destruct (Z.eqb_spec bitpix FLOAT_IMG) as [E|_].
    { intros H. left. split; [exact E|].
      exact (from_image_helper_precision _ _ _ _ _ _ H). }
    destruct (Z.eqb_spec bitpix DOUBLE_IMG) as [E|_].
    { intros H. right. split; [exact E|].
      exact (from_image_helper_precision _ _ _ _ _ _ H). }
    discriminate.
  - apply neg_int_exact.
Qed.

Lemma from_image_helper_run T settings f w naxis w1 :
  probes_rank w f naxis w1 ->
  from_image_helper T settings f w =
    if naxis =? 1 then
      (img <- read_image_data_1d T (source settings) f;;
       ret (Driver_Image1D T settings img)) w1
    else if naxis =? 2 then
      (img <- read_image_data_2d T (source settings) f;;
       ret (Driver_Image2D T settings img)) w1
    else Terminated (Exit EXIT_FAILURE) (extend w1 (unexpected_rank naxis)).
Proof.
  intros (fs1 & Hdim & ->).
  unfold from_image_helper.
  unfold bind at 1. unfold fits_get_img_dim. rewrite Hdim.
  unfold bind at 1. simpl.
  destruct (naxis =? 1); [reflexivity|].
  destruct (naxis =? 2); [reflexivity|].
  reflexivity.
Qed.

Lemma from_image_helper_rank T settings f w naxis w1 d w' :
  probes_rank w f naxis w1 ->
  from_image_helper T settings f w = Returned d w' -> driver_rank d = naxis.
Proof.
  intros Hdim. rewrite (from_image_helper_run _ _ _ _ _ _ Hdim). unfold bind.
  destruct (Z.eqb_spec naxis 1) as [->|_]; [|destruct (Z.eqb_spec naxis 2) as [->|_]].
  - destruct (read_image_data_1d _ _ _ _); [|discriminate].
    unfold ret. intros [= <- _]. reflexivity.
  - destruct (read_image_data_2d _ _ _ _); [|discriminate].
    unfold ret. intros [= <- _]. reflexivity.
  - discriminate.
Qed.

(** C5: once the axis count was read, loading proceeds with the 1-D path when
    it is 1 and with the 2-D path when it is 2, and a returned driver has
    that rank; for every other count the process terminates with
    [EXIT_FAILURE] after a diagnostic that names the count. *)
Theorem from_image_helper_rank_dispatch T settings f w naxis w1 :
  probes_rank w f naxis w1 ->
  (naxis = 1 ->
     from_image_helper T settings f w =
       (img <- read_image_data_1d T (source settings) f;;
        ret (Driver_Image1D T settings img)) w1) /\
  (naxis = 2 ->
     from_image_helper T settings f w =
       (img <- read_image_data_2d T (source settings) f;;
        ret (Driver_Image2D T settings img)) w1) /\
  (naxis <> 1 -> naxis <> 2 ->
     from_image_helper T settings f w =
       Terminated (Exit EXIT_FAILURE) (extend w1 (unexpected_rank naxis))) /\
  (forall d w', from_image_helper T settings f w = Returned d w' ->
     driver_rank d = naxis) /\
  stderr_of (unexpected_rank naxis) =
    cat ["expected 1-dimensional or 2-dimensional data, got ";
         show naxis; "-dimensional data"; endl].
Proof.
  intros Hdim. repeat split.
  - intros ->. apply (from_image_helper_run _ _ _ _ _ _ Hdim).
  - intros ->. apply (from_image_helper_run _ _ _ _ _ _ Hdim).
  - intros H1 H2. rewrite (from_image_helper_run _ _ _ _ _ _ Hdim).
    destruct (Z.eqb_spec naxis 1); [contradiction|].
    destruct (Z.eqb_spec naxis 2); [contradiction|]. reflexivity.
  - intros d w' H. exact (from_image_helper_rank _ _ _ _ _ _ _ _ Hdim H).
  - unfold unexpected_rank. cbn [stderr_of]. apply append_empty_r.
Qed.

(** ** Dimension validation *)

Lemma verify_dim_2d_run naxes w :
  verify_dim_2d naxes w =
    if (fst naxes <? 1) || (snd naxes <? 1) then
      Terminated (Exit EXIT_FAILURE)
        (extend w (too_small_2d (fst naxes) (snd naxes)))
    else if mul_int64 (fst naxes) (snd naxes) >=? INT_MAX then
      Terminated (Exit EXIT_FAILURE)
        (extend w (too_large_2d (fst naxes) (snd naxes)))
    else Returned tt w.
Proof.
  unfold verify_dim_2d, bind, when. cbv zeta.
  destruct ((fst naxes <? 1) || (snd naxes <? 1)); [reflexivity|].
  destruct (mul_int64 (fst naxes) (snd naxes) >=? INT_MAX); reflexivity.
Qed.

Lemma verify_dim_1d_run naxes w :
  verify_dim_1d naxes w =
    if fst naxes <? 1 then
      Terminated (Exit EXIT_FAILURE) (extend w (too_small_1d (fst naxes)))
    else if fst naxes >=? INT_MAX then
      Terminated (Exit EXIT_FAILURE) (extend w (too_large_1d (fst naxes)))
    else Returned tt w.
Proof.
  unfold verify_dim_1d, bind, when. cbv zeta.
  destruct (fst naxes <? 1); [reflexivity|].
  destruct (fst naxes >=? INT_MAX); reflexivity.
Qed.

(** The 1-D gate is exact: fatal if and only if the extent is below 1 (too
    small) or at least [INT_MAX] (too large). *)
Lemma verify_dim_1d_exact x rest w :
  (x < 1 ->
     verify_dim_1d (x, rest) w =
       Terminated (Exit EXIT_FAILURE) (extend w (too_small_1d x))) /\
  (1 <= x -> INT_MAX <= x ->
     verify_dim_1d (x, rest) w =
       Terminated (Exit EXIT_FAILURE) (extend w (too_large_1d x))) /\
  (1 <= x < INT_MAX -> verify_dim_1d (x, rest) w = Returned tt w).
Proof.
  rewrite verify_dim_1d_run. simpl.
  destruct (Z.ltb_spec x 1); destruct (Z.geb_spec x INT_MAX);
    repeat split; intros; try reflexivity; lia.
Qed.

Lemma mul_int64_exact x y : in_long (x * y) -> mul_int64 x y = x * y.
Proof. intros H. apply wrap_small; [lia | exact H]. Qed.

(** The 2-D gate is exact as long as the product of the extents fits
    [int64_t]. *)
Lemma verify_dim_2d_exact x y w :
  in_long (x * y) ->
  (x < 1 \/ y < 1 ->
     verify_dim_2d (x, y) w =
       Terminated (Exit EXIT_FAILURE) (extend w (too_small_2d x y))) /\
  (1 <= x -> 1 <= y -> INT_MAX <= x * y ->
     verify_dim_2d (x, y) w =
       Terminated (Exit EXIT_FAILURE) (extend w (too_large_2d x y))) /\
  (1 <= x -> 1 <= y -> x * y < INT_MAX ->
     verify_dim_2d (x, y) w = Returned tt w).
Proof.
  intros Hxy. rewrite verify_dim_2d_run. simpl.
  rewrite (mul_int64_exact _ _ Hxy).
  destruct (Z.ltb_spec x 1); destruct (Z.ltb_spec y 1);
    destruct (Z.geb_spec (x * y) INT_MAX); simpl;
    repeat split; intros; try reflexivity; lia.
Qed.

(** C2, where the code departs from it: two extents of 2^32 are values of
    [long], their product 2^64 is far above [INT_MAX], yet the product the
    code compares wraps to 0 in [int64_t] and validation returns as if the
    shape were acceptable. *)
Theorem verify_dim_2d_accepts_overflowing_product w :
  in_long 4294967296 /\
  INT_MAX <= 4294967296 * 4294967296 /\
  mul_int64 4294967296 4294967296 = 0 /\
  verify_dim_2d (4294967296, 4294967296) w = Returned tt w.
Proof.
  repeat split; try reflexivity; unfold INT_MAX; lia.
Qed.

(** ** The load helpers *)

Lemma bind_inv {A B} (m : M A) (k : A -> M B) w b w' :
  bind m k w = Returned b w' ->
  exists a w1, m w = Returned a w1 /\ k a w1 = Returned b w'.
Proof.
  unfold bind. destruct (m w) as [a w1 | t w1]; [|discriminate].
  intros H. exists a, w1. auto.
Qed.

Lemma fcheck_inv s w u w' : fcheck s w = Returned u w' -> s = 0 /\ w' = w.
Proof.
  destruct (Z.eq_dec s 0) as [-> | Hs].
  - rewrite fcheck_zero. intros [= _ <-]. auto.
  - rewrite (fcheck_nonzero _ _ Hs). discriminate.
Qed.

Lemma verify_dim_2d_inv naxes w u w' :
  verify_dim_2d naxes w = Returned u w' ->
  w' = w /\ 1 <= fst naxes /\ 1 <= snd naxes /\
  mul_int64 (fst naxes) (snd naxes) < INT_MAX.
Proof.
  rewrite verify_dim_2d_run.
  destruct (Z.ltb_spec (fst naxes) 1); [discriminate|].
  destruct (Z.ltb_spec (snd naxes) 1); [discriminate|]. simpl.
  destruct (Z.geb_spec (mul_int64 (fst naxes) (snd naxes)) INT_MAX);
    [discriminate|].
  intros [= _ <-]. repeat split; lia.
Qed.

Lemma verify_dim_1d_inv naxes w u w' :
  verify_dim_1d naxes w = Returned u w' ->
  w' = w /\ 1 <= fst naxes < INT_MAX.
Proof.
  rewrite verify_dim_1d_run.
  destruct (Z.ltb_spec (fst naxes) 1); [discriminate|].
  destruct (Z.geb_spec (fst naxes) INT_MAX); [discriminate|].
  intros [= _ <-]. repeat split; lia.
Qed.

Lemma alloc_2d_inv {T} (img img' : Image2D.t T) w w' :
  alloc_2d img w = Returned img' w' ->
  valid_extents [Image2D.x img; Image2D.y img] = true /\
  img' = Image2D.with_p img
           (Some (repeat None (Z.to_nat (Image2D.size img)))) /\
  w' = log (New (Image2D.size img)) w.
Proof.
  unfold alloc_2d. destruct (Image2D.p img); [discriminate|].
  destruct (valid_extents _); [|discriminate].
  unfold bind, emit, ret. intros [= <- <-]. auto.
Qed.

Lemma alloc_1d_inv {T} (img img' : Image1D.t T) w w' :
  alloc_1d img w = Returned img' w' ->
  valid_extents [Image1D.x img] = true /\
  img' = Image1D.with_p img
           (Some (repeat None (Z.to_nat (Image1D.size img)))) /\
  w' = log (New (Image1D.size img)) w.
Proof.
  unfold alloc_1d. destruct (Image1D.p img); [discriminate|].
  destruct (valid_extents _); [|discriminate].
  unfold bind, emit, ret. intros [= <- <-]. auto.
Qed.

(** [invert_bind H]: [H] says that a sequence returned; so did its first
    computation. *)
Ltac invert_bind H :=
  let a := fresh "a" in
  let w1 := fresh "w" in
  let H1 := fresh "Hrun" in
  apply bind_inv in H; destruct H as (a & w1 & H1 & H).

Ltac invert_fcheck H :=
  let u := fresh "u" in
  let w1 := fresh "w" in
  let H1 := fresh "Hck" in
  let Hs := fresh "Hs" in
  let Hw := fresh "Hw" in
  apply bind_inv in H; destruct H as (u & w1 & H1 & H);
  apply fcheck_inv in H1; destruct H1 as [Hs Hw]; subst.

(** What a successful 1-D load did, step by step: one size query, one
    allocation of the probed extent, one read of the whole buffer with the
    quiet NaN of [T] as the null value, and the close as the last call.  The
    container and the final world do not depend on [anynul]. *)
Lemma read_image_data_1d_returned T filename f w img w' :
  read_image_data_1d T filename f w = Returned img w' ->
  exists fs1 x rest fs2 data anynul fs3,
    ffgisz (fits w) f 1 (0, 0) 0 = (fs1, ((x, rest), 0)) /\
    1 <= x < INT_MAX /\
    ffgpv fs1 f (get_fits_type T) 1 x (quiet_NaN T) 0
      = (fs2, ((data, anynul), 0)) /\
    ffclos fs2 f 0 = (fs3, 0) /\
    img = Image1D.mk x (Some (store data (repeat None (Z.to_nat x)))) /\
    w' = mkWorld fs3
           (trace w ++
            [Call (get_img_size f 1) 0;
             New x;
             Call (read_img f (get_fits_type T) 1 x (quiet_NaN T)) 0;
             Call (close_file f) 0]).
Proof.
  unfold read_image_data_1d. intros H.
  invert_bind H. destruct a as [[x rest] s].
  unfold fits_get_img_size in Hrun.
  destruct (ffgisz (fits w) f 1 (0, 0) 0) as [fs1 [naxes s1]] eqn:Esize.
  injection Hrun as -> -> <-.
  invert_fcheck H.
  invert_bind H. apply verify_dim_1d_inv in Hrun. simpl in Hrun.
  destruct Hrun as [-> Hx].
  assert (Ex : to_int x = x).
  { apply to_int_small. unfold in_int, INT_MAX in *. lia. }
  cbn [fst snd] in H. rewrite Ex in H.
  invert_bind H. apply alloc_1d_inv in Hrun. destruct Hrun as (_ & -> & ->).
  invert_bind H. destruct a0 as [[array anynul] s].
  unfold fits_read_img in Hrun. simpl in Hrun.
  destruct (ffgpv fs1 f (get_fits_type T) 1 x (quiet_NaN T) 0)
    as [fs2 [[data anynul'] s2]] eqn:Eread.
  injection Hrun as <- -> -> <-.
  invert_fcheck H.
  invert_bind H. unfold fits_close_file in Hrun. simpl in Hrun.
  destruct (ffclos fs2 f 0) as [fs3 s3] eqn:Eclose.
  injection Hrun as -> <-.
  invert_fcheck H. unfold ret in H. injection H as <- <-.
  exists fs1, x, rest, fs2, data, anynul, fs3.
  repeat split; try lia; try assumption.
  unfold log. simpl. rewrite <- !app_assoc. reflexivity.
Qed.

(** What a successful 2-D load did.  The container takes the probed extents
    converted to [int]; it has the probed shape whenever they are values of
    [int]. *)
Lemma read_image_data_2d_returned T filename f w img w' :
  read_image_data_2d T filename f w = Returned img w' ->
  exists fs1 nx ny fs2 data anynul fs3,
    ffgisz (fits w) f 2 (0, 0) 0 = (fs1, ((nx, ny), 0)) /\
    1 <= nx /\ 1 <= ny /\ mul_int64 nx ny < INT_MAX /\
    let x := to_int nx in
    let y := to_int ny in
    ffgpv fs1 f (get_fits_type T) 1 (x * y) (quiet_NaN T) 0
      = (fs2, ((data, anynul), 0)) /\
    ffclos fs2 f 0 = (fs3, 0) /\
    img = Image2D.mk x y (Some (store data (repeat None (Z.to_nat (x * y))))) /\
    w' = mkWorld fs3
           (trace w ++
            [Call (get_img_size f 2) 0;
             New (x * y);
             Call (read_img f (get_fits_type T) 1 (x * y) (quiet_NaN T)) 0;
             Call (close_file f) 0]) /\
    (in_int nx -> in_int ny -> x = nx /\ y = ny).
Proof.
  unfold read_image_data_2d. intros H.
  invert_bind H. destruct a as [[nx ny] s].
  unfold fits_get_img_size in Hrun.
  destruct (ffgisz (fits w) f 2 (0, 0) 0) as [fs1 [naxes s1]] eqn:Esize.
  injection Hrun as -> -> <-.
  invert_fcheck H.
  invert_bind H. apply verify_dim_2d_inv in Hrun. simpl in Hrun.
  destruct Hrun as (-> & Hx & Hy & Hxy).
  cbn [fst snd] in H.
  invert_bind H. apply alloc_2d_inv in Hrun. destruct Hrun as (_ & -> & ->).
  invert_bind H. destruct a0 as [[array anynul] s].
  unfold fits_read_img in Hrun. simpl in Hrun.
  unfold Image2D.size in Hrun. simpl in Hrun.
  destruct (ffgpv fs1 f (get_fits_type T) 1 (to_int nx * to_int ny)
              (quiet_NaN T) 0) as [fs2 [[data anynul'] s2]] eqn:Eread.
  injection Hrun as <- -> -> <-.
  invert_fcheck H.
  invert_bind H. unfold fits_close_file in Hrun. simpl in Hrun.
  destruct (ffclos fs2 f 0) as [fs3 s3] eqn:Eclose.
  injection Hrun as -> <-.
  invert_fcheck H. unfold ret in H. injection H as <- <-.
  exists fs1, nx, ny, fs2, data, anynul, fs3.
  repeat split; try lia; try assumption.
  - unfold log. simpl. rewrite <- !app_assoc. reflexivity.
  - now apply to_int_small.
  - now apply to_int_small.
Qed.

(** The 2-D load on extents whose product overflows [int64_t]: whatever
    library reports 2^62+1 by 2^62+1, validation lets the shape through and
    the container is built 1x1, from the low 32 bits of each extent. *)
Lemma read_image_data_2d_wrapped_extents T filename f w fs1 fs2 fs3 data anynul :
  let n := 4611686018427387905 in
  ffgisz (fits w) f 2 (0, 0) 0 = (fs1, ((n, n), 0)) ->
  ffgpv fs1 f (get_fits_type T) 1 1 (quiet_NaN T) 0 = (fs2, ((data, anynul), 0)) ->
  ffclos fs2 f 0 = (fs3, 0) ->
  read_image_data_2d T filename f w =
    Returned (Image2D.mk 1 1 (Some (store data [None])))
      (mkWorld fs3
         (trace w ++
          [Call (get_img_size f 2) 0;
           New 1;
           Call (read_img f (get_fits_type T) 1 1 (quiet_NaN T)) 0;
           Call (close_file f) 0])).
Proof.
  intros n Hsize Hread Hclose.
  unfold read_image_data_2d.
  unfold bind at 1. unfold fits_get_img_size. rewrite Hsize.
  unfold bind at 1. rewrite fcheck_zero.
  unfold bind at 1. rewrite verify_dim_2d_run.
  change (to_int (fst (n, n))) with 1. change (to_int (snd (n, n))) with 1.
  change ((fst (n, n) <? 1) || (snd (n, n) <? 1)) with false.
  change (mul_int64 (fst (n, n)) (snd (n, n)) >=? INT_MAX) with false.
  cbv iota.
  unfold bind, alloc_2d, fits_read_img, fits_close_file, Image2D.size, log, ret.
  simpl. rewrite Hread. simpl. rewrite Hclose. simpl.
  rewrite <- !app_assoc. reflexivity.
Qed.

(** C9: the load helpers do not use their filename argument: with the same
    handle, any two filenames give the same computation, hence the same
    container, the same trace and the same final world from every world. *)
Theorem read_image_data_ignores_filename T filename1 filename2 f :
  read_image_data_2d T filename1 f = read_image_data_2d T filename2 f /\
  read_image_data_1d T filename1 f = read_image_data_1d T filename2 f.
Proof. split; reflexivity. Qed.

(** ** Status checking *)

Lemma clean_snoc_other pre e :
  clean pre -> statuses_of [e] = [] -> clean (pre ++ [e]).
Proof.
  intros Hpre He. apply clean_app; [exact Hpre|].
  unfold clean. rewrite He. constructor.
Qed.

Lemma follows_status_checked {A} (m : M A) plan Q :
  follows m plan Q -> status_checked m.
Proof.
  intros Hm w. destruct (Hm w) as (added & Htr & H). exists added.
  split; [exact Htr|].
  destruct (m w) as [a w' | t w']; [tauto|].
  destruct H as [_ Hf].
  destruct Hf as [pre c s text Hp Hs | pre text Hp | tr Htr'].
  - right. split; [reflexivity|]. exists pre, c, s, text. auto.
  - left. apply clean_snoc_other; auto.
  - left. exact Htr'.
Qed.

(** C8: [fcheck] does nothing on status zero; on any other status it has
    the library report the error and terminates the process with
    [EXIT_FAILURE].  Every library call of the three entry points goes
    through it, so none of them returns to its caller after a non-zero
    status. *)
Theorem fcheck_guards_every_status :
  (forall s w,
     fcheck s w =
       if s =? 0 then Returned tt w
       else Terminated (Exit EXIT_FAILURE) (reported s w)) /\
  (forall s w, exists text,
     trace (reported s w) = trace w ++ [ReportError s text]) /\
  (forall settings, status_checked (from_image settings)) /\
  (forall T filename img, status_checked (write_image_2d T filename img)) /\
  (forall T filename img, status_checked (write_image_1d T filename img)).
Proof.
  repeat split.
  - intros s w. destruct (Z.eqb_spec s 0) as [-> | Hs].
    + apply fcheck_zero.
    + apply fcheck_nonzero, Hs.
  - apply trace_reported.
  - intros settings. exact (follows_status_checked _ _ _ (from_image_follows settings)).
  - intros T filename img.
    exact (follows_status_checked _ _ _ (write_image_2d_follows T filename img)).
  - intros T filename img.
    exact (follows_status_checked _ _ _ (write_image_1d_follows T filename img)).
Qed.

(** * Further properties *)

(** ** The dimension gates, in full *)

(** X1: the 1-D gate decides on the first array slot alone.  It returns only
    for an extent in [1, INT_MAX), without printing anything, and such an
    extent converts to [int] unchanged; otherwise it exits with
    [EXIT_FAILURE], saying "too small" exactly for an extent below 1 and "too
    large" exactly for an extent of [INT_MAX] or more. *)
Theorem verify_dim_1d_gate x rest w :
  match verify_dim_1d (x, rest) w with
  | Returned _ w' => w' = w /\ 1 <= x < INT_MAX /\ to_int x = x
  | Terminated t w' =>
      t = Exit EXIT_FAILURE /\
      ((x < 1 /\ w' = extend w (too_small_1d x)) \/
       (INT_MAX <= x /\ w' = extend w (too_large_1d x)))
  end.
Proof.
  rewrite verify_dim_1d_run. cbn [fst].
  destruct (Z.ltb_spec x 1) as [Hs | Hs].
  - split; [reflexivity | left; auto].
  - destruct (Z.geb_spec x INT_MAX) as [Hl | Hl].
    + split; [reflexivity | right; split; [lia | reflexivity]].
    + repeat split; try lia.
      apply to_int_small. unfold in_int, INT_MAX in *. lia.
Qed.

(** X2: the 2-D gate tests the extents before their product.  It exits with
    "too small" exactly when some extent is below 1, whatever the product;
    with both extents at least 1 it exits with "too large" exactly when the
    product as computed in [int64_t] reaches [INT_MAX], and returns, printing
    nothing, otherwise.  Whenever the true product fits [int64_t] the computed
    product is the true one, and after a return both extents convert to [int]
    unchanged. *)
Theorem verify_dim_2d_gate x y w :
  match verify_dim_2d (x, y) w with
  | Returned _ w' =>
      w' = w /\ 1 <= x /\ 1 <= y /\ mul_int64 x y < INT_MAX /\
      (in_long (x * y) ->
         x * y < INT_MAX /\ to_int x = x /\ to_int y = y)
  | Terminated t w' =>
      t = Exit EXIT_FAILURE /\
      (((x < 1 \/ y < 1) /\ w' = extend w (too_small_2d x y)) \/
       (1 <= x /\ 1 <= y /\ INT_MAX <= mul_int64 x y /\
        w' = extend w (too_large_2d x y)))
  end /\
  (in_long (x * y) -> mul_int64 x y = x * y).
Proof.
  split; [|apply mul_int64_exact].
  rewrite verify_dim_2d_run. cbn [fst snd].
  destruct (Z.ltb_spec x 1) as [Hx | Hx]; cbn [orb].
  { split; [reflexivity | left; auto]. }
  destruct (Z.ltb_spec y 1) as [Hy | Hy].
  { split; [reflexivity | left; auto]. }
  destruct (Z.geb_spec (mul_int64 x y) INT_MAX) as [Hl | Hl].
  - split; [reflexivity | right; repeat split; lia].
  - repeat split; try lia.
    + rewrite <- (mul_int64_exact _ _ H). lia.
    + rewrite (mul_int64_exact _ _ H) in Hl.
      apply to_int_small. unfold in_int, INT_MAX in *. nia.
    + rewrite (mul_int64_exact _ _ H) in Hl.
      apply to_int_small. unfold in_int, INT_MAX in *. nia.
Qed.

(** ** What a successful load delivers *)

Lemma filled_length n data : List.length (filled n data) = Z.to_nat n.
Proof. unfold filled. now rewrite store_length, repeat_length. Qed.

Lemma store_repeat_full (n : nat) data :
  (n <= List.length data)%nat ->
  store data (repeat None n) = map Some (firstn n data).
Proof.
  revert data. induction n as [|n IH]; intros data Hn;
    [destruct data; reflexivity|].
  destruct data as [|d data]; simpl in Hn; [lia|].
  simpl. rewrite IH by lia. reflexivity.
Qed.

Lemma in_int_product_fits x y : in_int x -> in_int y -> in_long (x * y).
Proof. unfold in_int, in_long. intros Hx Hy. nia. Qed.

(** X3: a 1-D load that returns has asked the library for the size, got an
    extent in [1, INT_MAX), allocated exactly that many cells, read that many
    elements of type [T] from element 1 with the quiet NaN of [T] as null
    value, and closed the handle as its last call, all with status zero; it
    printed nothing.  The container has the probed extent; its cells hold what
    the library delivered, and all of them are defined when the library
    delivered as many values as were asked for. *)
Theorem read_image_data_1d_success T filename f w img w' :
  read_image_data_1d T filename f w = Returned img w' ->
  exists fs1 x rest data,
    ffgisz (fits w) f 1 (0, 0) 0 = (fs1, ((x, rest), 0)) /\
    1 <= x < INT_MAX /\
    serves_load fs1 f T x data (fits w') /\
    img = Image1D.mk x (Some (filled x data)) /\
    List.length (filled x data) = Z.to_nat x /\
    ((Z.to_nat x <= List.length data)%nat ->
       filled x data = map Some (firstn (Z.to_nat x) data)) /\
    trace w' = trace w ++ load_events f T 1 x /\
    stderr_of (load_events f T 1 x) = "".
Proof.
  intros H. apply read_image_data_1d_returned in H.
  destruct H as (fs1 & x & rest & fs2 & data & anynul & fs3 &
                 Hsize & Hx & Hread & Hclose & -> & ->).
  exists fs1, x, rest, data. repeat split; try assumption; try lia.
  - exists anynul, fs2. split; assumption.
  - apply filled_length.
  - apply store_repeat_full.
Qed.

(** X4: a 2-D load that returns, when the extents the library reported are
    values of [int]: both are at least 1, their product is below [INT_MAX],
    the container has exactly the reported shape and as many cells as the
    product, and the calls are the size query, one read of the whole buffer
    with the quiet NaN of [T] as null value, and the close, all with status
    zero and nothing printed. *)
Theorem read_image_data_2d_success T filename f w img w' fs1 nx ny s :
  read_image_data_2d T filename f w = Returned img w' ->
  ffgisz (fits w) f 2 (0, 0) 0 = (fs1, ((nx, ny), s)) ->
  in_int nx -> in_int ny ->
  s = 0 /\ 1 <= nx /\ 1 <= ny /\ nx * ny < INT_MAX /\
  exists data,
    serves_load fs1 f T (nx * ny) data (fits w') /\
    img = Image2D.mk nx ny (Some (filled (nx * ny) data)) /\
    List.length (filled (nx * ny) data) = Z.to_nat (nx * ny) /\
    ((Z.to_nat (nx * ny) <= List.length data)%nat ->
       filled (nx * ny) data = map Some (firstn (Z.to_nat (nx * ny)) data)) /\
    trace w' = trace w ++ load_events f T 2 (nx * ny) /\
    stderr_of (load_events f T 2 (nx * ny)) = "".
Proof.
  intros H Hsize Hnx Hny. apply read_image_data_2d_returned in H.
  destruct H as (fs1' & nx' & ny' & fs2 & data & anynul & fs3 &
                 Hsize' & Hx & Hy & Hxy & H).
  rewrite Hsize in Hsize'. injection Hsize' as <- <- <- ->.
  cbv zeta in H. destruct H as (Hread & Hclose & -> & -> & Hcast).
  destruct (Hcast Hnx Hny) as [Ex Ey]. rewrite Ex, Ey in *.
  rewrite (mul_int64_exact _ _ (in_int_product_fits _ _ Hnx Hny)) in Hxy.
  repeat split; try assumption.
  exists data. repeat split.
  - exists anynul, fs2. split; assumption.
  - apply filled_length.
  - apply store_repeat_full.
Qed.

(** ** Which files load *)

Lemma valid_extents_2d x y :
  1 <= x -> 1 <= y -> x * y < INT_MAX -> valid_extents [x; y] = true.
Proof.
  intros Hx Hy Hxy. unfold valid_extents. simpl. rewrite Z.mul_1_r.
  destruct (Z.leb_spec 1 x); [|lia]. destruct (Z.leb_spec 1 y); [|lia].
  destruct (Z.ltb_spec (x * y) INT_MAX); [reflexivity | lia].
Qed.

Lemma valid_extents_1d x : 1 <= x < INT_MAX -> valid_extents [x] = true.
Proof.
  intros Hx. unfold valid_extents. simpl. rewrite Z.mul_1_r.
  destruct (Z.leb_spec 1 x); [|lia].
  destruct (Z.ltb_spec x INT_MAX); [reflexivity | lia].
Qed.

Lemma read_image_data_2d_accepts T filename f w fs1 x y data fs3 :
  ffgisz (fits w) f 2 (0, 0) 0 = (fs1, ((x, y), 0)) ->
  1 <= x -> 1 <= y -> x * y < INT_MAX ->
  serves_load fs1 f T (x * y) data fs3 ->
  read_image_data_2d T filename f w =
    Returned (Image2D.mk x y (Some (filled (x * y) data)))
      (mkWorld fs3 (trace w ++ load_events f T 2 (x * y))).
Proof.
  intros Hsize Hx Hy Hxy (anynul & fs2 & Hread & Hclose).
  assert (Hfit : in_long (x * y)) by (unfold in_long, INT_MAX in *; nia).
  assert (Ex : to_int x = x).
  { apply to_int_small. unfold in_int, INT_MAX in *. nia. }
  assert (Ey : to_int y = y).
  { apply to_int_small. unfold in_int, INT_MAX in *. nia. }
  unfold read_image_data_2d.
  unfold bind at 1. unfold fits_get_img_size. rewrite Hsize.
  unfold bind at 1. rewrite fcheck_zero.
  unfold bind at 1.
  rewrite (proj2 (proj2 (verify_dim_2d_exact x y _ Hfit)) Hx Hy Hxy).
  cbn [fst snd]. rewrite Ex, Ey.
  unfold bind at 1. unfold alloc_2d. cbn [Image2D.make Image2D.p Image2D.x Image2D.y].
  rewrite (valid_extents_2d _ _ Hx Hy Hxy).
  unfold bind, emit, ret, fits_read_img, fits_close_file, Image2D.size, log.
  cbn [Image2D.make Image2D.with_p Image2D.p Image2D.x Image2D.y fits trace].
  rewrite Hread. simpl. rewrite Hclose. simpl.
  unfold load_events, filled. rewrite <- !app_assoc. reflexivity.
Qed.

Lemma read_image_data_1d_accepts T filename f w fs1 x rest data fs3 :
  ffgisz (fits w) f 1 (0, 0) 0 = (fs1, ((x, rest), 0)) ->
  1 <= x < INT_MAX ->
  serves_load fs1 f T x data fs3 ->
  read_image_data_1d T filename f w =
    Returned (Image1D.mk x (Some (filled x data)))
      (mkWorld fs3 (trace w ++ load_events f T 1 x)).
Proof.
  intros Hsize Hx (anynul & fs2 & Hread & Hclose).
  assert (Ex : to_int x = x).
  { apply to_int_small. unfold in_int, INT_MAX in *. lia. }
  unfold read_image_data_1d.
  unfold bind at 1. unfold fits_get_img_size. rewrite Hsize.
  unfold bind at 1. rewrite fcheck_zero.
  unfold bind at 1.
  rewrite (proj2 (proj2 (verify_dim_1d_exact x rest _)) Hx).
  cbn [fst snd]. rewrite Ex.
  unfold bind at 1. unfold alloc_1d. cbn [Image1D.make Image1D.p Image1D.x].
  rewrite (valid_extents_1d _ Hx).
  unfold bind, emit, ret, fits_read_img, fits_close_file, Image1D.size, log.
  cbn [Image1D.make Image1D.with_p Image1D.p Image1D.x fits trace].
  rewrite Hread. simpl. rewrite Hclose. simpl.
  unfold load_events, filled. rewrite <- !app_assoc. reflexivity.
Qed.

Lemma from_image_reaches_helper T settings w f w4 rank naxes fs5 :
  describes w (source settings) f T rank naxes w4 fs5 ->
  exists w3,
    probes_rank w3 f rank w4 /\
    from_image settings w = from_image_helper T settings f w3.
Proof.
  intros (w2 & w3 & Hopen & Htag & Hrank & _). exists w3. split; [exact Hrank|].
  pose proof (open_image_for_reading_run _ _ _ _ _ Hopen) as Ho.
  rewrite Z.eqb_refl in Ho.
  rewrite (from_image_run _ _ _ _ _ _ Ho Htag).
  destruct T; reflexivity.
Qed.

Lemma describes_trace w filename f T rank naxes w4 fs5 :
  describes w filename f T rank naxes w4 fs5 ->
  trace w4 = trace w ++ probe_events filename f.
Proof.
  intros (w2 & w3 & (fs1 & fs2 & _ & _ & ->) & (fs3 & _ & ->) & (fs4 & _ & ->) & _).
  unfold probe_events. simpl. rewrite <- !app_assoc. reflexivity.
Qed.

(** X6: every 2-D file of a supported precision loads.  When the library
    opens the file, reports an image unit, the storage tag of [T], two axes
    and extents of at least 1 whose product is below [INT_MAX], and then
    serves the read and the close, [from_image] returns the 2-D driver of
    precision [T] around a container of exactly the reported shape, holding
    what the library delivered; no other condition can make it refuse. *)
Theorem from_image_accepts_2d T settings w f x y w4 fs5 data fs7 :
  describes w (source settings) f T 2 (x, y) w4 fs5 ->
  1 <= x -> 1 <= y -> x * y < INT_MAX ->
  serves_load fs5 f T (x * y) data fs7 ->
  from_image settings w =
    Returned
      (Driver_Image2D T settings
         (Image2D.mk x y (Some (filled (x * y) data))))
      (mkWorld fs7
         (trace w ++ probe_events (source settings) f
                  ++ load_events f T 2 (x * y))).
Proof.
  intros Hd Hx Hy Hxy Hserve.
  pose proof (describes_trace _ _ _ _ _ _ _ _ Hd) as Htr.
  destruct (from_image_reaches_helper _ _ _ _ _ _ _ _ Hd) as (w3 & Hrank & ->).
  destruct Hd as (_ & _ & _ & _ & _ & Hsize).
  rewrite (from_image_helper_run _ _ _ _ _ _ Hrank). cbn [Z.eqb Pos.eqb].
  rewrite (bind_returned _ _ _ _ _
             (read_image_data_2d_accepts T (source settings) _ _ _ _ _ _ _
                Hsize Hx Hy Hxy Hserve)).
  unfold ret. rewrite Htr, <- app_assoc. reflexivity.
Qed.

(** X7: every 1-D file of a supported precision loads.  When the library
    opens the file, reports an image unit, the storage tag of [T], one axis
    and an extent in [1, INT_MAX), and then serves the read and the close,
    [from_image] returns the 1-D driver of precision [T] around a container
    of exactly the reported extent, holding what the library delivered. *)
Theorem from_image_accepts_1d T settings w f x rest w4 fs5 data fs7 :
  describes w (source settings) f T 1 (x, rest) w4 fs5 ->
  1 <= x < INT_MAX ->
  serves_load fs5 f T x data fs7 ->
  from_image settings w =
    Returned
      (Driver_Image1D T settings (Image1D.mk x (Some (filled x data))))
      (mkWorld fs7
         (trace w ++ probe_events (source settings) f ++ load_events f T 1 x)).
Proof.
  intros Hd Hx Hserve.
  pose proof (describes_trace _ _ _ _ _ _ _ _ Hd) as Htr.
  destruct (from_image_reaches_helper _ _ _ _ _ _ _ _ Hd) as (w3 & Hrank & ->).
  destruct Hd as (_ & _ & _ & _ & _ & Hsize).
  rewrite (from_image_helper_run _ _ _ _ _ _ Hrank). cbn [Z.eqb Pos.eqb].
  rewrite (bind_returned _ _ _ _ _
             (read_image_data_1d_accepts T (source settings) _ _ _ _ _ _ _
                Hsize Hx Hserve)).
  unfold ret. rewrite Htr, <- app_assoc. reflexivity.
Qed.

(** ** What a returned driver tells about the file *)

(** [invert_bind_as H a w1 H1]: as [invert_bind], with the names given. *)
Ltac invert_bind_as H a w1 H1 :=
  apply bind_inv in H; destruct H as (a & w1 & H1 & H).

Lemma open_image_for_reading_returned filename w f w2 :
  open_image_for_reading filename w = Returned f w2 ->
  opens_as w filename f IMAGE_HDU w2.
Proof.
  unfold open_image_for_reading. intros H.
  invert_bind_as H r1 w1 Hopen. destruct r1 as [f1 s].
  unfold fits_open_file in Hopen.
  destruct (ffopen (fits w) filename READONLY 0) as [fs1 [f1' s1]] eqn:Eopen.
  injection Hopen as -> -> <-.
  invert_fcheck H.
  invert_bind_as H r2 w2' Hhdu. destruct r2 as [hdutype s].
  unfold fits_get_hdu_type in Hhdu. simpl in Hhdu.
  destruct (ffghdt fs1 f1 0) as [fs2 [hdutype' s2]] eqn:Ehdu.
  injection Hhdu as -> -> <-.
  invert_fcheck H.
  invert_bind_as H u3 w3 Hgate.
  destruct (Z.eqb_spec hdutype IMAGE_HDU) as [-> | Hne].
  - simpl in Hgate. unfold ret in Hgate, H.
    injection Hgate as Hw. injection H as <- <-. subst w3.
    exists fs1, fs2. repeat split; try assumption.
    unfold log. simpl. rewrite <- !app_assoc. reflexivity.
  - exfalso. unfold when in Hgate.
    destruct (Z.eqb_spec hdutype IMAGE_HDU); [contradiction|].
    simpl in Hgate. unfold bind, cerr, emit, exit in Hgate.
    destruct (hdutype =? ASCII_TBL); [|destruct (hdutype =? BINARY_TBL)];
      discriminate.
Qed.

Lemma from_image_helper_returned T settings f w d w' :
  from_image_helper T settings f w = Returned d w' ->
  exists w4,
    probes_rank w f (driver_rank d) w4 /\
    ((exists img, d = Driver_Image1D T settings img /\
        read_image_data_1d T (source settings) f w4 = Returned img w') \/
     (exists img, d = Driver_Image2D T settings img /\
        read_image_data_2d T (source settings) f w4 = Returned img w')).
Proof.
  unfold from_image_helper. intros H.
  invert_bind_as H r1 w1 Hdim. destruct r1 as [naxis s].
  unfold fits_get_img_dim in Hdim.
  destruct (ffgidm (fits w) f 0) as [fs1 [naxis' s1]] eqn:Edim.
  injection Hdim as -> -> <-.
  invert_fcheck H.
  destruct (Z.eqb_spec naxis 1) as [-> | H1];
    [|destruct (Z.eqb_spec naxis 2) as [-> | H2]].
  - invert_bind_as H img w4 Hload. unfold ret in H. injection H as <- <-.
    eexists. split; [exists fs1; split; [exact Edim | reflexivity]|].
    left. exists img. split; [reflexivity | exact Hload].
  - invert_bind_as H img w4 Hload. unfold ret in H. injection H as <- <-.
    eexists. split; [exists fs1; split; [exact Edim | reflexivity]|].
    right. exists img. split; [reflexivity | exact Hload].
  - unfold bind, cerr, emit, exit in H. discriminate.
Qed.

Lemma from_image_returned settings w d w' :
  from_image settings w = Returned d w' ->
  exists T f w2 w3,
    opens_as w (source settings) f IMAGE_HDU w2 /\
    probes_precision w2 f (get_fits_bitpix T) w3 /\
    from_image_helper T settings f w3 = Returned d w'.
Proof.
  unfold from_image. intros H.
  invert_bind_as H f w2 Hopen.
  apply open_image_for_reading_returned in Hopen.
  invert_bind_as H r w3 Htag. destruct r as [bitpix s].
  unfold fits_get_img_type in Htag.
  destruct (ffgidt (fits w2) f 0) as [fs3 [bitpix' s3]] eqn:Etag.
  injection Htag as -> -> <-.
  invert_fcheck H.
  destruct (Z.eqb_spec bitpix (get_fits_bitpix float)) as [-> | Hf];
    [|destruct (Z.eqb_spec bitpix (get_fits_bitpix double)) as [-> | Hd]].
  - exists float, f, w2. eexists. split; [exact Hopen|].
    split; [exists fs3; split; [exact Etag | reflexivity] | exact H].
  - exists double, f, w2. eexists. split; [exact Hopen|].
    split; [exists fs3; split; [exact Etag | reflexivity] | exact H].
  - exfalso. unfold bind, cerr, emit, exit in H.
    destruct (bitpix <? 0); discriminate.
Qed.

(** X5: a returned driver tells what the file is.  Whenever [from_image]
    returns, the library had opened the source path, reported an image unit,
    the storage tag of exactly the driver's precision and an axis count equal
    to the driver's rank, and served one read of as many elements as the
    container holds, of the driver's precision, with its quiet NaN as null
    value.  Every call after the open went to the handle the open returned,
    the close was the last event, nothing was printed, and the driver owns the
    caller's settings. *)
Theorem from_image_success settings w d w' :
  from_image settings w = Returned d w' ->
  exists f naxes w4 fs5 data,
    describes w (source settings) f (driver_precision d) (driver_rank d)
      naxes w4 fs5 /\
    serves_load fs5 f (driver_precision d) (driver_size d) data (fits w') /\
    driver_settings d = settings /\
    driver_buffer d = Some (filled (driver_size d) data) /\
    trace w' =
      trace w ++ probe_events (source settings) f
              ++ load_events f (driver_precision d) (driver_rank d)
                   (driver_size d) /\
    stderr_of (probe_events (source settings) f
               ++ load_events f (driver_precision d) (driver_rank d)
                    (driver_size d)) = "".
Proof.
  intros H. apply from_image_returned in H.
  destruct H as (T & f & w2 & w3 & Hopen & Htag & H).
  apply from_image_helper_returned in H.
  destruct H as (w4 & Hrank & [(img & -> & H) | (img & -> & H)]).
  - apply read_image_data_1d_returned in H.
    destruct H as (fs5 & x & rest & fs6 & data & anynul & fs7 &
                   Hsize & Hx & Hread & Hclose & -> & ->).
    exists f, (x, rest), w4, fs5, data. simpl.
    assert (Hd : describes w (source settings) f T 1 (x, rest) w4 fs5).
    { exists w2, w3. auto. }
    repeat split; try assumption.
    + exists anynul, fs6. auto.
    + rewrite (describes_trace _ _ _ _ _ _ _ _ Hd), <- app_assoc. reflexivity.
  - apply read_image_data_2d_returned in H.
    destruct H as (fs5 & nx & ny & fs6 & data & anynul & fs7 &
                   Hsize & Hx & Hy & Hxy & H).
    cbv zeta in H. destruct H as (Hread & Hclose & -> & -> & _).
    exists f, (nx, ny), w4, fs5, data. simpl.
    assert (Hd : describes w (source settings) f T 2 (nx, ny) w4 fs5).
    { exists w2, w3. auto. }
    repeat split; try assumption.
    + exists anynul, fs6. auto.
    + rewrite (describes_trace _ _ _ _ _ _ _ _ Hd), <- app_assoc. reflexivity.
Qed.

(** ** Stores *)

Lemma write_image_2d_accepted T filename (img : Image2D.t T) w w' :
  accepts_store w filename T [Image2D.x img; Image2D.y img]
    (Image2D.size img) (Image2D.p img) w' ->
  write_image_2d T filename img w = Returned tt w'.
Proof.
  intros (f & fs1 & fs2 & fs3 & fs4 & Hinit & Hcrim & Hppn & Hclos & ->).
  simpl in Hcrim.
  unfold write_image_2d, bind, fits_create_file, fits_create_img,
    fits_write_imgnull, fits_close_file, log.
  rewrite Hinit. simpl. rewrite Hcrim. simpl. rewrite Hppn. simpl.
  rewrite Hclos. simpl. unfold store_events. simpl.
  rewrite <- !app_assoc. reflexivity.
Qed.

Lemma write_image_1d_accepted T filename (img : Image1D.t T) w w' :
  accepts_store w filename T [Image1D.x img]
    (Image1D.size img) (Image1D.p img) w' ->
  write_image_1d T filename img w = Returned tt w'.
Proof.
  intros (f & fs1 & fs2 & fs3 & fs4 & Hinit & Hcrim & Hppn & Hclos & ->).
  simpl in Hcrim.
  unfold write_image_1d, bind, fits_create_file, fits_create_img,
    fits_write_imgnull, fits_close_file, log.
  rewrite Hinit. simpl. rewrite Hcrim. simpl. rewrite Hppn. simpl.
  rewrite Hclos. simpl. unfold store_events. simpl.
  rewrite <- !app_assoc. reflexivity.
Qed.

Lemma write_image_2d_returned T filename (img : Image2D.t T) w u w' :
  write_image_2d T filename img w = Returned u w' ->
  accepts_store w filename T [Image2D.x img; Image2D.y img]
    (Image2D.size img) (Image2D.p img) w'.
Proof.
  unfold write_image_2d. intros H.
  invert_bind_as H r1 w1 Hinit. destruct r1 as [f s].
  unfold fits_create_file in Hinit.
  destruct (ffinit (fits w) filename 0) as [fs1 [f' s1]] eqn:Einit.
  injection Hinit as -> -> <-.
  invert_fcheck H.
  invert_bind_as H s2 w2 Hcrim. unfold fits_create_img in Hcrim.
  simpl in Hcrim.
  destruct (ffcrim fs1 f (get_fits_bitpix T) 2
              [Image2D.x img; Image2D.y img] 0) as [fs2 s2'] eqn:Ecrim.
  injection Hcrim as -> <-.
  invert_fcheck H.
  invert_bind_as H s3 w3 Hppn. unfold fits_write_imgnull in Hppn.
  simpl in Hppn.
  destruct (ffppn fs2 f (get_fits_type T) 1 (Image2D.size img)
              (Image2D.p img) (quiet_NaN T) 0) as [fs3 s3'] eqn:Eppn.
  injection Hppn as -> <-.
  invert_fcheck H.
  invert_bind_as H s4 w4 Hclos. unfold fits_close_file in Hclos.
  simpl in Hclos.
  destruct (ffclos fs3 f 0) as [fs4 s4'] eqn:Eclos.
  injection Hclos as -> <-.
  apply fcheck_inv in H. destruct H as [-> ->].
  exists f, fs1, fs2, fs3, fs4. repeat split; try assumption.
  unfold log, store_events. simpl. rewrite <- !app_assoc. reflexivity.
Qed.

Lemma write_image_1d_returned T filename (img : Image1D.t T) w u w' :
  write_image_1d T filename img w = Returned u w' ->
  accepts_store w filename T [Image1D.x img]
    (Image1D.size img) (Image1D.p img) w'.
Proof.
  unfold write_image_1d. intros H.
  invert_bind_as H r1 w1 Hinit. destruct r1 as [f s].
  unfold fits_create_file in Hinit.
  destruct (ffinit (fits w) filename 0) as [fs1 [f' s1]] eqn:Einit.
  injection Hinit as -> -> <-.
  invert_fcheck H.
  invert_bind_as H s2 w2 Hcrim. unfold fits_create_img in Hcrim.
  simpl in Hcrim.
  destruct (ffcrim fs1 f (get_fits_bitpix T) 1 [Image1D.x img] 0)
    as [fs2 s2'] eqn:Ecrim.
  injection Hcrim as -> <-.
  invert_fcheck H.
  invert_bind_as H s3 w3 Hppn. unfold fits_write_imgnull in Hppn.
  simpl in Hppn.
  destruct (ffppn fs2 f (get_fits_type T) 1 (Image1D.size img)
              (Image1D.p img) (quiet_NaN T) 0) as [fs3 s3'] eqn:Eppn.
  injection Hppn as -> <-.
  invert_fcheck H.
  invert_bind_as H s4 w4 Hclos. unfold fits_close_file in Hclos.
  simpl in Hclos.
  destruct (ffclos fs3 f 0) as [fs4 s4'] eqn:Eclos.
  injection Hclos as -> <-.
  apply fcheck_inv in H. destruct H as [-> ->].
  exists f, fs1, fs2, fs3, fs4. repeat split; try assumption.
  unfold log, store_events. simpl. rewrite <- !app_assoc. reflexivity.
Qed.

(** X8: a store returns exactly when the library accepts its four calls.
    [write_image] creates the file, declares an image with the storage tag
    of [T] and the container's own extents, writes from element 1 as many
    elements as the container's size, which is the product of the declared
    extents, passing the buffer as it is with the quiet NaN of [T] as null
    value, and closes.  It checks nothing about the container itself:
    whatever the extents and the buffer, the library's statuses alone decide. *)
Theorem write_image_returns_iff_accepted T filename w w' :
  (forall img : Image2D.t T,
     (write_image_2d T filename img w = Returned tt w' <->
      accepts_store w filename T [Image2D.x img; Image2D.y img]
        (Image2D.size img) (Image2D.p img) w') /\
     fold_right Z.mul 1 [Image2D.x img; Image2D.y img] = Image2D.size img) /\
  (forall img : Image1D.t T,
     (write_image_1d T filename img w = Returned tt w' <->
      accepts_store w filename T [Image1D.x img]
        (Image1D.size img) (Image1D.p img) w') /\
     fold_right Z.mul 1 [Image1D.x img] = Image1D.size img).
Proof.
  split; intros img; (split; [split|]).
  - apply write_image_2d_returned.
  - apply write_image_2d_accepted.
  - unfold Image2D.size. simpl. now rewrite Z.mul_1_r.
  - apply write_image_1d_returned.
  - apply write_image_1d_accepted.
  - unfold Image1D.size. simpl. now rewrite Z.mul_1_r.
Qed.

Lemma fails_only_on_status_call {R B} (m : M R) kd status_of P (k : R -> M B) :
  is_call m kd status_of P ->
  (forall r w, status_of r <> 0 ->
     k r w = Terminated (Exit EXIT_FAILURE) (reported (status_of r) w)) ->
  (forall r w, status_of r = 0 -> fails_only_on_status (k r) w) ->
  forall w, fails_only_on_status (bind m k) w.
Proof.
  intros Hm Hbad Hgood w. destruct (Hm w) as (fs & r & c & Hrun & _ & _).
  unfold fails_only_on_status. rewrite (bind_returned _ _ _ _ _ Hrun).
  destruct (Z.eq_dec (status_of r) 0) as [Hz | Hnz].
  - specialize (Hgood r (mkWorld fs (trace w ++ [Call c (status_of r)])) Hz).
    unfold fails_only_on_status in Hgood.
    destruct (k r _) as [b w2 | t w2]; [exact I|].
    destruct Hgood as (-> & pre & c' & s & text & Htr & Hs & Hpre & Herr).
    split; [reflexivity|].
    exists (Call c (status_of r) :: pre), c', s, text. repeat split.
    + rewrite Htr. simpl. rewrite <- app_assoc. reflexivity.
    + exact Hs.
    + unfold clean. simpl. constructor; [exact Hz | exact Hpre].
    + simpl. exact Herr.
  - rewrite (Hbad r _ Hnz).
    destruct (trace_reported (status_of r)
                (mkWorld fs (trace w ++ [Call c (status_of r)])))
      as (text & Htext).
    split; [reflexivity|].
    exists [], c, (status_of r), text. repeat split.
    + rewrite Htext. simpl. rewrite <- app_assoc. reflexivity.
    + exact Hnz.
    + apply clean_nil.
    + simpl. apply append_empty_r.
Qed.

(** [status_call]: as [checked_call], for [fails_only_on_status]. *)
Ltac status_call :=
  eapply fails_only_on_status_call;
  [ solve [auto with calls]
  | intros r w Hs;
    repeat match goal with p : (_ * _)%type |- _ => destruct p end;
    simpl in Hs |- *;
    first [ apply bind_terminated, fcheck_nonzero, Hs
          | apply fcheck_nonzero, Hs ]
  | intros r w Hs;
    repeat match goal with p : (_ * _)%type |- _ => destruct p end;
    simpl in Hs; subst; revert w ].

Lemma fails_only_on_status_fcheck_zero {A} (m : M A) w :
  fails_only_on_status m w ->
  fails_only_on_status (bind (fcheck 0) (fun _ => m)) w.
Proof. intros H. exact H. Qed.

(** X9: a store has no failure of its own.  If [write_image] terminates,
    then with [EXIT_FAILURE], right after one of its four library calls
    returned a non-zero status and [fits_report_error] reported it; the
    earlier calls had returned zero, and the library's report is all that
    reaches the error stream.  It never prints a diagnostic of its own. *)
Theorem write_image_fails_only_on_status T filename w :
  (forall img : Image2D.t T,
     fails_only_on_status (write_image_2d T filename img) w) /\
  (forall img : Image1D.t T,
     fails_only_on_status (write_image_1d T filename img) w).
Proof.
  split; intros img; revert w.
  - unfold write_image_2d.
    status_call. intros w. apply fails_only_on_status_fcheck_zero. revert w.
    status_call. intros w. apply fails_only_on_status_fcheck_zero. revert w.
    status_call. intros w. apply fails_only_on_status_fcheck_zero. revert w.
    status_call. intros w. exact I.
  - unfold write_image_1d.
    status_call. intros w. apply fails_only_on_status_fcheck_zero. revert w.
    status_call. intros w. apply fails_only_on_status_fcheck_zero. revert w.
    status_call. intros w. apply fails_only_on_status_fcheck_zero. revert w.
    status_call. intros w. exact I.
Qed.

(** ** The order of calls *)

Lemma prefix_of_In {A} (l plan : list A) x :
  prefix_of l plan -> In x l -> In x plan.
Proof. intros [rest ->] H. apply in_or_app. now left. Qed.

Lemma last_occurrence {A} (k : A) p0 l1 l2 rest :
  ~ In k p0 -> p0 ++ [k] = l1 ++ k :: l2 ++ rest -> l2 = [].
Proof.
  revert l1. induction p0 as [|a p0 IH]; intros l1 Hnot H.
  - destruct l1 as [|b l1].
    + simpl in H. injection H as H. symmetry in H.
      apply app_eq_nil in H. tauto.
    + simpl in H. injection H as _ H. destruct l1; discriminate.
  - destruct l1 as [|b l1].
    + simpl in H. injection H as -> _. exfalso. apply Hnot. now left.
    + simpl in H. injection H as _ H.
      apply (IH l1); [|exact H]. intros Hin. apply Hnot. now right.
Qed.

Lemma nothing_after_close_of_plan added p0 :
  ~ In K_close_file p0 ->
  prefix_of (kinds added) (p0 ++ [K_close_file]) ->
  nothing_after_close added.
Proof.
  intros Hnot [rest Hplan] pre f s post ->.
  rewrite kinds_app in Hplan. unfold kinds in Hplan at 2. simpl in Hplan.
  rewrite <- app_assoc in Hplan. simpl in Hplan.
  apply (last_occurrence _ _ _ _ _ Hnot) in Hplan.
  now apply map_eq_nil in Hplan.
Qed.

Lemma follows_nothing_after_close {A} (m : M A) p0 Q w :
  follows m (p0 ++ [K_close_file]) Q ->
  ~ In K_close_file p0 ->
  exists added,
    trace (final (m w)) = trace w ++ added /\ nothing_after_close added.
Proof.
  intros Hm Hnot. destruct (Hm w) as (added & Htr & H).
  exists added. split; [exact Htr|].
  apply (nothing_after_close_of_plan _ p0 Hnot).
  destruct (m w) as [a w' | t w'].
  - destruct H as (-> & _). exists []. now rewrite app_nil_r.
  - tauto.
Qed.

(** X10: no handle is used after it was closed.  In every run of
    [from_image] and of both [write_image], returning or not, no library call
    comes after a [fits_close_file]. *)
Theorem no_call_after_close :
  (forall settings w, exists added,
     trace (final (from_image settings w)) = trace w ++ added /\
     nothing_after_close added) /\
  (forall T filename (img : Image2D.t T) w, exists added,
     trace (final (write_image_2d T filename img w)) = trace w ++ added /\
     nothing_after_close added) /\
  (forall T filename (img : Image1D.t T) w, exists added,
     trace (final (write_image_1d T filename img w)) = trace w ++ added /\
     nothing_after_close added).
Proof.
  repeat split.
  - intros settings w.
    apply (follows_nothing_after_close _
             [K_open_file; K_get_hdu_type; K_get_img_type; K_get_img_dim;
              K_get_img_size; K_read_img] _ _ (from_image_follows settings)).
    simpl. intuition discriminate.
  - intros T filename img w.
    apply (follows_nothing_after_close _
             [K_create_file; K_create_img; K_write_imgnull] _ _
             (write_image_2d_follows T filename img)).
    simpl. intuition discriminate.
  - intros T filename img w.
    apply (follows_nothing_after_close _
             [K_create_file; K_create_img; K_write_imgnull] _ _
             (write_image_1d_follows T filename img)).
    simpl. intuition discriminate.
Qed.

Lemma prefix_of_refl {A} (plan : list A) : prefix_of plan plan.
Proof. exists []. now rewrite app_nil_r. Qed.

Lemma follows_prefix {A} (m : M A) plan Q w :
  follows m plan Q ->
  exists added,
    trace (final (m w)) = trace w ++ added /\ prefix_of (kinds added) plan.
Proof.
  intros Hm. destruct (Hm w) as (added & Htr & H). exists added.
  split; [exact Htr|]. destruct (m w).
  - destruct H as (-> & _). apply prefix_of_refl.
  - tauto.
Qed.

(** A computation that begins with the library call [c], checks its status
    and continues along [p1 ++ p2]: its trace begins with that call. *)
Lemma begins_with_call {R A B} (m : M R) c status_of
    (k2 : R -> M A) (k : A -> M B) p1 p2 Q1 Q2 w :
  (forall w0, exists fs r,
     m w0 = Returned r (mkWorld fs (trace w0 ++ [Call c (status_of r)]))) ->
  (forall r w0, status_of r <> 0 ->
     k2 r w0 = Terminated (Exit EXIT_FAILURE) (reported (status_of r) w0)) ->
  (forall r, status_of r = 0 -> follows (k2 r) p1 Q1) ->
  (forall a, Q1 a -> follows (k a) p2 Q2) ->
  exists s rest,
    trace (final (bind (bind m k2) k w)) = trace w ++ Call c s :: rest /\
    prefix_of (kinds rest) (p1 ++ p2).
Proof.
  intros Hm Hbad Hgood Hk. destruct (Hm w) as (fs & r & Hrun).
  assert (E : bind (bind m k2) k w =
              bind (k2 r) k (mkWorld fs (trace w ++ [Call c (status_of r)]))).
  { unfold bind. rewrite Hrun. reflexivity. }
  rewrite E. exists (status_of r).
  destruct (Z.eq_dec (status_of r) 0) as [Hz | Hnz].
  - destruct (follows_prefix _ _ _
                (mkWorld fs (trace w ++ [Call c (status_of r)]))
                (follows_bind _ _ _ _ _ _ (Hgood r Hz) Hk))
      as (rest & Htr & Hp).
    exists rest. split; [|exact Hp].
    rewrite Htr. simpl. rewrite <- app_assoc. reflexivity.
  - rewrite (bind_terminated _ _ _ _ _ (Hbad r _ Hnz)).
    destruct (trace_reported (status_of r)
                (mkWorld fs (trace w ++ [Call c (status_of r)])))
      as (text & Htext).
    exists [ReportError (status_of r) text]. split.
    + simpl. rewrite Htext. simpl. rewrite <- app_assoc. reflexivity.
    + apply prefix_of_nil.
Qed.

Lemma from_image_begins_with_open settings w :
  exists s rest,
    trace (final (from_image settings w)) =
      trace w ++ Call (open_file (source settings) READONLY) s :: rest /\
    prefix_of (kinds rest)
      [K_get_hdu_type; K_get_img_type; K_get_img_dim;
       K_get_img_size; K_read_img; K_close_file].
Proof.
  revert w. intros w1.
  unfold from_image, open_image_for_reading.
  apply (begins_with_call _ _ snd _ _ [K_get_hdu_type]
           [K_get_img_type; K_get_img_dim; K_get_img_size; K_read_img;
            K_close_file] (fun _ => True) (driver_ok settings)).
  - intros w0. unfold fits_open_file.
    destruct (ffopen (fits w0) (source settings) READONLY 0) as [fs [f s]].
    exists fs, (f, s). reflexivity.
  - intros [f s] w0 Hs. simpl in Hs |- *.
    apply bind_terminated, fcheck_nonzero, Hs.
  - intros [f s] Hs. simpl in Hs. subst. apply follows_fcheck_zero.
    checked_call.
    intros w0. unfold bind, when.
    case_eqb IMAGE_HDU; simpl; [silent|].
    case_eqb ASCII_TBL; [|case_eqb BINARY_TBL]; diagnosed3.
  - intros f _.
    checked_call.
    case_eqb (get_fits_bitpix float); [apply from_image_helper_follows|].
    case_eqb (get_fits_bitpix double); [apply from_image_helper_follows|].
    intros w0. unfold bind.
    case_ltb 0; diagnosed3.
Qed.

Lemma load_kinds_do_not_write c :
  In (kind_of c) load_plan -> writes c = false.
Proof.
  destruct c; simpl; try reflexivity; intuition discriminate.
Qed.

(** X11: a load only reads.  In every run of [from_image], returning or not,
    the first event is [fits_open_file] on the source path of the settings
    with mode [READONLY], that is the only open of the run, and no call
    creates a file, declares an image or writes pixels. *)
Theorem from_image_only_reads settings w :
  exists s rest,
    trace (final (from_image settings w)) =
      trace w ++ Call (open_file (source settings) READONLY) s :: rest /\
    (forall filename mode, ~ In (open_file filename mode) (calls_of rest)) /\
    Forall (fun c => writes c = false) (calls_of rest).
Proof.
  destruct (from_image_begins_with_open settings w) as (s & rest & Htr & Hp).
  exists s, rest. split; [exact Htr|]. split.
  - intros filename mode Hin.
    apply (in_map kind_of) in Hin.
    apply (prefix_of_In _ _ _ Hp) in Hin. simpl in Hin.
    intuition discriminate.
  - apply Forall_forall. intros c Hin.
    apply load_kinds_do_not_write.
    apply (in_map kind_of) in Hin.
    apply (prefix_of_In _ _ _ Hp) in Hin. simpl in Hin |- *. tauto.
Qed.

(** ** The outcomes of a load *)

Lemma bind_inv_terminated {A B} (m : M A) (k : A -> M B) w t w' :
  bind m k w = Terminated t w' ->
  m w = Terminated t w' \/
  exists a w1, m w = Returned a w1 /\ k a w1 = Terminated t w'.
Proof.
  unfold bind. destruct (m w) as [a w1 | t1 w1]; intros H.
  - right. exists a, w1. auto.
  - left. injection H as <- <-. reflexivity.
Qed.

(** [same_world]: the two worlds differ by the bracketing of the trace. *)
Ltac same_world :=
  unfold extend, log; cbn [fits trace];
  rewrite <- ?app_assoc; cbn [app]; reflexivity.

Lemma fatal_load_in settings w t w1 w2 :
  fatal_load settings w t w1 -> w2 = w1 -> fatal_load settings w t w2.
Proof. intros H ->. exact H. Qed.

Lemma open_image_for_reading_fatal settings w t w' :
  open_image_for_reading (source settings) w = Terminated t w' ->
  fatal_load settings w t w'.
Proof.
  intros H.
  destruct (ffopen (fits w) (source settings) READONLY 0)
    as [fs1 [f s1]] eqn:Eopen.
  destruct (Z.eq_dec s1 0) as [-> | Hs1].
  - destruct (ffghdt fs1 f 0) as [fs2 [hdutype s2]] eqn:Ehdu.
    destruct (Z.eq_dec s2 0) as [-> | Hs2].
    + assert (Ho : opens_as w (source settings) f hdutype
                     (mkWorld fs2
                        (trace w ++
                         [Call (open_file (source settings) READONLY) 0;
                          Call (get_hdu_type f) 0]))).
      { exists fs1, fs2. auto. }
      rewrite (open_image_for_reading_run _ _ _ _ _ Ho) in H.
      destruct (hdutype =? IMAGE_HDU) eqn:Hne; [discriminate|].
      apply Z.eqb_neq in Hne. injection H as <- <-.
      exact (structural_mismatch settings w f hdutype _ Ho Hne).
    + unfold open_image_for_reading in H.
      unfold bind at 1 in H. unfold fits_open_file in H. rewrite Eopen in H.
      unfold bind at 1 in H. rewrite fcheck_zero in H.
      unfold bind at 1 in H. unfold fits_get_hdu_type in H.
      cbn [fits trace log] in H. rewrite Ehdu in H.
      unfold bind at 1 in H. rewrite (fcheck_nonzero _ _ Hs2) in H.
      injection H as <- <-.
      eapply fatal_load_in.
      * apply (io_failure settings w (get_hdu_type f) _ fs2 s2
                 (pending_hdu_type settings w fs1 f Eopen)); [|exact Hs2].
        unfold perform. cbn [fits]. rewrite Ehdu. reflexivity.
      * same_world.
  - unfold open_image_for_reading in H.
    unfold bind at 1 in H. unfold fits_open_file in H. rewrite Eopen in H.
    unfold bind at 1 in H. rewrite (fcheck_nonzero _ _ Hs1) in H.
    injection H as <- <-.
    eapply fatal_load_in.
    + apply (io_failure settings w _ w fs1 s1 (pending_open settings w));
        [|exact Hs1].
      unfold perform. rewrite Eopen. reflexivity.
    + same_world.
Qed.

Lemma read_image_data_2d_fatal T settings filename w f w2 w3 w4 t w' :
  opens_as w (source settings) f IMAGE_HDU w2 ->
  probes_precision w2 f (get_fits_bitpix T) w3 ->
  probes_rank w3 f 2 w4 ->
  read_image_data_2d T filename f w4 = Terminated t w' ->
  fatal_load settings w t w'.
Proof.
  intros Ho Hp Hr H.
  unfold read_image_data_2d in H.
  unfold bind at 1 in H. unfold fits_get_img_size in H.
  destruct (ffgisz (fits w4) f 2 (0, 0) 0) as [fs5 [[nx ny] s5]] eqn:Esize.
  unfold bind at 1 in H.
  destruct (Z.eq_dec s5 0) as [-> | Hs5].
  2: { rewrite (fcheck_nonzero _ _ Hs5) in H. injection H as <- <-.
       eapply fatal_load_in.
       - apply (io_failure settings w (get_img_size f 2) w4 fs5 s5
                  (pending_img_size settings w f T 2 w2 w3 w4 Ho Hp Hr
                     (or_intror eq_refl))); [|exact Hs5].
         unfold perform. rewrite Esize. reflexivity.
       - same_world. }
  rewrite fcheck_zero in H.
  assert (Hd : describes w (source settings) f T 2 (nx, ny) w4 fs5).
  { exists w2, w3. auto. }
  unfold bind at 1 in H. rewrite verify_dim_2d_run in H. cbn [fst snd] in H.
  destruct (Z.ltb_spec nx 1) as [Hx | Hx].
  { injection H as <- <-.
    eapply fatal_load_in.
    - exact (dimension_violation settings w f T 2 (nx, ny) w4 fs5 _ Hd
               (rejected_small_2d nx ny (or_introl Hx))).
    - same_world. }
  destruct (Z.ltb_spec ny 1) as [Hy | Hy].
  { injection H as <- <-.
    eapply fatal_load_in.
    - exact (dimension_violation settings w f T 2 (nx, ny) w4 fs5 _ Hd
               (rejected_small_2d nx ny (or_intror Hy))).
    - same_world. }
  cbn [orb] in H.
  destruct (Z.geb_spec (mul_int64 nx ny) INT_MAX) as [Hxy | Hxy].
  { injection H as <- <-.
    eapply fatal_load_in.
    - exact (dimension_violation settings w f T 2 (nx, ny) w4 fs5 _ Hd
               (rejected_large_2d nx ny Hx Hy Hxy)).
    - same_world. }
  cbv zeta in H. unfold bind at 1 in H. unfold alloc_2d in H.
  cbn [Image2D.make Image2D.p Image2D.x Image2D.y] in H.
  destruct (valid_extents [to_int nx; to_int ny]) eqn:Ev.
  2: { unfold refuse, bind, emit, abort in H. injection H as <- <-.
       eapply fatal_load_in.
       - apply (allocation_refused settings w f T nx ny w4 fs5 Hd); assumption.
       - same_world. }
  assert (Ha : admitted 2 (nx, ny) [to_int nx; to_int ny]
                 (to_int nx * to_int ny)).
  { apply admitted_2d; assumption. }
  unfold bind at 1 in H. unfold emit in H.
  unfold bind at 1 in H. unfold ret at 1 in H.
  unfold bind at 1 in H. unfold fits_read_img in H.
  unfold Image2D.size in H.
  cbn [Image2D.make Image2D.with_p Image2D.p Image2D.x Image2D.y fits trace log]
    in H.
  destruct (ffgpv fs5 f (get_fits_type T) 1 (to_int nx * to_int ny)
              (quiet_NaN T) 0) as [fs6 [[data anynul] s6]] eqn:Eread.
  destruct (Z.eq_dec s6 0) as [-> | Hs6].
  2: { rewrite (fcheck_nonzero _ _ Hs6) in H. injection H as <- <-.
       eapply fatal_load_in.
       - apply (io_failure settings w _ _ fs6 s6
                  (pending_read settings w f T 2 (nx, ny) w4 fs5 _ _ Hd Ha));
           [|exact Hs6].
         unfold perform. cbn [fits]. rewrite Eread. reflexivity.
       - same_world. }
  rewrite fcheck_zero in H. cbv beta iota in H.
  unfold bind at 1 in H. unfold fits_close_file in H.
  cbn [fits trace log] in H.
  destruct (ffclos fs6 f 0) as [fs7 s7] eqn:Eclose.
  unfold bind at 1 in H.
  destruct (Z.eq_dec s7 0) as [-> | Hs7].
  2: { rewrite (fcheck_nonzero _ _ Hs7) in H. injection H as <- <-.
       eapply fatal_load_in.
       - apply (io_failure settings w _ _ fs7 s7
                  (pending_close settings w f T 2 (nx, ny) w4 fs5 _ _
                     fs6 data anynul Hd Ha Eread)); [|exact Hs7].
         unfold perform. cbn [fits]. rewrite Eclose. reflexivity.
       - same_world. }
  rewrite fcheck_zero in H. discriminate.
Qed.

Lemma read_image_data_1d_fatal T settings filename w f w2 w3 w4 t w' :
  opens_as w (source settings) f IMAGE_HDU w2 ->
  probes_precision w2 f (get_fits_bitpix T) w3 ->
  probes_rank w3 f 1 w4 ->
  read_image_data_1d T filename f w4 = Terminated t w' ->
  fatal_load settings w t w'.
Proof.
  intros Ho Hp Hr H.
  unfold read_image_data_1d in H.
  unfold bind at 1 in H. unfold fits_get_img_size in H.
  destruct (ffgisz (fits w4) f 1 (0, 0) 0) as [fs5 [[x rest] s5]] eqn:Esize.
  unfold bind at 1 in H.
  destruct (Z.eq_dec s5 0) as [-> | Hs5].
  2: { rewrite (fcheck_nonzero _ _ Hs5) in H. injection H as <- <-.
       eapply fatal_load_in.
       - apply (io_failure settings w (get_img_size f 1) w4 fs5 s5
                  (pending_img_size settings w f T 1 w2 w3 w4 Ho Hp Hr
                     (or_introl eq_refl))); [|exact Hs5].
         unfold perform. rewrite Esize. reflexivity.
       - same_world. }
  rewrite fcheck_zero in H.
  assert (Hd : describes w (source settings) f T 1 (x, rest) w4 fs5).
  { exists w2, w3. auto. }
  unfold bind at 1 in H. rewrite verify_dim_1d_run in H. cbn [fst snd] in H.
  destruct (Z.ltb_spec x 1) as [Hx | Hx].
  { injection H as <- <-.
    eapply fatal_load_in.
    - exact (dimension_violation settings w f T 1 (x, rest) w4 fs5 _ Hd
               (rejected_small_1d x rest Hx)).
    - same_world. }
  destruct (Z.geb_spec x INT_MAX) as [Hmax | Hmax].
  { injection H as <- <-.
    eapply fatal_load_in.
    - exact (dimension_violation settings w f T 1 (x, rest) w4 fs5 _ Hd
               (rejected_large_1d x rest Hmax)).
    - same_world. }
  assert (Ex : to_int x = x).
  { apply to_int_small. unfold in_int, INT_MAX in *. lia. }
  assert (Ha : admitted 1 (x, rest) [x] x).
  { apply admitted_1d. lia. }
  cbv zeta in H. rewrite Ex in H.
  unfold bind at 1 in H. unfold alloc_1d in H.
  cbn [Image1D.make Image1D.p Image1D.x] in H.
  rewrite (valid_extents_1d x (conj Hx Hmax)) in H.
  unfold bind at 1 in H. unfold emit in H.
  unfold bind at 1 in H. unfold ret at 1 in H.
  unfold bind at 1 in H. unfold fits_read_img in H.
  unfold Image1D.size in H.
  cbn [Image1D.make Image1D.with_p Image1D.p Image1D.x fits trace log] in H.
  destruct (ffgpv fs5 f (get_fits_type T) 1 x (quiet_NaN T) 0)
    as [fs6 [[data anynul] s6]] eqn:Eread.
  destruct (Z.eq_dec s6 0) as [-> | Hs6].
  2: { rewrite (fcheck_nonzero _ _ Hs6) in H. injection H as <- <-.
       eapply fatal_load_in.
       - apply (io_failure settings w _ _ fs6 s6
                  (pending_read settings w f T 1 (x, rest) w4 fs5 _ _ Hd Ha));
           [|exact Hs6].
         unfold perform. cbn [fits]. rewrite Eread. reflexivity.
       - same_world. }
  rewrite fcheck_zero in H. cbv beta iota in H.
  unfold bind at 1 in H. unfold fits_close_file in H.
  cbn [fits trace log] in H.
  destruct (ffclos fs6 f 0) as [fs7 s7] eqn:Eclose.
  unfold bind at 1 in H.
  destruct (Z.eq_dec s7 0) as [-> | Hs7].
  2: { rewrite (fcheck_nonzero _ _ Hs7) in H. injection H as <- <-.
       eapply fatal_load_in.
       - apply (io_failure settings w _ _ fs7 s7
                  (pending_close settings w f T 1 (x, rest) w4 fs5 _ _
                     fs6 data anynul Hd Ha Eread)); [|exact Hs7].
         unfold perform. cbn [fits]. rewrite Eclose. reflexivity.
       - same_world. }
  rewrite fcheck_zero in H. discriminate.
Qed.

Lemma from_image_helper_fatal T settings w f w2 w3 t w' :
  opens_as w (source settings) f IMAGE_HDU w2 ->
  probes_precision w2 f (get_fits_bitpix T) w3 ->
  from_image_helper T settings f w3 = Terminated t w' ->
  fatal_load settings w t w'.
Proof.
  intros Ho Hp H.
  destruct (ffgidm (fits w3) f 0) as [fs4 [naxis s4]] eqn:Edim.
  destruct (Z.eq_dec s4 0) as [-> | Hs4].
  - assert (Hr : probes_rank w3 f naxis
                   (mkWorld fs4 (trace w3 ++ [Call (get_img_dim f) 0]))).
    { exists fs4. auto. }
    rewrite (from_image_helper_run _ _ _ _ _ _ Hr) in H.
    destruct (Z.eqb_spec naxis 1) as [E1 | N1];
      [|destruct (Z.eqb_spec naxis 2) as [E2 | N2]].
    + rewrite E1 in Hr.
      apply bind_inv_terminated in H.
      destruct H as [H | (img & w5 & _ & H)]; [|discriminate].
      exact (read_image_data_1d_fatal _ _ _ _ _ _ _ _ _ _ Ho Hp Hr H).
    + rewrite E2 in Hr.
      apply bind_inv_terminated in H.
      destruct H as [H | (img & w5 & _ & H)]; [|discriminate].
      exact (read_image_data_2d_fatal _ _ _ _ _ _ _ _ _ _ Ho Hp Hr H).
    + injection H as <- <-.
      exact (unsupported_rank settings w f T w2 w3 naxis _ Ho Hp Hr N1 N2).
  - unfold from_image_helper in H.
    unfold bind at 1 in H. unfold fits_get_img_dim in H. rewrite Edim in H.
    unfold bind at 1 in H. rewrite (fcheck_nonzero _ _ Hs4) in H.
    injection H as <- <-.
    eapply fatal_load_in.
    + apply (io_failure settings w (get_img_dim f) w3 fs4 s4
               (pending_img_dim settings w f T w2 w3 Ho Hp)); [|exact Hs4].
      unfold perform. rewrite Edim. reflexivity.
    + same_world.
Qed.

Lemma from_image_fatal settings w t w' :
  from_image settings w = Terminated t w' -> fatal_load settings w t w'.
Proof.
  intros H.
  destruct (open_image_for_reading (source settings) w) as [f w2 | t2 w2]
    eqn:Eopen.
  2: { unfold from_image in H. rewrite (bind_terminated _ _ _ _ _ Eopen) in H.
       injection H as <- <-.
       exact (open_image_for_reading_fatal _ _ _ _ Eopen). }
  pose proof (open_image_for_reading_returned _ _ _ _ Eopen) as Ho.
  destruct (ffgidt (fits w2) f 0) as [fs3 [bitpix s3]] eqn:Etag.
  destruct (Z.eq_dec s3 0) as [-> | Hs3].
  - assert (Hp : probes_precision w2 f bitpix
                   (mkWorld fs3 (trace w2 ++ [Call (get_img_type f) 0]))).
    { exists fs3. auto. }
    rewrite (from_image_run _ _ _ _ _ _ Eopen Hp) in H.
    destruct (Z.eqb_spec bitpix FLOAT_IMG) as [Ef | Nf];
      [|destruct (Z.eqb_spec bitpix DOUBLE_IMG) as [Ed | Nd]].
    + rewrite Ef in Hp.
      exact (from_image_helper_fatal float _ _ _ _ _ _ _ Ho Hp H).
    + rewrite Ed in Hp.
      exact (from_image_helper_fatal double _ _ _ _ _ _ _ Ho Hp H).
    + injection H as <- <-.
      exact (unsupported_precision settings w f w2 bitpix _ Ho Hp Nf Nd).
  - unfold from_image in H. rewrite (bind_returned _ _ _ _ _ Eopen) in H.
    unfold bind at 1 in H. unfold fits_get_img_type in H. rewrite Etag in H.
    unfold bind at 1 in H. rewrite (fcheck_nonzero _ _ Hs3) in H.
    injection H as <- <-.
    eapply fatal_load_in.
    + apply (io_failure settings w (get_img_type f) w2 fs3 s3
               (pending_img_type settings w f w2 Ho)); [|exact Hs3].
      unfold perform. rewrite Etag. reflexivity.
    + same_world.
Qed.

Lemma from_image_loads settings w d w' :
  from_image settings w = Returned d w' -> loads settings w d w'.
Proof.
  intros H. apply from_image_returned in H.
  destruct H as (T & f & w2 & w3 & Hopen & Htag & H).
  apply from_image_helper_returned in H.
  destruct H as (w4 & Hrank & [(img & -> & H) | (img & -> & H)]).
  - apply read_image_data_1d_returned in H.
    destruct H as (fs5 & x & rest & fs6 & data & anynul & fs7 &
                   Hsize & Hx & Hread & Hclose & -> & ->).
    exists f, (x, rest), w4, fs5, data. simpl.
    assert (Hd : describes w (source settings) f T 1 (x, rest) w4 fs5).
    { exists w2, w3. auto. }
    repeat split; try assumption.
    + apply admitted_1d. exact Hx.
    + exists anynul, fs6. auto.
    + rewrite (describes_trace _ _ _ _ _ _ _ _ Hd), <- app_assoc. reflexivity.
  - pose proof (read_image_data_2d_follows T (source settings) f w4)
      as (added & _ & Hf).
    rewrite H in Hf. destruct Hf as (_ & _ & (buf & _ & _ & Hv)).
    apply read_image_data_2d_returned in H.
    destruct H as (fs5 & nx & ny & fs6 & data & anynul & fs7 &
                   Hsize & Hx & Hy & Hxy & H).
    cbv zeta in H. destruct H as (Hread & Hclose & -> & -> & _).
    cbn [Image2D.x Image2D.y] in Hv.
    exists f, (nx, ny), w4, fs5, data. simpl.
    assert (Hd : describes w (source settings) f T 2 (nx, ny) w4 fs5).
    { exists w2, w3. auto. }
    repeat split; try assumption.
    + apply admitted_2d; assumption.
    + exists anynul, fs6. auto.
    + rewrite (describes_trace _ _ _ _ _ _ _ _ Hd), <- app_assoc. reflexivity.
Qed.

(** *** Every path of the description is taken *)

(** The load helpers, one decision after the other. *)
Lemma read_image_data_2d_run T filename f w :
  read_image_data_2d T filename f w =
    let '(fs5, ((nx, ny), s5)) := ffgisz (fits w) f 2 (0, 0) 0 in
    let w5 := mkWorld fs5 (trace w ++ [Call (get_img_size f 2) s5]) in
    if negb (s5 =? 0) then Terminated (Exit EXIT_FAILURE) (reported s5 w5)
    else if (nx <? 1) || (ny <? 1) then
      Terminated (Exit EXIT_FAILURE) (extend w5 (too_small_2d nx ny))
    else if mul_int64 nx ny >=? INT_MAX then
      Terminated (Exit EXIT_FAILURE) (extend w5 (too_large_2d nx ny))
    else if negb (valid_extents [to_int nx; to_int ny]) then
      Terminated Abort (extend w5 [Cerr alloc_refused])
    else
      let n := to_int nx * to_int ny in
      let '(fs6, ((data, anynul), s6)) :=
        ffgpv fs5 f (get_fits_type T) 1 n (quiet_NaN T) 0 in
      let w6 :=
        mkWorld fs6
          (trace w ++
           [Call (get_img_size f 2) 0; New n;
            Call (read_img f (get_fits_type T) 1 n (quiet_NaN T)) s6]) in
      if negb (s6 =? 0) then Terminated (Exit EXIT_FAILURE) (reported s6 w6)
      else
        let '(fs7, s7) := ffclos fs6 f 0 in
        let w7 :=
          mkWorld fs7
            (trace w ++
             [Call (get_img_size f 2) 0; New n;
              Call (read_img f (get_fits_type T) 1 n (quiet_NaN T)) 0;
              Call (close_file f) s7]) in
        if negb (s7 =? 0) then Terminated (Exit EXIT_FAILURE) (reported s7 w7)
        else
          Returned (Image2D.mk (to_int nx) (to_int ny) (Some (filled n data)))
            w7.
Proof.
  unfold read_image_data_2d.
  unfold bind at 1. unfold fits_get_img_size.
  destruct (ffgisz (fits w) f 2 (0, 0) 0) as [fs5 [[nx ny] s5]].
  unfold bind at 1. cbv zeta.
  destruct (Z.eqb_spec s5 0) as [-> | Hs5]; cbn [negb];
    [|rewrite (fcheck_nonzero _ _ Hs5); reflexivity].
  rewrite fcheck_zero.
  unfold bind at 1. rewrite verify_dim_2d_run. cbn [fst snd].
  destruct ((nx <? 1) || (ny <? 1)); [reflexivity|].
  destruct (mul_int64 nx ny >=? INT_MAX); [reflexivity|].
  unfold bind at 1. unfold alloc_2d.
  cbn [Image2D.make Image2D.p Image2D.x Image2D.y].
  destruct (valid_extents [to_int nx; to_int ny]); cbn [negb];
    [|reflexivity].
  unfold bind at 1. unfold emit.
  unfold bind at 1. unfold ret at 1.
  unfold bind at 1. unfold fits_read_img. unfold Image2D.size.
  cbn [Image2D.make Image2D.with_p Image2D.p Image2D.x Image2D.y fits trace log].
  destruct (ffgpv fs5 f (get_fits_type T) 1 (to_int nx * to_int ny)
              (quiet_NaN T) 0) as [fs6 [[data anynul] s6]].
  destruct (Z.eqb_spec s6 0) as [-> | Hs6]; cbn [negb].
  2: { rewrite (fcheck_nonzero _ _ Hs6).
       unfold log; cbn [fits trace]. rewrite <- !app_assoc. reflexivity. }
  rewrite fcheck_zero. cbv beta iota.
  unfold bind at 1. unfold fits_close_file. cbn [fits trace log].
  destruct (ffclos fs6 f 0) as [fs7 s7].
  unfold bind at 1.
  destruct (Z.eqb_spec s7 0) as [-> | Hs7]; cbn [negb].
  2: { rewrite (fcheck_nonzero _ _ Hs7).
       unfold log; cbn [fits trace]. rewrite <- !app_assoc. reflexivity. }
  rewrite fcheck_zero. unfold ret, filled, log.
  cbn [option_map Image2D.with_p Image2D.make Image2D.x Image2D.y fits trace].
  rewrite <- !app_assoc. reflexivity.
Qed.

Lemma read_image_data_1d_run T filename f w :
  read_image_data_1d T filename f w =
    let '(fs5, ((x, _), s5)) := ffgisz (fits w) f 1 (0, 0) 0 in
    let w5 := mkWorld fs5 (trace w ++ [Call (get_img_size f 1) s5]) in
    if negb (s5 =? 0) then Terminated (Exit EXIT_FAILURE) (reported s5 w5)
    else if x <? 1 then
      Terminated (Exit EXIT_FAILURE) (extend w5 (too_small_1d x))
    else if x >=? INT_MAX then
      Terminated (Exit EXIT_FAILURE) (extend w5 (too_large_1d x))
    else
      let '(fs6, ((data, anynul), s6)) :=
        ffgpv fs5 f (get_fits_type T) 1 x (quiet_NaN T) 0 in
      let w6 :=
        mkWorld fs6
          (trace w ++
           [Call (get_img_size f 1) 0; New x;
            Call (read_img f (get_fits_type T) 1 x (quiet_NaN T)) s6]) in
      if negb (s6 =? 0) then Terminated (Exit EXIT_FAILURE) (reported s6 w6)
      else
        let '(fs7, s7) := ffclos fs6 f 0 in
        let w7 :=
          mkWorld fs7
            (trace w ++
             [Call (get_img_size f 1) 0; New x;
              Call (read_img f (get_fits_type T) 1 x (quiet_NaN T)) 0;
              Call (close_file f) s7]) in
        if negb (s7 =? 0) then Terminated (Exit EXIT_FAILURE) (reported s7 w7)
        else Returned (Image1D.mk x (Some (filled x data))) w7.
Proof.
  unfold read_image_data_1d.
  unfold bind at 1. unfold fits_get_img_size.
  destruct (ffgisz (fits w) f 1 (0, 0) 0) as [fs5 [[x rest] s5]].
  unfold bind at 1. cbv zeta.
  destruct (Z.eqb_spec s5 0) as [-> | Hs5]; cbn [negb];
    [|rewrite (fcheck_nonzero _ _ Hs5); reflexivity].
  rewrite fcheck_zero.
  unfold bind at 1. rewrite verify_dim_1d_run. cbn [fst snd].
  destruct (Z.ltb_spec x 1) as [Hx | Hx]; [reflexivity|].
  destruct (Z.geb_spec x INT_MAX) as [Hmax | Hmax]; [reflexivity|].
  assert (Ex : to_int x = x).
  { apply to_int_small. unfold in_int, INT_MAX in *. lia. }
  rewrite Ex.
  unfold bind at 1. unfold alloc_1d.
  cbn [Image1D.make Image1D.p Image1D.x].
  rewrite (valid_extents_1d x (conj Hx Hmax)).
  unfold bind at 1. unfold emit.
  unfold bind at 1. unfold ret at 1.
  unfold bind at 1. unfold fits_read_img. unfold Image1D.size.
  cbn [Image1D.make Image1D.with_p Image1D.p Image1D.x fits trace log].
  destruct (ffgpv fs5 f (get_fits_type T) 1 x (quiet_NaN T) 0)
    as [fs6 [[data anynul] s6]].
  destruct (Z.eqb_spec s6 0) as [-> | Hs6]; cbn [negb].
  2: { rewrite (fcheck_nonzero _ _ Hs6).
       unfold log; cbn [fits trace]. rewrite <- !app_assoc. reflexivity. }
  rewrite fcheck_zero. cbv beta iota.
  unfold bind at 1. unfold fits_close_file. cbn [fits trace log].
  destruct (ffclos fs6 f 0) as [fs7 s7].
  unfold bind at 1.
  destruct (Z.eqb_spec s7 0) as [-> | Hs7]; cbn [negb].
  2: { rewrite (fcheck_nonzero _ _ Hs7).
       unfold log; cbn [fits trace]. rewrite <- !app_assoc. reflexivity. }
  rewrite fcheck_zero. unfold ret, filled, log.
  cbn [option_map Image1D.with_p Image1D.make Image1D.x fits trace].
  rewrite <- !app_assoc. reflexivity.
Qed.

Lemma from_image_after_open settings w f w2 :
  opens_as w (source settings) f IMAGE_HDU w2 ->
  open_image_for_reading (source settings) w = Returned f w2.
Proof.
  intros Ho. rewrite (open_image_for_reading_run _ _ _ _ _ Ho).
  rewrite Z.eqb_refl. reflexivity.
Qed.

Lemma from_image_after_tag T settings w f w2 w3 :
  opens_as w (source settings) f IMAGE_HDU w2 ->
  probes_precision w2 f (get_fits_bitpix T) w3 ->
  from_image settings w = from_image_helper T settings f w3.
Proof.
  intros Ho Hp.
  rewrite (from_image_run _ _ _ _ _ _ (from_image_after_open _ _ _ _ Ho) Hp).
  destruct T; reflexivity.
Qed.

Lemma from_image_after_probes T settings w f w2 w3 rank w4 :
  opens_as w (source settings) f IMAGE_HDU w2 ->
  probes_precision w2 f (get_fits_bitpix T) w3 ->
  probes_rank w3 f rank w4 ->
  from_image settings w =
    if rank =? 1 then
      (img <- read_image_data_1d T (source settings) f;;
       ret (Driver_Image1D T settings img)) w4
    else if rank =? 2 then
      (img <- read_image_data_2d T (source settings) f;;
       ret (Driver_Image2D T settings img)) w4
    else Terminated (Exit EXIT_FAILURE) (extend w4 (unexpected_rank rank)).
Proof.
  intros Ho Hp Hr. rewrite (from_image_after_tag T _ _ _ _ _ Ho Hp).
  apply from_image_helper_run. exact Hr.
Qed.

(** [status_of_perform H E]: [H] tells what [perform] answers and [E] what
    the routine behind it answers; they agree. *)
Ltac status_of_perform H E :=
  unfold perform in H; cbn [fits] in H; rewrite E in H;
  injection H as -> ->.

Lemma io_failure_taken settings w c wk fs' s :
  pending settings w c wk ->
  perform (fits wk) c = (fs', s) ->
  s <> 0 ->
  from_image settings w =
    Terminated (Exit EXIT_FAILURE)
      (reported s (mkWorld fs' (trace wk ++ [Call c s]))).
Proof.
  intros Hpend Hperf Hs.
  destruct Hpend as
    [ | fs1 f Hopen | f w2 Ho | f T w2 w3 Ho Hp
      | f T rank w2 w3 w4 Ho Hp Hr Hrank
      | f T rank naxes w4 fs5 extents n Hd Ha
      | f T rank naxes w4 fs5 extents n fs6 data anynul Hd Ha Hread ].
  - destruct (ffopen (fits w) (source settings) READONLY 0)
      as [fs1 [f s1]] eqn:E.
    status_of_perform Hperf E.
    unfold from_image. unfold bind at 1. unfold open_image_for_reading.
    unfold bind at 1. unfold fits_open_file. rewrite E.
    unfold bind at 1. rewrite (fcheck_nonzero _ _ Hs). reflexivity.
  - destruct (ffghdt fs1 f 0) as [fs2 [hdutype s2]] eqn:E.
    status_of_perform Hperf E.
    unfold from_image. unfold bind at 1. unfold open_image_for_reading.
    unfold bind at 1. unfold fits_open_file. rewrite Hopen.
    unfold bind at 1. rewrite fcheck_zero.
    unfold bind at 1. unfold fits_get_hdu_type. cbn [fits trace log].
    rewrite E.
    unfold bind at 1. rewrite (fcheck_nonzero _ _ Hs). reflexivity.
  - destruct (ffgidt (fits w2) f 0) as [fs3 [bitpix s3]] eqn:E.
    status_of_perform Hperf E.
    unfold from_image.
    rewrite (bind_returned _ _ _ _ _ (from_image_after_open _ _ _ _ Ho)).
    unfold bind at 1. unfold fits_get_img_type. rewrite E.
    unfold bind at 1. rewrite (fcheck_nonzero _ _ Hs). reflexivity.
  - destruct (ffgidm (fits w3) f 0) as [fs4 [naxis s4]] eqn:E.
    status_of_perform Hperf E.
    rewrite (from_image_after_tag T _ _ _ _ _ Ho Hp).
    unfold from_image_helper.
    unfold bind at 1. unfold fits_get_img_dim. rewrite E.
    unfold bind at 1. rewrite (fcheck_nonzero _ _ Hs). reflexivity.
  - destruct (ffgisz (fits w4) f rank (0, 0) 0) as [fs5 [[nx ny] s5]] eqn:E.
    status_of_perform Hperf E.
    rewrite (from_image_after_probes T _ _ _ _ _ _ _ Ho Hp Hr).
    destruct Hrank as [-> | ->]; cbn [Z.eqb Pos.eqb].
    + apply bind_terminated. rewrite read_image_data_1d_run, E.
      destruct (Z.eqb_spec s 0); [contradiction | reflexivity].
    + apply bind_terminated. rewrite read_image_data_2d_run, E.
      destruct (Z.eqb_spec s 0); [contradiction | reflexivity].
  - destruct (ffgpv fs5 f (get_fits_type T) 1 n (quiet_NaN T) 0)
      as [fs6 [[data anynul] s6]] eqn:E.
    status_of_perform Hperf E.
    destruct Hd as (w2 & w3 & Ho & Hp & Hr & Hsize).
    rewrite (from_image_after_probes T _ _ _ _ _ _ _ Ho Hp Hr).
    destruct Ha as [x rest Hx | x y Hx Hy Hxy Hv]; cbn [Z.eqb Pos.eqb].
    + apply bind_terminated. rewrite read_image_data_1d_run, Hsize.
      cbn [Z.eqb negb].
      destruct (Z.ltb_spec x 1); [lia|].
      destruct (Z.geb_spec x INT_MAX); [lia|].
      rewrite E. destruct (Z.eqb_spec s 0); [contradiction|]. cbn [negb trace].
      rewrite <- app_assoc. reflexivity.
    + apply bind_terminated. rewrite read_image_data_2d_run, Hsize.
      cbn [Z.eqb negb].
      destruct (Z.ltb_spec x 1); [lia|]. destruct (Z.ltb_spec y 1); [lia|].
      cbn [orb].
      destruct (Z.geb_spec (mul_int64 x y) INT_MAX); [lia|].
      rewrite Hv. cbn [negb]. cbv zeta.
      rewrite E. destruct (Z.eqb_spec s 0); [contradiction|]. cbn [negb trace].
      rewrite <- app_assoc. reflexivity.
  - destruct (ffclos fs6 f 0) as [fs7 s7] eqn:E.
    status_of_perform Hperf E.
    destruct Hd as (w2 & w3 & Ho & Hp & Hr & Hsize).
    rewrite (from_image_after_probes T _ _ _ _ _ _ _ Ho Hp Hr).
    destruct Ha as [x rest Hx | x y Hx Hy Hxy Hv]; cbn [Z.eqb Pos.eqb].
    + apply bind_terminated. rewrite read_image_data_1d_run, Hsize.
      cbn [Z.eqb negb].
      destruct (Z.ltb_spec x 1); [lia|].
      destruct (Z.geb_spec x INT_MAX); [lia|].
      rewrite Hread. cbn [Z.eqb negb]. rewrite E.
      destruct (Z.eqb_spec s 0); [contradiction|]. cbn [negb trace].
      rewrite <- app_assoc. reflexivity.
    + apply bind_terminated. rewrite read_image_data_2d_run, Hsize.
      cbn [Z.eqb negb].
      destruct (Z.ltb_spec x 1); [lia|]. destruct (Z.ltb_spec y 1); [lia|].
      cbn [orb].
      destruct (Z.geb_spec (mul_int64 x y) INT_MAX); [lia|].
      rewrite Hv. cbn [negb]. cbv zeta.
      rewrite Hread. cbn [Z.eqb negb]. rewrite E.
      destruct (Z.eqb_spec s 0); [contradiction|]. cbn [negb trace].
      rewrite <- app_assoc. reflexivity.
Qed.

Lemma fatal_load_taken settings w t w' :
  fatal_load settings w t w' -> from_image settings w = Terminated t w'.
Proof.
  intros H.
  destruct H as
    [ c wk fs' s Hpend Hperf Hs
    | f hdutype w2 Ho Hne
    | f w2 bitpix w3 Ho Hp Nf Nd
    | f T w2 w3 naxis w4 Ho Hp Hr N1 N2
    | f T rank naxes w4 fs5 diag Hd Hrej
    | f T x y w4 fs5 Hd Hx Hy Hxy Hv ].
  - exact (io_failure_taken _ _ _ _ _ _ Hpend Hperf Hs).
  - unfold from_image. apply bind_terminated.
    rewrite (open_image_for_reading_run _ _ _ _ _ Ho).
    destruct (Z.eqb_spec hdutype IMAGE_HDU); [contradiction | reflexivity].
  - rewrite (from_image_run _ _ _ _ _ _ (from_image_after_open _ _ _ _ Ho) Hp).
    destruct (Z.eqb_spec bitpix FLOAT_IMG); [contradiction|].
    destruct (Z.eqb_spec bitpix DOUBLE_IMG); [contradiction | reflexivity].
  - rewrite (from_image_after_probes T _ _ _ _ _ _ _ Ho Hp Hr).
    destruct (Z.eqb_spec naxis 1); [contradiction|].
    destruct (Z.eqb_spec naxis 2); [contradiction | reflexivity].
  - destruct Hd as (w2 & w3 & Ho & Hp & Hr & Hsize).
    rewrite (from_image_after_probes T _ _ _ _ _ _ _ Ho Hp Hr).
    destruct Hrej as [x rest Hx | x rest Hx | x y Hxy | x y Hx Hy Hxy];
      cbn [Z.eqb Pos.eqb]; apply bind_terminated.
    + rewrite read_image_data_1d_run, Hsize. cbn [Z.eqb negb].
      destruct (Z.ltb_spec x 1); [same_world | lia].
    + rewrite read_image_data_1d_run, Hsize. cbn [Z.eqb negb].
      assert (Hmax : 1 <= x) by (unfold INT_MAX in Hx; lia).
      destruct (Z.ltb_spec x 1); [lia|].
      destruct (Z.geb_spec x INT_MAX); [same_world | lia].
    + rewrite read_image_data_2d_run, Hsize. cbn [Z.eqb negb].
      destruct (Z.ltb_spec x 1); [same_world|].
      destruct (Z.ltb_spec y 1); [same_world | lia].
    + rewrite read_image_data_2d_run, Hsize. cbn [Z.eqb negb].
      destruct (Z.ltb_spec x 1); [lia|]. destruct (Z.ltb_spec y 1); [lia|].
      cbn [orb].
      destruct (Z.geb_spec (mul_int64 x y) INT_MAX); [same_world | lia].
  - destruct Hd as (w2 & w3 & Ho & Hp & Hr & Hsize).
    rewrite (from_image_after_probes T _ _ _ _ _ _ _ Ho Hp Hr).
    cbn [Z.eqb Pos.eqb]. apply bind_terminated.
    rewrite read_image_data_2d_run, Hsize. cbn [Z.eqb negb].
    destruct (Z.ltb_spec x 1); [lia|]. destruct (Z.ltb_spec y 1); [lia|].
    cbn [orb].
    destruct (Z.geb_spec (mul_int64 x y) INT_MAX); [lia|].
    rewrite Hv. cbn [negb]. same_world.
Qed.

Lemma admitted_1d_inv naxes extents n :
  admitted 1 naxes extents n ->
  exists rest, naxes = (n, rest) /\ extents = [n] /\ 1 <= n < INT_MAX.
Proof. inversion 1; subst. eauto. Qed.

Lemma admitted_2d_inv naxes extents n :
  admitted 2 naxes extents n ->
  exists nx ny,
    naxes = (nx, ny) /\ extents = [to_int nx; to_int ny] /\
    n = to_int nx * to_int ny /\
    1 <= nx /\ 1 <= ny /\ mul_int64 nx ny < INT_MAX /\
    valid_extents [to_int nx; to_int ny] = true.
Proof. inversion 1; subst. eauto 10. Qed.

Lemma loads_taken settings w d w' :
  loads settings w d w' -> from_image settings w = Returned d w'.
Proof.
  intros (f & naxes & w4 & fs5 & data & Hd & Ha & Hserve & Hs & Hb & Htr).
  pose proof (describes_trace _ _ _ _ _ _ _ _ Hd) as Hprobes.
  destruct Hd as (w2 & w3 & Ho & Hp & Hr & Hsize).
  rewrite (from_image_after_probes _ _ _ _ _ _ _ _ Ho Hp Hr).
  destruct Hserve as (anynul & fs6 & Hread & Hclose).
  destruct w' as [fs7 tr7]. cbn [fits trace] in Hclose, Htr.
  destruct d as [T s [x p] | T s [x y p]];
    cbn [driver_precision driver_rank driver_extents driver_size
         driver_settings driver_buffer] in *;
    unfold Image1D.size, Image2D.size in *;
    cbn [Image1D.x Image1D.p Image2D.x Image2D.y Image2D.p] in *;
    cbn [Z.eqb Pos.eqb]; subst s p tr7.
  - apply admitted_1d_inv in Ha. destruct Ha as (rest & -> & _ & Hx).
    erewrite bind_returned; [reflexivity|].
    rewrite read_image_data_1d_run, Hsize. cbn [Z.eqb negb].
    destruct (Z.ltb_spec x 1); [lia|].
    destruct (Z.geb_spec x INT_MAX); [lia|].
    rewrite Hread. cbn [Z.eqb negb]. rewrite Hclose. cbn [Z.eqb negb].
    rewrite Hprobes. unfold load_events. rewrite <- app_assoc. reflexivity.
  - apply admitted_2d_inv in Ha.
    destruct Ha as (nx & ny & -> & E & En & Hx & Hy & Hxy & Hv).
    injection E as -> ->.
    erewrite bind_returned; [reflexivity|].
    rewrite read_image_data_2d_run, Hsize. cbn [Z.eqb negb].
    destruct (Z.ltb_spec nx 1); [lia|]. destruct (Z.ltb_spec ny 1); [lia|].
    cbn [orb].
    destruct (Z.geb_spec (mul_int64 nx ny) INT_MAX); [lia|].
    rewrite Hv. cbn [negb]. cbv zeta.
    rewrite Hread. cbn [Z.eqb negb]. rewrite Hclose. cbn [Z.eqb negb].
    rewrite Hprobes. unfold load_events. rewrite <- app_assoc. reflexivity.
Qed.

(** C1: whatever the library answers, a run of [from_image] ends in one of
    two ways, and there is no third.  Either it returns a driver, and then
    the library described the file as an image of the driver's precision and
    rank, one of the four supported combinations; the extents it reported
    passed validation and allocation and are those of the driver's one
    container, which holds what the single read delivered; the driver owns
    the caller's settings; and the run made exactly the calls open, unit
    type, storage tag, axis count, size, read, close, in that order, each
    with status zero.  Or the process terminates, and then on one of the six
    fatal paths, each with its own cause and its own diagnostic: a non-zero
    status of the call that was pending, reported before [EXIT_FAILURE]; a
    first unit that is not an image; an unsupported storage tag; an
    unsupported axis count; extents that fail validation; an allocation that
    refuses the extents, the one path that aborts.  The calls made before a
    termination are a prefix of the same order.  Conversely, whenever the
    library's answers fit the description of a returned driver or of a fatal
    path, that is how the run ends: the answers of the library determine the
    outcome. *)
Theorem from_image_returns_driver_or_terminates settings w :
  match from_image settings w with
  | Returned d w' =>
      loads settings w d w' /\
      In (driver_precision d, driver_rank d)
         [(float, 1); (float, 2); (double, 1); (double, 2)] /\
      driver_ok settings d /\
      exists added,
        trace w' = trace w ++ added /\
        kinds added = load_plan /\ clean added
  | Terminated t w' =>
      fatal_load settings w t w' /\
      exists added,
        trace w' = trace w ++ added /\ prefix_of (kinds added) load_plan
  end /\
  (forall d w', loads settings w d w' -> from_image settings w = Returned d w') /\
  (forall t w',
     fatal_load settings w t w' -> from_image settings w = Terminated t w').
Proof.
  split; [|split; [apply loads_taken | apply fatal_load_taken]].
  destruct (from_image_follows settings w) as (added & Htr & H).
  destruct (from_image settings w) as [d w' | t w'] eqn:E.
  - destruct H as (Hk & Hc & Hd).
    split; [exact (from_image_loads _ _ _ _ E)|].
    split; [destruct d as [[] ? ? | [] ? ?]; simpl; auto|].
    split; [exact Hd|].
    exists added. auto.
  - destruct H as (Hk & _).
    split; [exact (from_image_fatal _ _ _ _ E)|].
    exists added. auto.
Qed.

End Facts.

(** * Store, then load, on the reference library *)

Section RoundTrip.

Context {hdr : Imageio_h}.

Import MemFits.

Implicit Types w : World (FS := state).

Lemma handle_head f e hs : handle f ((f, e) :: hs) = Some e.
Proof. unfold handle. simpl. rewrite Z.eqb_refl. reflexivity. Qed.

Lemma file_named_head name h d : file_named name ((name, h) :: d) = Some h.
Proof. unfold file_named. simpl. rewrite String.eqb_refl. reflexivity. Qed.

Lemma valid_extents_2d_inv x y :
  valid_extents [x; y] = true -> 1 <= x /\ 1 <= y /\ x * y < INT_MAX.
Proof.
  unfold valid_extents. simpl. rewrite Z.mul_1_r.
  destruct (Z.leb_spec 1 x); [|discriminate].
  destruct (Z.leb_spec 1 y); [|discriminate].
  destruct (Z.ltb_spec (x * y) INT_MAX); [|discriminate]. auto.
Qed.

Lemma valid_extents_1d_inv x : valid_extents [x] = true -> 1 <= x < INT_MAX.
Proof.
  unfold valid_extents. simpl. rewrite Z.mul_1_r.
  destruct (Z.leb_spec 1 x); [|discriminate].
  destruct (Z.ltb_spec x INT_MAX); [|discriminate]. auto.
Qed.

(** What a read delivers for the stored pixels. *)
Lemma read_back_same_pixel T pixels :
  Forall2 (same_pixel T) pixels
    (map (fun v => if is_nan (get_fits_bitpix T) v then quiet_NaN T else v)
       pixels).
Proof.
  induction pixels as [|v pixels IH]; simpl; constructor; [|exact IH].
  unfold same_pixel, is_NaN.
  destruct (is_nan (get_fits_bitpix T) v) eqn:E; split; intros H;
    try discriminate; try reflexivity.
  split; [reflexivity|]. destruct T; reflexivity.
Qed.

(** The library accepts the store of [pixels] under a fresh name, and the
    file then holds them. *)
Lemma store_accepted T filename naxes n pixels w :
  file_named filename (disk (fits w)) = None ->
  List.length pixels = Z.to_nat n ->
  exists w1,
    accepts_store w filename T naxes n (Some (map Some pixels)) w1 /\
    file_named filename (disk (fits w1)) =
      Some (mkHdu IMAGE_HDU (get_fits_bitpix T) naxes pixels).
Proof.
  intros Hfresh Hlen.
  set (f := next (fits w)).
  set (h0 := mkHdu IMAGE_HDU 8 [] []).
  set (h1 := mkHdu IMAGE_HDU (get_fits_bitpix T) naxes []).
  set (h2 := mkHdu IMAGE_HDU (get_fits_bitpix T) naxes pixels).
  set (hs1 := (f, (filename, h0)) :: handles (fits w)).
  set (hs2 := (f, (filename, h1)) :: hs1).
  set (hs3 := (f, (filename, h2)) :: hs2).
  set (fs1 := mkState (disk (fits w)) hs1 (f + 1)).
  set (fs2 := mkState (disk (fits w)) hs2 (f + 1)).
  set (fs3 := mkState (disk (fits w)) hs3 (f + 1)).
  set (fs4 := mkState
                ((filename, h2)
                   :: filter (fun e => negb (String.eqb (fst e) filename))
                        (disk (fits w)))
                (forget f hs3) (f + 1)).
  exists (mkWorld fs4 (trace w ++ store_events filename f T naxes n
                                    (Some (map Some pixels)))).
  split; [|apply file_named_head].
  exists f, fs1, fs2, fs3, fs4.
  split; [|split; [|split; [|split; [|reflexivity]]]].
  - cbn [ffinit lib]. unfold mem_init. cbn [negb Z.eqb]. rewrite Hfresh.
    reflexivity.
  - cbn [ffcrim lib]. unfold mem_crim, update. cbn [negb Z.eqb handles fs1].
    unfold hs1. rewrite handle_head. unfold fs2, hs2, hs1, h1.
    rewrite Nat2Z.id, firstn_all. reflexivity.
  - cbn [ffppn lib]. unfold mem_ppn, update. cbn [negb Z.eqb handles fs2].
    unfold hs2. rewrite handle_head. unfold fs3, hs3, hs2, h2, h1.
    cbn [hdu_type hdu_bitpix hdu_naxes hdu_pixels Z.sub Z.to_nat firstn app
         Z.add Z.opp Z.pos_sub].
    rewrite <- Hlen, <- (length_map Some pixels), firstn_all, map_map, map_id.
    reflexivity.
  - cbn [ffclos lib]. unfold mem_clos. cbn [handles fs3].
    unfold hs3. rewrite handle_head. reflexivity.
Qed.

(** The library describes a stored image as it was declared. *)
Lemma stored_image_described T filename naxes pixels w :
  file_named filename (disk (fits w)) =
    Some (mkHdu IMAGE_HDU (get_fits_bitpix T) naxes pixels) ->
  let h := mkHdu IMAGE_HDU (get_fits_bitpix T) naxes pixels in
  let f := next (fits w) in
  let fs := mkState (disk (fits w)) ((f, (filename, h)) :: handles (fits w))
              (f + 1) in
  describes w filename f T (Z.of_nat (List.length naxes))
    (if 1 <=? Z.of_nat (List.length naxes) then nth 0 naxes 1 else 0,
     if 2 <=? Z.of_nat (List.length naxes) then nth 1 naxes 1 else 0)
    (mkWorld fs (trace w ++ probe_events filename f)) fs.
Proof.
  intros Hfile h f fs.
  exists (mkWorld fs (trace w ++ [Call (open_file filename READONLY) 0;
                                  Call (get_hdu_type f) 0])).
  exists (mkWorld fs (trace w ++ [Call (open_file filename READONLY) 0;
                                  Call (get_hdu_type f) 0;
                                  Call (get_img_type f) 0])).
  split; [|split; [|split]].
  - exists fs, fs. split; [|split; [|reflexivity]].
    + cbn [ffopen lib]. unfold mem_open. cbn [negb Z.eqb]. rewrite Hfile.
      reflexivity.
    + cbn [ffghdt lib]. unfold mem_ghdt, on_handle. cbn [negb Z.eqb handles fs].
      rewrite handle_head. reflexivity.
  - exists fs. split.
    + cbn [ffgidt lib fits]. unfold mem_gidt, on_handle.
      cbn [negb Z.eqb handles fs]. rewrite handle_head. reflexivity.
    + cbn [fits trace]. rewrite <- app_assoc. reflexivity.
  - exists fs. split.
    + cbn [ffgidm lib fits]. unfold mem_gidm, on_handle.
      cbn [negb Z.eqb handles fs]. rewrite handle_head. reflexivity.
    + cbn [fits trace]. unfold probe_events. rewrite <- app_assoc. reflexivity.
  - cbn [ffgisz lib fits]. unfold mem_gisz, on_handle.
    cbn [negb Z.eqb handles fs]. rewrite handle_head. reflexivity.
Qed.

(** The library serves the read of all the pixels of an open image and its
    close. *)
Lemma stored_image_served T filename naxes pixels f n hs d nx :
  List.length pixels = Z.to_nat n ->
  0 <= n ->
  let h := mkHdu IMAGE_HDU (get_fits_bitpix T) naxes pixels in
  exists fs',
    serves_load (mkState d ((f, (filename, h)) :: hs) nx) f T n
      (map (fun v => if is_nan (get_fits_bitpix T) v then quiet_NaN T else v)
         pixels)
      fs'.
Proof.
  intros Hlen Hn h.
  eexists. eexists. exists (mkState d ((f, (filename, h)) :: hs) nx).
  split.
  - cbn [ffgpv lib]. unfold mem_gpv. cbn [negb Z.eqb handles].
    rewrite handle_head.
    cbn [h hdu_pixels hdu_bitpix Z.sub Z.to_nat skipn Z.add Z.opp Z.pos_sub].
    rewrite <- Hlen, firstn_all, Hlen, Z2Nat.id, Z.ltb_irrefl by exact Hn.
    reflexivity.
  - cbn [ffclos lib]. unfold mem_clos. cbn [handles].
    rewrite handle_head. reflexivity.
Qed.

Lemma filled_all n data :
  List.length data = Z.to_nat n -> filled n data = map Some data.
Proof.
  intros Hlen. unfold filled.
  rewrite store_repeat_full by (rewrite Hlen; apply Nat.le_refl).
  rewrite <- Hlen, firstn_all. reflexivity.
Qed.


End RoundTrip.

(** ** Runs on concrete files: witnesses and examples *)

(** A binary table is refused at the structural gate. *)
Lemma open_image_for_reading_gate_witness :
  opens_as w0 "binary.fits" 1 BINARY_TBL (w_open "binary.fits") /\
  open_image_for_reading "binary.fits" w0 =
    Terminated (Exit EXIT_FAILURE)
      (extend (w_open "binary.fits") (not_an_image "BINARY_TBL")).
Proof.
  assert (H : opens_as w0 "binary.fits" 1 BINARY_TBL (w_open "binary.fits")).
  { exists (opened "binary.fits"), (opened "binary.fits").
    repeat split; reflexivity. }
  split; [exact H|].
  exact (proj1 (proj2 (proj2 (open_image_for_reading_gate _ _ _ _ _ H))) eq_refl).
Defined.

(** A unit of type 7 is refused with its number in the diagnostic. *)
Lemma open_image_for_reading_unknown_unit_witness :
  opens_as w0 "odd.fits" 1 7 (w_open "odd.fits") /\
  open_image_for_reading "odd.fits" w0 =
    Terminated (Exit EXIT_FAILURE)
      (extend (w_open "odd.fits") (not_an_image "7")).
Proof.
  assert (H : opens_as w0 "odd.fits" 1 7 (w_open "odd.fits")).
  { exists (opened "odd.fits"), (opened "odd.fits").
    repeat split; reflexivity. }
  split; [exact H|].
  refine (proj1 (open_image_for_reading_unknown_unit _ _ _ _ _ H _ _ _));
    unfold IMAGE_HDU, ASCII_TBL, BINARY_TBL; lia.
Defined.

(** Sixteen-bit integer pixels are refused at the precision gate. *)
Lemma from_image_precision_dispatch_witness :
  open_image_for_reading "int16.fits" w0 = Returned 1 (w_open "int16.fits") /\
  probes_precision (w_open "int16.fits") 1 16 (w_typed "int16.fits") /\
  from_image (settings_for "int16.fits") w0 =
    Terminated (Exit EXIT_FAILURE)
      (extend (w_typed "int16.fits") (unexpected_data_type "16-bit integers")).
Proof.
  assert (Hopen : open_image_for_reading (source (settings_for "int16.fits")) w0
                  = Returned 1 (w_open "int16.fits")) by reflexivity.
  assert (Htag : probes_precision (w_open "int16.fits") 1 16 (w_typed "int16.fits")).
  { exists (opened "int16.fits"). split; reflexivity. }
  split; [exact Hopen|]. split; [exact Htag|].
  refine (proj1 (proj2 (proj2 (proj2
            (from_image_precision_dispatch _ _ _ _ _ _ Hopen Htag)))) _).
  lia.
Defined.

(** A cube is refused at the rank gate. *)
Lemma from_image_helper_rank_dispatch_witness :
  probes_rank (w_typed "cube.fits") 1 3 (w_ranked "cube.fits") /\
  from_image_helper float (settings_for "cube.fits") 1 (w_typed "cube.fits") =
    Terminated (Exit EXIT_FAILURE)
      (extend (w_ranked "cube.fits") (unexpected_rank 3)).
Proof.
  assert (Hdim : probes_rank (w_typed "cube.fits") 1 3 (w_ranked "cube.fits")).
  { exists (opened "cube.fits"). split; reflexivity. }
  split; [exact Hdim|].
  refine (proj1 (proj2 (proj2
            (from_image_helper_rank_dispatch float (settings_for "cube.fits")
               _ _ _ _ Hdim))) _ _); lia.
Defined.

(** C7, where the code departs from it: the file declares extents of 2^62+1
    by 2^62+1.  The product the validation compares wraps to a negative
    [int64_t], so validation returns; the conversion to [int] keeps the low
    32 bits of each extent, and the load succeeds with a 1x1 container that
    does not have the probed shape.  The read and the close are as the claim
    says. *)
Theorem read_image_data_2d_truncates_huge_extents :
  let n := 4611686018427387905 in
  in_long n /\
  ffgisz (fits (w_ranked "huge.fits")) 1 2 (0, 0) 0
    = (opened "huge.fits", ((n, n), 0)) /\
  mul_int64 n n = - 9223372036854775807 /\
  observe (read_image_data_2d float "huge.fits" 1 (w_ranked "huge.fits")) =
    (inl (Image2D.mk 1 1 (Some [Some 7])),
     trace (w_ranked "huge.fits") ++
     [Call (get_img_size 1 2) 0;
      New 1;
      Call (read_img 1 TFLOAT 1 1 (quiet_NaN float)) 0;
      Call (close_file 1) 0]).
Proof.
  cbv zeta. split; [unfold in_long; lia|].
  split; [reflexivity|]. split; reflexivity.
Qed.


(** *** Witnesses of the further properties *)

(** The 1-D load of the four-pixel file. *)
Lemma read_image_data_1d_success_witness :
  let w := w_ranked "line.fits" in
  let img := Image1D.mk (T := double) 4 (Some [Some 1; Some 2; Some 3; Some 4]) in
  let w' := final (read_image_data_1d double "line.fits" 1 w) in
  read_image_data_1d double "line.fits" 1 w = Returned img w' /\
  exists fs1 x rest data,
    ffgisz (fits w) 1 1 (0, 0) 0 = (fs1, ((x, rest), 0)) /\
    1 <= x < INT_MAX /\
    serves_load fs1 1 double x data (fits w') /\
    img = Image1D.mk x (Some (filled x data)) /\
    List.length (filled x data) = Z.to_nat x /\
    ((Z.to_nat x <= List.length data)%nat ->
       filled x data = map Some (firstn (Z.to_nat x) data)) /\
    trace w' = trace w ++ load_events 1 double 1 x /\
    stderr_of (load_events 1 double 1 x) = "".
Proof.
  cbv zeta.
  assert (H : read_image_data_1d double "line.fits" 1 (w_ranked "line.fits") =
              Returned
                (Image1D.mk 4 (Some [Some 1; Some 2; Some 3; Some 4]))
                (final (read_image_data_1d double "line.fits" 1
                          (w_ranked "line.fits")))) by reflexivity.
  split; [exact H|].
  exact (read_image_data_1d_success double "line.fits" 1 _ _ _ H).
Defined.

(** The 2-D load of the 2x3 file. *)
Lemma read_image_data_2d_success_witness :
  let w := w_ranked "image.fits" in
  let img :=
    Image2D.mk (T := float) 2 3
      (Some [Some 10; Some 20; Some 30; Some 40; Some 50;
             Some (quiet_NaN float)]) in
  let w' := final (read_image_data_2d float "image.fits" 1 w) in
  read_image_data_2d float "image.fits" 1 w = Returned img w' /\
  ffgisz (fits w) 1 2 (0, 0) 0 = (opened "image.fits", ((2, 3), 0)) /\
  in_int 2 /\ in_int 3 /\
  exists data,
    serves_load (opened "image.fits") 1 float (2 * 3) data (fits w') /\
    img = Image2D.mk 2 3 (Some (filled (2 * 3) data)) /\
    trace w' = trace w ++ load_events 1 float 2 (2 * 3).
Proof.
  cbv zeta.
  assert (H2 : in_int 2) by (unfold in_int; lia).
  assert (H3 : in_int 3) by (unfold in_int; lia).
  assert (H : read_image_data_2d float "image.fits" 1 (w_ranked "image.fits") =
              Returned
                (Image2D.mk 2 3
                   (Some [Some 10; Some 20; Some 30; Some 40; Some 50;
                          Some (quiet_NaN float)]))
                (final (read_image_data_2d float "image.fits" 1
                          (w_ranked "image.fits")))) by reflexivity.
  split; [exact H|].
  split; [reflexivity|]. split; [exact H2|]. split; [exact H3|].
  destruct (read_image_data_2d_success float "image.fits" 1
              (w_ranked "image.fits") _ _ (opened "image.fits") 2 3 0
              H eq_refl H2 H3)
    as (_ & _ & _ & _ & data & Hserve & Himg & _ & _ & Htr & _).
  exists data. repeat split; assumption.
Defined.

(** The driver of the 2x3 file tells that it is a 2-D [float] image. *)
Lemma from_image_success_witness :
  let d :=
    Driver_Image2D float (settings_for "image.fits")
      (Image2D.mk 2 3
         (Some [Some 10; Some 20; Some 30; Some 40; Some 50;
                Some (quiet_NaN float)])) in
  let w' := final (from_image (settings_for "image.fits") w0) in
  from_image (settings_for "image.fits") w0 = Returned d w' /\
  exists f naxes w4 fs5 data,
    describes w0 "image.fits" f (driver_precision d) (driver_rank d)
      naxes w4 fs5 /\
    serves_load fs5 f (driver_precision d) (driver_size d) data (fits w') /\
    driver_settings d = settings_for "image.fits" /\
    driver_buffer d = Some (filled (driver_size d) data) /\
    trace w' =
      trace w0 ++ probe_events "image.fits" f
               ++ load_events f (driver_precision d) (driver_rank d)
                    (driver_size d) /\
    stderr_of (probe_events "image.fits" f
               ++ load_events f (driver_precision d) (driver_rank d)
                    (driver_size d)) = "".
Proof.
  cbv zeta.
  assert (H : from_image (settings_for "image.fits") w0 =
              Returned
                (Driver_Image2D float (settings_for "image.fits")
                   (Image2D.mk 2 3
                      (Some [Some 10; Some 20; Some 30; Some 40; Some 50;
                             Some (quiet_NaN float)])))
                (final (from_image (settings_for "image.fits") w0)))
    by reflexivity.
  split; [exact H|].
  exact (from_image_success (settings_for "image.fits") w0 _ _ H).
Defined.

(** The 2x3 file is accepted. *)
Lemma from_image_accepts_2d_witness :
  let data := [10; 20; 30; 40; 50; quiet_NaN float] in
  let fs7 := fst (MemFits.mem_clos (opened "image.fits") 1 0) in
  describes w0 "image.fits" 1 float 2 (2, 3) (w_ranked "image.fits")
    (opened "image.fits") /\
  serves_load (opened "image.fits") 1 float (2 * 3) data fs7 /\
  from_image (settings_for "image.fits") w0 =
    Returned
      (Driver_Image2D float (settings_for "image.fits")
         (Image2D.mk 2 3 (Some (filled (2 * 3) data))))
      (mkWorld fs7
         (trace w0 ++ probe_events "image.fits" 1
                   ++ load_events 1 float 2 (2 * 3))).
Proof.
  cbv zeta.
  assert (Hd : describes w0 (source (settings_for "image.fits")) 1 float 2
                 (2, 3) (w_ranked "image.fits") (opened "image.fits")).
  { exists (w_open "image.fits"), (w_typed "image.fits").
    repeat split; try reflexivity.
    - exists (opened "image.fits"), (opened "image.fits").
      repeat split; reflexivity.
    - exists (opened "image.fits"). split; reflexivity.
    - exists (opened "image.fits"). split; reflexivity. }
  assert (Hs : serves_load (opened "image.fits") 1 float (2 * 3)
                 [10; 20; 30; 40; 50; quiet_NaN float]
                 (fst (MemFits.mem_clos (opened "image.fits") 1 0))).
  { exists 1, (opened "image.fits"). split; reflexivity. }
  split; [exact Hd|]. split; [exact Hs|].
  apply (from_image_accepts_2d float (settings_for "image.fits") w0 1 2 3
           _ _ _ _ Hd); [lia | lia | unfold INT_MAX; lia | exact Hs].
Defined.

(** The four-pixel line is accepted. *)
Lemma from_image_accepts_1d_witness :
  let data := [1; 2; 3; 4] in
  let fs7 := fst (MemFits.mem_clos (opened "line.fits") 1 0) in
  describes w0 "line.fits" 1 double 1 (4, 0) (w_ranked "line.fits")
    (opened "line.fits") /\
  serves_load (opened "line.fits") 1 double 4 data fs7 /\
  from_image (settings_for "line.fits") w0 =
    Returned
      (Driver_Image1D double (settings_for "line.fits")
         (Image1D.mk 4 (Some (filled 4 data))))
      (mkWorld fs7
         (trace w0 ++ probe_events "line.fits" 1
                   ++ load_events 1 double 1 4)).
Proof.
  cbv zeta.
  assert (Hd : describes w0 (source (settings_for "line.fits")) 1 double 1
                 (4, 0) (w_ranked "line.fits") (opened "line.fits")).
  { exists (w_open "line.fits"), (w_typed "line.fits").
    repeat split; try reflexivity.
    - exists (opened "line.fits"), (opened "line.fits").
      repeat split; reflexivity.
    - exists (opened "line.fits"). split; reflexivity.
    - exists (opened "line.fits"). split; reflexivity. }
  assert (Hs : serves_load (opened "line.fits") 1 double 4 [1; 2; 3; 4]
                 (fst (MemFits.mem_clos (opened "line.fits") 1 0))).
  { exists 0, (opened "line.fits"). split; reflexivity. }
  split; [exact Hd|]. split; [exact Hs|].
  apply (from_image_accepts_1d double (settings_for "line.fits") w0 1 4 0
           _ _ _ _ Hd); [unfold INT_MAX; lia | exact Hs].
Defined.

(** *** Further runs *)

Example load_image_2x3 :
  observe (from_image (settings_for "image.fits") w0) =
    (inl (Driver_Image2D float (settings_for "image.fits")
            (Image2D.mk 2 3
               (Some [Some 10; Some 20; Some 30; Some 40; Some 50;
                      Some (quiet_NaN float)]))),
     [Call (open_file "image.fits" READONLY) 0;
      Call (get_hdu_type 1) 0;
      Call (get_img_type 1) 0;
      Call (get_img_dim 1) 0;
      Call (get_img_size 1 2) 0;
      New 6;
      Call (read_img 1 TFLOAT 1 6 (quiet_NaN float)) 0;
      Call (close_file 1) 0]).
Proof. reflexivity. Qed.

Example load_line_4 :
  observe (from_image (settings_for "line.fits") w0) =
    (inl (Driver_Image1D double (settings_for "line.fits")
            (Image1D.mk 4 (Some [Some 1; Some 2; Some 3; Some 4]))),
     [Call (open_file "line.fits" READONLY) 0;
      Call (get_hdu_type 1) 0;
      Call (get_img_type 1) 0;
      Call (get_img_dim 1) 0;
      Call (get_img_size 1 1) 0;
      New 4;
      Call (read_img 1 TDOUBLE 1 4 (quiet_NaN double)) 0;
      Call (close_file 1) 0]).
Proof. reflexivity. Qed.

Example load_missing_file :
  observe (from_image (settings_for "missing.fits") w0) =
    (inr (Exit EXIT_FAILURE),
     [Call (open_file "missing.fits" READONLY) MemFits.FILE_NOT_OPENED;
      ReportError MemFits.FILE_NOT_OPENED
        (cat ["FITSIO status = 104"; endl])]).
Proof. reflexivity. Qed.

Example load_ascii_table :
  stderr_of (snd (observe (from_image (settings_for "ascii.fits") w0))) =
    cat ["expected IMAGE_HDU, got ASCII_TBL"; endl].
Proof. reflexivity. Qed.

Example load_half_precision :
  stderr_of (snd (observe (from_image (settings_for "half.fits") w0))) =
    cat ["unexpected data type: 16-bit floats"; endl].
Proof. reflexivity. Qed.

Example load_no_axes :
  stderr_of (snd (observe (from_image (settings_for "none.fits") w0))) =
    cat ["expected 1-dimensional or 2-dimensional data, got 0-dimensional data";
         endl].
Proof. reflexivity. Qed.

Example load_cube :
  stderr_of (snd (observe (from_image (settings_for "cube.fits") w0))) =
    cat ["expected 1-dimensional or 2-dimensional data, got 3-dimensional data";
         endl].
Proof. reflexivity. Qed.

(** The remaining fatal paths, through the facade: extents that fail
    validation, extents that the allocation refuses after the wrapped product
    let them through validation, and a read that the library refuses. *)
Example load_zero_by_five :
  observe (from_image (settings_for "lone.fits")
             (w_lone (MemFits.mkHdu IMAGE_HDU DOUBLE_IMG [0; 5] []))) =
    (inr (Exit EXIT_FAILURE),
     probe_events "lone.fits" 1
       ++ Call (get_img_size 1 2) 0 :: too_small_2d 0 5).
Proof. reflexivity. Qed.

Example load_line_of_int_max :
  observe (from_image (settings_for "lone.fits")
             (w_lone (MemFits.mkHdu IMAGE_HDU DOUBLE_IMG [INT_MAX] []))) =
    (inr (Exit EXIT_FAILURE),
     probe_events "lone.fits" 1
       ++ Call (get_img_size 1 1) 0 :: too_large_1d INT_MAX).
Proof. reflexivity. Qed.

Example load_wrapped_extents :
  observe (from_image (settings_for "lone.fits")
             (w_lone (MemFits.mkHdu IMAGE_HDU FLOAT_IMG
                        [4294967296; 4294967296] []))) =
    (inr Abort,
     probe_events "lone.fits" 1
       ++ [Call (get_img_size 1 2) 0; Cerr alloc_refused]).
Proof. reflexivity. Qed.

Example load_short_file :
  observe (from_image (settings_for "lone.fits")
             (w_lone (MemFits.mkHdu IMAGE_HDU FLOAT_IMG [2; 2] [1; 2; 3]))) =
    (inr (Exit EXIT_FAILURE),
     probe_events "lone.fits" 1
       ++ [Call (get_img_size 1 2) 0; New 4;
           Call (read_img 1 TFLOAT 1 4 (quiet_NaN float)) MemFits.END_OF_FILE;
           ReportError MemFits.END_OF_FILE
             (cat ["FITSIO status = 107"; endl])]).
Proof. reflexivity. Qed.

Example verify_dim_1d_zero :
  observe (verify_dim_1d (0, 0) w0) =
    (inr (Exit EXIT_FAILURE),
     [Cerr (cat ["image dimension 0 too small"; endl])]).
Proof. reflexivity. Qed.

Example verify_dim_1d_int_max :
  observe (verify_dim_1d (2147483647, 0) w0) =
    (inr (Exit EXIT_FAILURE),
     [Cerr (cat ["image dimension 2147483647 too large"; endl])]).
Proof. reflexivity. Qed.

Example verify_dim_1d_one : observe (verify_dim_1d (1, 0) w0) = (inl tt, []).
Proof. reflexivity. Qed.

Example verify_dim_2d_zero_by_five :
  observe (verify_dim_2d (0, 5) w0) =
    (inr (Exit EXIT_FAILURE),
     [Cerr (cat ["image dimensions 0x5 too small"; endl])]).
Proof. reflexivity. Qed.

Example verify_dim_2d_too_large :
  observe (verify_dim_2d (65536, 32768) w0) =
    (inr (Exit EXIT_FAILURE),
     [Cerr (cat ["image dimensions 65536x32768 too large"; endl])]).
Proof. reflexivity. Qed.

Example verify_dim_2d_one_by_one :
  observe (verify_dim_2d (1, 1) w0) = (inl tt, []).
Proof. reflexivity. Qed.

(** On the reference library, a stored container loads back unchanged. *)
Example store_then_load :
  let img := Image2D.mk 2 1 (Some [Some 5; Some (quiet_NaN float)]) in
  fst (observe
         (bind (write_image_2d float "out.fits" img)
            (fun _ => from_image (settings_for "out.fits")) w0)) =
    inl (Driver_Image2D float (settings_for "out.fits") img).
Proof. reflexivity. Qed.
